(** * HMC payroll collector: a shallow embedding of [app/api/payroll/jobs]

    The development follows the source file top-down: text and number
    helpers, the field normalizer ([parseIntMoney], [firstPresent],
    [normalizeDate], [normalizeRows]), the job registry ([updateJob],
    [toSnapshot], [cleanupOldJobs]) and the processing task
    ([waitForFido], [fetchLatestCsrf], [processJob], [startPayrollJob]).
    Of the two routes that call it, [status/route.ts] is embedded whole
    ([GET]) and [start/route.ts] as far as the reading of the years
    ([parseRangeInput]).

    - A JavaScript string is a sequence of UTF-16 code units: [jstring] is
      [list N].  Literals are written as Rocq strings (UTF-8, like the
      source file) and decoded by [u].
    - A JavaScript number is an IEEE-754 binary64 value: [spec_float] of the
      Standard Library with [prec = 53] and [emax = 1024].
    - Code that awaits the network, the clock or a timer is written in a
      state-and-exception monad over a [World]; what the portal answers is
      read from an [Env]. *)

From Stdlib Require Import ZArith List Bool Lia String Ascii Sorted DecimalN.
From Stdlib Require Import Floats.SpecFloat.
From stdpp Require Import base option list gmap fin_maps.

#[local] Open Scope Z_scope.

(* ===================================================================== *)
(** * Text *)
(* ===================================================================== *)

Module JsString.

(** One entry per UTF-16 code unit. *)
Definition jstring : Type := list N.

Definition eqb (a b : jstring) : bool :=
  bool_decide (a = b).

(** ** Decoding of literals

    [u] reads a UTF-8 byte string and yields its UTF-16 code units: one unit
    for code points below U+10000, a surrogate pair above. *)

Definition cont (b : N) : N := N.land b 63.

Definition encodeUnits (cp : N) : list N :=
  if (cp <? 65536)%N then [cp]
  else
    let v := (cp - 65536)%N in
    [(55296 + N.shiftr v 10)%N; (56320 + N.land v 1023)%N].

Fixpoint decodeUtf8 (fuel : nat) (bs : list N) : list N :=
  match fuel with
  | O => []
  | S fuel' =>
    match bs with
    | [] => []
    | b0 :: r0 =>
      if (b0 <? 128)%N then b0 :: decodeUtf8 fuel' r0
      else if (b0 <? 224)%N then
        match r0 with
        | b1 :: r1 =>
          encodeUnits (N.shiftl (N.land b0 31) 6 + cont b1)%N ++ decodeUtf8 fuel' r1
        | _ => [65533%N]
        end
      else if (b0 <? 240)%N then
        match r0 with
        | b1 :: b2 :: r2 =>
          encodeUnits (N.shiftl (N.land b0 15) 12 + N.shiftl (cont b1) 6 + cont b2)%N
            ++ decodeUtf8 fuel' r2
        | _ => [65533%N]
        end
      else
        match r0 with
        | b1 :: b2 :: b3 :: r3 =>
          encodeUnits (N.shiftl (N.land b0 7) 18 + N.shiftl (cont b1) 12
                       + N.shiftl (cont b2) 6 + cont b3)%N
            ++ decodeUtf8 fuel' r3
        | _ => [65533%N]
        end
    end
  end.

Definition u (s : string) : jstring :=
  let bs := map N_of_ascii (list_ascii_of_string s) in
  decodeUtf8 (List.length bs) bs.

(** ** Character classes *)

(** [WhiteSpace] and [LineTerminator] of ECMA-262: what [trim], [\s] and the
    numeric grammar skip. *)
Definition isWhite (c : N) : bool :=
  ((9 <=? c) && (c <=? 13) || (c =? 32) || (c =? 160) || (c =? 5760)
   || (8192 <=? c) && (c <=? 8202) || (c =? 8232) || (c =? 8233)
   || (c =? 8239) || (c =? 8287) || (c =? 12288) || (c =? 65279))%N.

Definition isDigit (c : N) : bool := ((48 <=? c) && (c <=? 57))%N.

(** ** String methods used by the source *)

Fixpoint trimStart (s : jstring) : jstring :=
  match s with
  | c :: r => if isWhite c then trimStart r else s
  | [] => []
  end.

Definition trimEnd (s : jstring) : jstring := rev (trimStart (rev s)).

(** [s.trim()] *)
Definition trim (s : jstring) : jstring := trimEnd (trimStart s).

(** [s.slice(a, b)] for [0 <= a <= b]; [sliceFrom] is [s.slice(a)]. *)
Definition slice (a b : nat) (s : jstring) : jstring := firstn (b - a) (skipn a s).
Definition sliceFrom (a : nat) (s : jstring) : jstring := skipn a s.

(** [s.startsWith(p)] *)
Fixpoint startsWith (p s : jstring) : bool :=
  match p, s with
  | [], _ => true
  | _ :: _, [] => false
  | a :: p', b :: s' => (a =? b)%N && startsWith p' s'
  end.

(** [s.includes(p)] *)
Fixpoint includes (p s : jstring) : bool :=
  startsWith p s ||
  match s with
  | [] => false
  | _ :: s' => includes p s'
  end.

(** [s.toLowerCase()] on the Basic Latin and Latin-1 letters.  Outside this
    range the only letters whose lower case is an ASCII letter are U+0130
    and U+212A (to [i] and [k]); the patterns of [isHtml] contain neither. *)
Definition lowerUnit (c : N) : N :=
  if ((65 <=? c) && (c <=? 90))%N then (c + 32)%N
  else if ((192 <=? c) && (c <=? 222) && negb (c =? 215))%N then (c + 32)%N
  else c.

Definition toLowerCase (s : jstring) : jstring := map lowerUnit s.

(** [s.padStart(n, '0')] *)
Definition padStart0 (n : nat) (s : jstring) : jstring :=
  repeat 48%N (n - List.length s) ++ s.

(** Decimal text of a natural number and of an integer: [String(n)] for an
    integral number below [1e21] in magnitude. *)
Fixpoint uintUnits (d : Decimal.uint) : jstring :=
  match d with
  | Decimal.Nil => []
  | Decimal.D0 r => 48%N :: uintUnits r
  | Decimal.D1 r => 49%N :: uintUnits r
  | Decimal.D2 r => 50%N :: uintUnits r
  | Decimal.D3 r => 51%N :: uintUnits r
  | Decimal.D4 r => 52%N :: uintUnits r
  | Decimal.D5 r => 53%N :: uintUnits r
  | Decimal.D6 r => 54%N :: uintUnits r
  | Decimal.D7 r => 55%N :: uintUnits r
  | Decimal.D8 r => 56%N :: uintUnits r
  | Decimal.D9 r => 57%N :: uintUnits r
  end.

Definition ofN (n : N) : jstring := uintUnits (N.to_uint n).

Definition ofZ (z : Z) : jstring :=
  if z <? 0 then 45%N :: ofN (Z.abs_N z) else ofN (Z.abs_N z).

End JsString.
Export JsString.

(* ===================================================================== *)
(** * Numbers *)
(* ===================================================================== *)

Module JsNumber.

(** ** The text of a number: [StringToNumber] of ECMA-262

    [StrNumericLiteral] is a signed decimal literal (digits, an optional
    fraction, an optional exponent, or [Infinity]) or an unsigned binary,
    octal or hexadecimal integer literal. *)

Inductive literal : Type :=
  | LitNaN                                       (* not a numeric literal *)
  | LitInfinity (neg : bool)
  | LitDecimal (neg : bool) (digits : N) (exp10 : Z). (* digits * 10^exp10 *)

Fixpoint spanDigits (s : jstring) : jstring * jstring :=
  match s with
  | c :: r =>
    if isDigit c then let '(ds, rest) := spanDigits r in (c :: ds, rest)
    else ([], s)
  | [] => ([], [])
  end.

Definition digitValue (c : N) : N := (c - 48)%N.

Definition digitsValue (ds : jstring) : N :=
  fold_left (fun acc c => (10 * acc + digitValue c)%N) ds 0%N.

(** [ExponentPart_opt] followed by the end of the text *)
Definition parseExponent (s : jstring) : option Z :=
  match s with
  | [] => Some 0
  | c :: r =>
    if ((c =? 101) || (c =? 69))%N then
      let '(neg, r') :=
        match r with
        | c' :: r' =>
          if (c' =? 43)%N then (false, r')
          else if (c' =? 45)%N then (true, r')
          else (false, r)
        | [] => (false, r)
        end in
      match spanDigits r' with
      | ((_ :: _) as ds, []) =>
        let e := Z.of_N (digitsValue ds) in Some (if neg then - e else e)
      | _ => None
      end
    else None
  end.

(** [StrUnsignedDecimalLiteral] other than [Infinity] *)
Definition parseUnsignedDecimal (neg : bool) (s : jstring) : literal :=
  let '(ip, r1) := spanDigits s in
  let '(fp, r2) :=
    match r1 with
    | c :: r => if (c =? 46)%N then spanDigits r else ([], r1)
    | [] => ([], r1)
    end in
  match ip ++ fp with
  | [] => LitNaN
  | _ :: _ =>
    match parseExponent r2 with
    | Some e => LitDecimal neg (digitsValue (ip ++ fp)) (e - Z.of_nat (List.length fp))
    | None => LitNaN
    end
  end.

Definition parseDecimal (neg : bool) (s : jstring) : literal :=
  if eqb s (u "Infinity") then LitInfinity neg else parseUnsignedDecimal neg s.

(** [NonDecimalIntegerLiteral]: the digits after [0b], [0o] or [0x] *)
Definition radixDigit (radix c : N) : option N :=
  let v :=
    if isDigit c then Some (c - 48)%N
    else if ((97 <=? c) && (c <=? 102))%N then Some (c - 87)%N
    else if ((65 <=? c) && (c <=? 70))%N then Some (c - 55)%N
    else None in
  match v with
  | Some d => if (d <? radix)%N then Some d else None
  | None => None
  end.

Fixpoint radixValue (radix : N) (acc : N) (s : jstring) : option N :=
  match s with
  | [] => Some acc
  | c :: r =>
    match radixDigit radix c with
    | Some d => radixValue radix (radix * acc + d)%N r
    | None => None
    end
  end.

Definition parseRadix (radix : N) (s : jstring) : literal :=
  match s with
  | [] => LitNaN
  | _ :: _ =>
    match radixValue radix 0%N s with
    | Some v => LitDecimal false v 0
    | None => LitNaN
    end
  end.

(** The whole of [StringNumericLiteral]: surrounding white space is skipped
    and the empty text is [+0]. *)
Definition parseLiteral (s : jstring) : literal :=
  let t := trim s in
  match t with
  | [] => LitDecimal false 0 0
  | c :: r =>
    if (c =? 43)%N then parseDecimal false r
    else if (c =? 45)%N then parseDecimal true r
    else
      match r with
      | c' :: r' =>
        if (c =? 48)%N && ((c' =? 98) || (c' =? 66))%N then parseRadix 2 r'
        else if (c =? 48)%N && ((c' =? 111) || (c' =? 79))%N then parseRadix 8 r'
        else if (c =? 48)%N && ((c' =? 120) || (c' =? 88))%N then parseRadix 16 r'
        else parseDecimal false t
      | [] => parseDecimal false t
      end
  end.

(** ** Rounding to binary64

    The value of a literal is rounded to the nearest double, ties to even.
    A whole number goes through [binary_normalize]; a quotient by a power of
    ten through the division core of the Standard Library, which keeps the
    position of the exact quotient between two doubles. *)

Definition prec : Z := 53.
Definition emax : Z := 1024.

Definition roundDecimal (neg : bool) (digits : N) (exp10 : Z) : spec_float :=
  match digits with
  | N0 => S754_zero neg
  | Npos m =>
    if 0 <=? exp10 then
      binary_round prec emax neg (m * Z.to_pos (10 ^ exp10))%positive 0
    else
      let '(q, e, l) :=
        SFdiv_core_binary prec emax (Zpos m) 0 (10 ^ (- exp10)) 0 in
      binary_round_aux prec emax neg q e l
  end.

(** [Number(text)] *)
Definition Number (s : jstring) : spec_float :=
  match parseLiteral s with
  | LitNaN => S754_nan
  | LitInfinity neg => S754_infinity neg
  | LitDecimal neg digits exp10 => roundDecimal neg digits exp10
  end.

(** [Number.isFinite(x)] *)
Definition isFinite (x : spec_float) : bool :=
  match x with
  | S754_zero _ | S754_finite _ _ _ => true
  | S754_infinity _ | S754_nan => false
  end.

(** [Math.round(x)] of a finite [x]: the integer [floor(x + 1/2)].  The
    result of the source is that integer as a double, which is exact ([x] is
    already whole from [2^52] on); both zeros are [0]. *)
Definition round (x : spec_float) : Z :=
  match x with
  | S754_finite s m e =>
    let v := if s then Zneg m else Zpos m in
    if 0 <=? e then v * 2 ^ e
    else (2 * v + 2 ^ (- e)) / 2 ^ (1 - e)
  | _ => 0
  end.

(** The double of a whole number that is one (the amounts of a transaction
    are results of [Math.round]); a zero is taken as [+0], which adds up as
    [-0] does to anything but [-0]. *)
Definition ofInteger (z : Z) : spec_float := binary_normalize prec emax z 0 false.

(** [x + y] *)
Definition add (x y : spec_float) : spec_float := SFadd prec emax x y.

End JsNumber.

(* ===================================================================== *)
(** * Values and exceptions *)
(* ===================================================================== *)

(** A computation that returns or throws an [Error] with a message. *)
Inductive Result (A : Type) : Type :=
  | Ok (a : A)
  | Throw (msg : jstring).
Arguments Ok {A} a.
Arguments Throw {A} msg.

Definition rbind {A B : Type} (r : Result A) (k : A -> Result B) : Result B :=
  match r with
  | Ok a => k a
  | Throw msg => Throw msg
  end.

Notation "'try!' x <- e ; k" := (rbind e (fun x => k))
  (at level 10, x name, e at level 100, k at level 200).

#[local] Set Warnings "-register-all".

(** What [JSON.parse] yields, and [undefined].  A number is known through
    the text [String] gives for it, which is all the source asks of one. *)
Inductive JVal : Type :=
  | JUndefined
  | JNull
  | JBool (b : bool)
  | JNum (text : jstring)
  | JStr (s : jstring)
  | JArr (items : list JVal)
  | JObj (fields : list (jstring * JVal)).

(** Own property of a parsed object; a later duplicate key of the JSON text
    has already replaced an earlier one, so the first binding is the
    value. *)
Fixpoint assoc (key : jstring) (fields : list (jstring * JVal)) : JVal :=
  match fields with
  | [] => JUndefined
  | (k, v) :: r => if eqb k key then v else assoc key r
  end.

Definition hasOwn (key : jstring) (fields : list (jstring * JVal)) : bool :=
  existsb (fun kv => eqb (fst kv) key) fields.

Fixpoint arrayIndex (key : jstring) (i : N) (items : list JVal) : JVal :=
  match items with
  | [] => JUndefined
  | x :: r => if eqb key (ofN i) then x else arrayIndex key (N.succ i) r
  end.

(** [record[key]].  The names the built-in prototypes define ([toString],
    [constructor], [map], ...) are outside the embedding; no alias of the
    normalizer is one of them. *)
Definition getProp (record : JVal) (key : jstring) : JVal :=
  match record with
  | JObj fields => assoc key fields
  | JArr items =>
    if eqb key (u "length") then JNum (ofN (N.of_nat (List.length items)))
    else arrayIndex key 0%N items
  | _ => JUndefined
  end.

(** The [TypeError] of [OrdinaryToPrimitive] (wording of V8). *)
Definition noPrimitive : jstring := u "Cannot convert object to primitive value".

Definition joinComma (parts : list jstring) : jstring :=
  match parts with
  | [] => []
  | p :: r => p ++ flat_map (fun q => 44%N :: q) r
  end.

Fixpoint sequence {A : Type} (rs : list (Result A)) : Result (list A) :=
  match rs with
  | [] => Ok []
  | r :: rest => try! a <- r; try! l <- sequence rest; Ok (a :: l)
  end.

(** [String(val)].  An array is joined with commas, [null] and [undefined]
    elements giving the empty text.  A plain object is ["[object Object]"]
    unless a [toString] entry of its own hides the inherited method: the
    entry is data, [valueOf] yields no primitive, and the conversion
    throws. *)
Fixpoint toText (val : JVal) : Result jstring :=
  match val with
  | JUndefined => Ok (u "undefined")
  | JNull => Ok (u "null")
  | JBool b => Ok (if b then u "true" else u "false")
  | JNum text => Ok text
  | JStr s => Ok s
  | JArr items =>
    try! parts <- sequence (map (fun x =>
                    match x with
                    | JUndefined | JNull => Ok []
                    | _ => toText x
                    end) items);
    Ok (joinComma parts)
  | JObj fields =>
    if hasOwn (u "toString") fields then Throw noPrimitive
    else Ok (u "[object Object]")
  end.

(* ===================================================================== *)
(** * Field normalizer *)
(* ===================================================================== *)

Record Txn : Type := {
  year : Z;
  month : Z;
  date : jstring;
  category : jstring;
  group : jstring;
  gross : Z;
  deductions : Z;
  net : Z;
  currency : jstring;
  seqnr : jstring;
  fpbeg : jstring;
  fpend : jstring;
}.

(** [m.toString().padStart(2, '0')] *)
Definition z2 (m : Z) : jstring := padStart0 2 (ofZ m).

(** [s.replace(/,/g, '')] *)
Definition stripCommas (s : jstring) : jstring :=
  List.filter (fun c => negb (c =? 44)%N) s.

Definition parseIntMoney (val : JVal) : Result Z :=
  match val with
  | JNull | JUndefined => Ok 0
  | _ =>
    try! text <- toText val;
    let stripped := trim (stripCommas text) in
    if eqb stripped [] then Ok 0
    else
      let num := JsNumber.Number stripped in
      Ok (if JsNumber.isFinite num then JsNumber.round num else 0)
  end.

(** [value !== undefined && value !== null && value !== ''] *)
Definition present (value : JVal) : bool :=
  match value with
  | JUndefined | JNull | JStr [] => false
  | _ => true
  end.

Fixpoint firstPresent (record : JVal) (keys : list jstring) : JVal :=
  match keys with
  | [] => JUndefined
  | key :: rest =>
    let value := getProp record key in
    if present value then value else firstPresent record rest
  end.

(** [s.replace(/[^0-9]/g, '')] *)
Definition onlyDigits (s : jstring) : jstring := List.filter isDigit s.

(** [s.replace(/[./]/g, '-')] *)
Definition dashed (s : jstring) : jstring :=
  map (fun c => if ((c =? 46) || (c =? 47))%N then 45%N else c) s.

(** [/^[0-9]{4}-[0-9]{2}-[0-9]{2}$/.test(s)] *)
Definition isIsoDate (s : jstring) : bool :=
  match s with
  | [y1; y2; y3; y4; h1; m1; m2; h2; d1; d2] =>
    forallb isDigit [y1; y2; y3; y4; m1; m2; d1; d2] && (h1 =? 45)%N && (h2 =? 45)%N
  | _ => false
  end.

Definition normalizeDate (val : JVal) : Result jstring :=
  match val with
  | JNull | JUndefined => Ok []
  | _ =>
    try! text <- toText val;
    let raw := trim text in
    if eqb raw [] then Ok []
    else
      let digits := onlyDigits raw in
      if (List.length digits =? 8)%nat then
        Ok (slice 0 4 digits ++ u "-" ++ slice 4 6 digits ++ u "-" ++ sliceFrom 6 digits)
      else
        let normalized := dashed raw in
        Ok (if isIsoDate normalized then normalized else raw)
  end.

(** The alias lists of [normalizeRows], in the order of the source. *)
Definition dateKeys : list jstring :=
  map u ["rqdatTxt"; "rqdat"; "rqDt"; "payDate"; "paydate"; "payDt"; "paydt";
         "payday"; "payDay"; "pdate"; "payYmd"]%string.
Definition dateFallbackKeys : list jstring := map u ["fpend"; "fpEnd"; "fpendTxt"]%string.
Definition categoryKeys : list jstring :=
  map u ["paytyTxt"; "paytyNm"; "payTypeNm"; "payType"; "payName"; "payNm"; "category"]%string.
Definition groupKeys : list jstring :=
  map u ["paygubun"; "payGubun"; "paygubunCd"; "payGroup"; "group"]%string.
Definition grossKeys : list jstring :=
  map u ["bet01Txt"; "bet01"; "gross"; "grossAmt"; "totGross"]%string.
Definition deductionsKeys : list jstring :=
  map u ["bet07Txt"; "bet07"; "deductions"; "deduction"; "totDeduction"]%string.
Definition netKeys : list jstring :=
  map u ["bet08Txt"; "bet08"; "net"; "netAmt"; "totNet"; "payAmt"]%string.
Definition currencyKeys : list jstring := map u ["waers"; "currency"; "curr"; "currCd"]%string.
Definition seqnrKeys : list jstring :=
  map u ["seqnr"; "seqNo"; "seq"; "seqnrTxt"; "seqno"]%string.
Definition fpbegKeys : list jstring :=
  map u ["fpbeg"; "fpBeg"; "fromDate"; "begda"; "fpbegTxt"]%string.
Definition fpendKeys : list jstring :=
  map u ["fpend"; "fpEnd"; "toDate"; "endda"; "fpendTxt"]%string.

(** [a || b] on strings: the empty string is the only falsy one. *)
Definition orElse (a b : jstring) : jstring :=
  match a with
  | [] => b
  | _ => a
  end.

(** [String(value ?? dflt).trim()] *)
Definition textOr (value : JVal) (dflt : jstring) : Result jstring :=
  try! text <- toText (match value with
                       | JUndefined | JNull => JStr dflt
                       | _ => value
                       end);
  Ok (trim text).

(** [`${year}-${z2(month)}-01`] *)
Definition firstOfMonth (year month : Z) : jstring :=
  ofZ year ++ u "-" ++ z2 month ++ u "-01".

(** The callback of [rows.map] in [normalizeRows]. *)
Definition normalizeRow (year month : Z) (row : JVal) : Result Txn :=
  try! date <-
    (try! d1 <- normalizeDate (firstPresent row dateKeys);
     match d1 with
     | _ :: _ => Ok d1
     | [] =>
       try! d2 <- normalizeDate (firstPresent row dateFallbackKeys);
       Ok (orElse d2 (firstOfMonth year month))
     end);
  try! category <- textOr (firstPresent row categoryKeys) (u "UNKNOWN");
  let category := orElse category (u "UNKNOWN") in
  try! group <- textOr (firstPresent row groupKeys) [];
  try! gross <- parseIntMoney (firstPresent row grossKeys);
  try! deductions <- parseIntMoney (firstPresent row deductionsKeys);
  try! net <- parseIntMoney (firstPresent row netKeys);
  try! currency <- textOr (firstPresent row currencyKeys) (u "KRW");
  let currency := orElse currency (u "KRW") in
  try! seqnr <- textOr (firstPresent row seqnrKeys) [];
  try! fpbeg <- normalizeDate (firstPresent row fpbegKeys);
  try! fpend <- normalizeDate (firstPresent row fpendKeys);
  Ok {| year := year; month := month; date := date; category := category;
        group := group; gross := gross; deductions := deductions; net := net;
        currency := currency; seqnr := seqnr; fpbeg := fpbeg; fpend := fpend |}.

(** [row !== null && typeof row === 'object'] *)
Definition isRecord (row : JVal) : bool :=
  match row with
  | JArr _ | JObj _ => true
  | _ => false
  end.

Definition normalizeRows (year month : Z) (rows : list JVal) : Result (list Txn) :=
  sequence (map (normalizeRow year month) (List.filter isRecord rows)).

(* ===================================================================== *)
(** * Job registry *)
(* ===================================================================== *)

Inductive JobStatus : Type := Pending | Auth_wait | Fetching | Completed | Error.

Module Summary.
(** The three totals are doubles, sums of doubles; [count] is the length
    of an array. *)
Record t : Type := {
  gross : spec_float;
  deductions : spec_float;
  net : spec_float;
  count : nat;
}.
End Summary.

Record JobState : Type := {
  id : jstring;
  status : JobStatus;
  message : jstring;
  totalMonths : nat;
  processedMonths : nat;
  transactions : list Txn;
  summary : option Summary.t;
  error : option jstring;
  createdAt : Z;
  updatedAt : Z;
}.

Module JobSnapshot.
Record t : Type := {
  id : jstring;
  status : JobStatus;
  message : jstring;
  totalMonths : nat;
  processedMonths : nat;
  summary : option Summary.t;
  error : option jstring;
  transactions : option (list Txn);
}.
End JobSnapshot.

Record ScrapeParams : Type := {
  username : jstring;
  password : jstring;
  pernr : jstring;
  years : list Z;
  months : list Z;
  waitAuthSeconds : Z;
  pollIntervalSeconds : Z;
}.

(** [Partial<JobState>]: the fields an update carries. *)
Record Patch : Type := {
  p_status : option JobStatus;
  p_message : option jstring;
  p_totalMonths : option nat;
  p_processedMonths : option nat;
  p_transactions : option (list Txn);
  p_summary : option Summary.t;
  p_error : option jstring;
}.

Definition patch0 : Patch :=
  {| p_status := None; p_message := None; p_totalMonths := None;
     p_processedMonths := None; p_transactions := None; p_summary := None;
     p_error := None |}.

(** [Object.assign(job, patch); job.updatedAt = now] *)
Definition assignJob (job : JobState) (patch : Patch) (now : Z) : JobState :=
  {| id := id job;
     status := default (status job) (p_status patch);
     message := default (message job) (p_message patch);
     totalMonths := default (totalMonths job) (p_totalMonths patch);
     processedMonths := default (processedMonths job) (p_processedMonths patch);
     transactions := default (transactions job) (p_transactions patch);
     summary := match p_summary patch with Some x => Some x | None => summary job end;
     error := match p_error patch with Some x => Some x | None => error job end;
     createdAt := createdAt job;
     updatedAt := now |}.

Definition computeSummary (transactions : list Txn) : Summary.t :=
  fold_left
    (fun acc txn =>
       {| Summary.gross := JsNumber.add (Summary.gross acc) (JsNumber.ofInteger (gross txn));
          Summary.deductions :=
            JsNumber.add (Summary.deductions acc) (JsNumber.ofInteger (deductions txn));
          Summary.net := JsNumber.add (Summary.net acc) (JsNumber.ofInteger (net txn));
          Summary.count := Summary.count acc + 1 |})
    transactions
    {| Summary.gross := S754_zero false; Summary.deductions := S754_zero false;
       Summary.net := S754_zero false; Summary.count := 0 |}.

Definition isCompleted (s : JobStatus) : bool :=
  match s with
  | Completed => true
  | _ => false
  end.

(** The object literal of [toSnapshot]. *)
Definition snapshotOf (job : JobState) : JobSnapshot.t :=
  {| JobSnapshot.id := id job;
     JobSnapshot.status := status job;
     JobSnapshot.message := message job;
     JobSnapshot.totalMonths := totalMonths job;
     JobSnapshot.processedMonths := processedMonths job;
     JobSnapshot.summary := summary job;
     JobSnapshot.error := error job;
     JobSnapshot.transactions :=
       if isCompleted (status job) then Some (transactions job) else None |}.

Definition toSnapshot (job : option JobState) : option JobSnapshot.t :=
  match job with
  | None => None
  | Some job => Some (snapshotOf job)
  end.

(** [getPayrollJob]: a lookup in the store, projected. *)
Definition getPayrollJob (store : gmap jstring JobState) (jobId : jstring)
  : option JobSnapshot.t :=
  toSnapshot (store !! jobId).

(** [now - job.updatedAt > maxAgeMs] *)
Definition stale (now maxAgeMs : Z) (job : JobState) : bool :=
  maxAgeMs <? now - updatedAt job.

(** [cleanupOldJobs]: one pass over the entries of the store, deleting as
    it goes (a [Map] may be deleted from while it is iterated). *)
Definition cleanupOldJobs (now maxAgeMs : Z) (store : gmap jstring JobState)
  : gmap jstring JobState :=
  fold_left
    (fun acc entry => if stale now maxAgeMs entry.2 then delete entry.1 acc else acc)
    (map_to_list store) store.

(** The default of [maxAgeMs]. *)
Definition defaultMaxAgeMs : Z := 1000 * 60 * 30.

(* ===================================================================== *)
(** * The world of a processing task *)
(* ===================================================================== *)

Inductive Method : Type := GET | POST.

Record Request : Type := {
  method : Method;
  url : jstring;
  headers : list (jstring * jstring);
  form : list (jstring * jstring);
}.

Record Response : Type := { statusCode : N; body : jstring }.

(** One HTTP exchange as the task sees it: how long it took and whether
    [got] resolved with a response or rejected with an error. *)
Record Exchange : Type := { took : N; outcome : Result Response }.

(** What lies outside the repository: the portal and the network, timers,
    and the library calls ([cheerio], [JSON.parse], [Buffer], [randomUUID]). *)
Record Env : Type := {
  respond : nat -> Exchange;          (* the k-th exchange of the task *)
  oversleep : nat -> N;               (* how late the k-th timer fires, in ms *)
  metaContent : jstring -> jstring -> option jstring;
    (* [cheerio.load(html)('meta[name="..."]').attr('content')] *)
  parseJson : jstring -> Result JVal; (* [JSON.parse] *)
  base64 : jstring -> jstring;        (* [Buffer.from(s, 'utf8').toString('base64')] *)
  randomUUID : nat -> jstring;        (* the k-th identifier drawn *)
}.

Record World : Type := {
  clock : Z;                             (* [Date.now()] *)
  requests : nat;                        (* exchanges so far *)
  naps : nat;                            (* timers awaited so far *)
  drawn : nat;                           (* identifiers drawn so far *)
  jobs : gmap jstring JobState;          (* the store *)
  sent : list Request;                   (* requests issued, in order *)
  journal : list (jstring * JobState);   (* records written, in order *)
}.

(** How a step of the task ends.  [OutOfFuel] is the embedding's own: the
    polling loop is given a bound on its iterations. *)
Inductive Outcome (A : Type) : Type :=
  | Returns (a : A)
  | Throws (msg : jstring)
  | OutOfFuel.
Arguments Returns {A} a.
Arguments Throws {A} msg.
Arguments OutOfFuel {A}.

Definition M (A : Type) : Type := World -> Outcome A * World.

Definition ret {A : Type} (a : A) : M A := fun w => (Returns a, w).

Definition bind {A B : Type} (m : M A) (k : A -> M B) : M B :=
  fun w =>
    match m w with
    | (Returns a, w') => k a w'
    | (Throws msg, w') => (Throws msg, w')
    | (OutOfFuel, w') => (OutOfFuel, w')
    end.

Definition throw {A : Type} (msg : jstring) : M A := fun w => (Throws msg, w).

(** [try { m } catch (error) { handler(message of error) }] *)
Definition tryCatch {A : Type} (m : M A) (handler : jstring -> M A) : M A :=
  fun w =>
    match m w with
    | (Throws msg, w') => handler msg w'
    | other => other
    end.

Definition lift {A : Type} (r : Result A) : M A :=
  match r with
  | Ok a => ret a
  | Throw msg => throw msg
  end.

Notation "'let!' x <- e ; k" := (bind e (fun x => k))
  (at level 10, x pattern, e at level 100, k at level 200).
Notation "e ;; k" := (bind e (fun _ => k))
  (at level 100, k at level 200, right associativity).

(** [for (const x of xs) body] with the loop-carried variables in [s]. *)
Fixpoint forEach {A S : Type} (xs : list A) (body : A -> S -> M S) (s : S) : M S :=
  match xs with
  | [] => ret s
  | x :: rest => let! s' <- body x s; forEach rest body s'
  end.

(** [Date.now()] *)
Definition now : M Z := fun w => (Returns (clock w), w).

(** [await sleep(ms)] *)
Definition sleep (env : Env) (ms : Z) : M unit :=
  fun w =>
    (Returns tt,
     {| clock := clock w + Z.max 0 ms + Z.of_N (oversleep env (naps w));
        requests := requests w; naps := S (naps w); drawn := drawn w;
        jobs := jobs w; sent := sent w; journal := journal w |}).

(** [await client.get(...)] and [await client.post(...)] *)
Definition exchange (env : Env) (req : Request) : M Response :=
  fun w =>
    let x := respond env (requests w) in
    (match outcome x with
     | Ok resp => Returns resp
     | Throw msg => Throws msg
     end,
     {| clock := clock w + Z.of_N (took x);
        requests := S (requests w); naps := naps w; drawn := drawn w;
        jobs := jobs w; sent := sent w ++ [req]; journal := journal w |}).

Definition writeJob (jobId : jstring) (job : JobState) : M unit :=
  fun w =>
    (Returns tt,
     {| clock := clock w; requests := requests w; naps := naps w; drawn := drawn w;
        jobs := <[jobId := job]> (jobs w); sent := sent w;
        journal := journal w ++ [(jobId, job)] |}).

Definition updateJob (jobId : jstring) (patch : Patch) : M unit :=
  fun w =>
    match jobs w !! jobId with
    | None => (Returns tt, w)
    | Some job => writeJob jobId (assignJob job patch (clock w)) w
    end.

(* ===================================================================== *)
(** * Portal protocol *)
(* ===================================================================== *)

Definition BASE : jstring := u "https://myehr.hmc.co.kr".
Definition ENDPOINT : jstring := BASE ++ u "/saly/selectPayDetailsH.do".
Definition REFERER : jstring := BASE ++ u "/saly/PayslipForYearHInitPage.do".
Definition LOGIN_PAGE : jstring := BASE ++ u "/login.do".
Definition LOGIN_PROC : jstring := BASE ++ u "/loginProcess.do".
Definition PAYS_INIT : jstring := BASE ++ u "/saly/PayslipForYearHInitPage.do".
Definition LOGIN_SUCCESS : jstring := BASE ++ u "/loginSuccess.do".
Definition NOTICE_POP : jstring := BASE ++ u "/symt/selectSystemNoticePopup.do".

(** [meta?.trim()] *)
Definition extractMetaCsrf (env : Env) (html : jstring) : option jstring :=
  trim <$> metaContent env (u "_csrf") html.

Definition extractMetaCsrfAndHeader (env : Env) (html : jstring)
  : option jstring * option jstring :=
  (trim <$> metaContent env (u "_csrf") html,
   trim <$> metaContent env (u "_csrf_header") html).

(** The truthy strings: [if (token)] holds for a present, non-empty one. *)
Definition truthy (s : option jstring) : option jstring :=
  match s with
  | Some (_ :: _) => s
  | _ => None
  end.

(** An object literal with a computed key: a key already written keeps its
    place and takes the new value. *)
Fixpoint setField (k v : jstring) (l : list (jstring * jstring)) : list (jstring * jstring) :=
  match l with
  | [] => [(k, v)]
  | (k', v') :: r => if eqb k' k then (k', v) :: r else (k', v') :: setField k v r
  end.

Definition buildHeaders (csrf headerName : jstring) : list (jstring * jstring) :=
  setField headerName csrf
    [(u "Content-Type", u "application/x-www-form-urlencoded; charset=UTF-8");
     (u "Origin", BASE);
     (u "Referer", REFERER);
     (u "Accept", u "application/json, text/javascript, */*; q=0.01");
     (u "X-Requested-With", u "XMLHttpRequest")].

Definition buildBody (pernr : jstring) (year month : Z) (csrf : jstring)
  : list (jstring * jstring) :=
  [(u "coScnCd", u "H"); (u "yearPay", u "N"); (u "pernr", pernr);
   (u "loginPernr", pernr); (u "year", ofZ year); (u "month", z2 month);
   (u "_csrf", csrf)].

Definition isHtml (text : jstring) : bool :=
  let trimmed := toLowerCase (slice 0 50 (trim text)) in
  startsWith (u "<!doctype html") trimmed || startsWith (u "<html") trimmed
  || includes (u "<html") trimmed.

(** [html.replace(/\s+/g, ' ')] *)
Fixpoint collapseSpaces (s : jstring) : jstring :=
  match s with
  | [] => []
  | c :: r =>
    if isWhite c then
      32%N :: match r with
              | c' :: _ => if isWhite c' then List.tl (collapseSpaces r) else collapseSpaces r
              | [] => []
              end
    else c :: collapseSpaces r
  end.

(** [[^<]{0,n}] followed by [after] *)
Fixpoint gapThen (n : nat) (after : jstring -> bool) (s : jstring) : bool :=
  after s ||
  match n, s with
  | S n', c :: r => negb (c =? 60)%N && gapThen n' after r
  | _, _ => false
  end.

(** A pattern that may match at any position. *)
Fixpoint anywhere (pattern : jstring -> bool) (s : jstring) : bool :=
  pattern s ||
  match s with
  | [] => false
  | _ :: r => anywhere pattern r
  end.

(** [/head[^<]{0,40}(tail1|tail2|...)/] *)
Definition spaced (head : jstring) (tails : list jstring) (s : jstring) : bool :=
  anywhere
    (fun t =>
       startsWith head t &&
       gapThen 40 (fun r => existsb (fun tail => startsWith tail r) tails)
         (skipn (List.length head) t))
    s.

(** The four expressions carry the [i] flag; their letters are Hangul, which
    has no case. *)
Definition looksLikeLoginFailure (html : jstring) : bool :=
  let normalized := collapseSpaces html in
  spaced (u "로그인") [u "실패"] normalized
  || spaced (u "아이디") [u "확인"] normalized
  || spaced (u "비밀번호") [u "다시"; u "확인"; u "일치하지"] normalized
  || includes (u "입력하신 정보가 올바르지") normalized.

Definition DEFAULT_HEADER : jstring := u "X-CSRF-TOKEN".

Definition fidoConfirmed : Patch :=
  {| p_status := Some Fetching;
     p_message := Some (u "모바일 인증이 확인되었습니다. 급여 데이터를 수집합니다.");
     p_totalMonths := None; p_processedMonths := None; p_transactions := None;
     p_summary := None; p_error := None |}.

(** [`poll: init=${a} notice=${b} success=${c}`] *)
Definition pollStatus (a b c : N) : jstring :=
  u "poll: init=" ++ ofN a ++ u " notice=" ++ ofN b ++ u " success=" ++ ofN c.

(** What one turn of the polling loop yields: the token and header name it
    returns with, or the new [lastError]. *)
Inductive Probe : Type :=
  | Approved (token headerName : jstring)
  | Waiting (lastError : jstring).

Definition getInit : Request :=
  {| method := GET; url := PAYS_INIT; headers := [(u "Referer", LOGIN_PAGE)]; form := [] |}.

Definition postNotice : Request :=
  {| method := POST; url := NOTICE_POP;
     headers := [(u "X-Requested-With", u "XMLHttpRequest"); (u "Origin", BASE);
                 (u "Referer", LOGIN_PAGE)];
     form := [(u "typeCd", u "00")] |}.

Definition getSuccess : Request :=
  {| method := GET; url := LOGIN_SUCCESS; headers := []; form := [] |}.

(** [return { token, headerName: headerName ?? 'X-CSRF-TOKEN' }] after the
    update of the job. *)
Definition approve (env : Env) (jobId token html : jstring) : M Probe :=
  updateJob jobId fidoConfirmed;;
  ret (Approved token (default DEFAULT_HEADER (extractMetaCsrfAndHeader env html).2)).

(** The body of the [while] loop of [waitForFido], up to the [sleep]. *)
Definition probeOnce (env : Env) (jobId : jstring) : M Probe :=
  tryCatch
    (let! initResp <- exchange env getInit;
     match truthy (extractMetaCsrf env (body initResp)) with
     | Some initToken => approve env jobId initToken (body initResp)
     | None =>
       let! noticeResp <- exchange env postNotice;
       match truthy (extractMetaCsrf env (body noticeResp)) with
       | Some noticeToken => approve env jobId noticeToken (body noticeResp)
       | None =>
         let! successResp <- exchange env getSuccess;
         match truthy (extractMetaCsrf env (body successResp)) with
         | Some successToken => approve env jobId successToken (body successResp)
         | None =>
           ret (Waiting (pollStatus (statusCode initResp) (statusCode noticeResp)
                           (statusCode successResp)))
         end
       end
     end)
    (fun msg => ret (Waiting msg)).

Definition timedOut (lastError : jstring) : jstring :=
  u "Mobile approval timed out. Last status: " ++ lastError.

Fixpoint pollLoop (fuel : nat) (env : Env) (params : ScrapeParams) (jobId : jstring)
    (deadline : Z) (lastError : jstring) : M (jstring * jstring) :=
  let! t <- now;
  if t <? deadline then
    match fuel with
    | O => fun w => (OutOfFuel, w)
    | S fuel' =>
      let! probe <- probeOnce env jobId;
      match probe with
      | Approved token headerName => ret (token, headerName)
      | Waiting lastError' =>
        sleep env (Z.max 500 (pollIntervalSeconds params * 1000));;
        pollLoop fuel' env params jobId deadline lastError'
      end
    end
  else throw (timedOut lastError).

(** Every turn of the loop sleeps for half a second or more, so the loop
    takes at most this many turns. *)
Definition pollBudget (params : ScrapeParams) : nat :=
  Z.to_nat (waitAuthSeconds params * 2) + 1.

Definition waitForFido (env : Env) (params : ScrapeParams) (jobId : jstring)
  : M (jstring * jstring) :=
  let! t <- now;
  let deadline := t + waitAuthSeconds params * 1000 in
  pollLoop (pollBudget params) env params jobId deadline (u "no poll yet").

Definition loginFailed : jstring :=
  u "로그인에 실패했습니다. 아이디 또는 비밀번호를 다시 확인해 주세요.".

Definition postLogin (env : Env) (csrf : jstring) (params : ScrapeParams) : Request :=
  {| method := POST; url := LOGIN_PROC;
     headers := [(u "Content-Type", u "application/x-www-form-urlencoded");
                 (u "Origin", BASE); (u "Referer", LOGIN_PAGE)];
     form := [(u "user", base64 env (username params));
              (u "pw", base64 env (password params));
              (u "otpType", u "FIDO"); (u "otpFlag", u "P"); (u "otpPasscode", []);
              (u "ABLE_LANGUAGE_SELECTION_PARAM", u "ko_KR");
              (u "accessType", u "login"); (u "osType", u "P"); (u "_csrf", csrf)] |}.

Definition postLoginProcess (env : Env) (csrf : jstring) (params : ScrapeParams) : M unit :=
  let! response <- exchange env (postLogin env csrf params);
  if looksLikeLoginFailure (body response) then throw loginFailed else ret tt.

Definition tokenRefreshed : Patch :=
  {| p_status := None;
     p_message := Some (u "최신 인증 토큰을 갱신했습니다. 데이터를 계속 수집합니다.");
     p_totalMonths := None; p_processedMonths := None; p_transactions := None;
     p_summary := None; p_error := None |}.

Definition noToken : jstring := u "Unable to extract _csrf token after approval.".

Definition fetchLatestCsrf (env : Env) (jobId : jstring) : M (jstring * jstring) :=
  let! resp <- exchange env getInit;
  let '(token, headerName) := extractMetaCsrfAndHeader env (body resp) in
  match truthy token with
  | None => throw noToken
  | Some token =>
    updateJob jobId tokenRefreshed;;
    ret (token, default DEFAULT_HEADER headerName)
  end.

(** [x?.key] *)
Definition optional (x : JVal) (key : jstring) : JVal :=
  match x with
  | JUndefined | JNull => JUndefined
  | _ => getProp x key
  end.

(** [payload.result?.payDetails?.payDetails ?? []].  Reading [result] off
    [null] is a [TypeError] (wording of V8). *)
Definition payDetails (payload : JVal) : Result JVal :=
  match payload with
  | JNull => Throw (u "Cannot read properties of null (reading 'result')")
  | JUndefined => Throw (u "Cannot read properties of undefined (reading 'result')")
  | _ =>
    let rows :=
      optional (optional (getProp payload (u "result")) (u "payDetails")) (u "payDetails") in
    Ok match rows with
       | JUndefined | JNull => JArr []
       | _ => rows
       end
  end.

(** [normalizeRows] on whatever the payload holds: [rows.filter] is a method
    of arrays only. *)
Definition normalizeDetails (year month : Z) (rows : JVal) : Result (list Txn) :=
  match rows with
  | JArr items => normalizeRows year month items
  | _ => Throw (u "rows.filter is not a function")
  end.

Definition postDetails (pernr : jstring) (year month : Z) (token headerName : jstring)
  : Request :=
  {| method := POST; url := ENDPOINT; headers := buildHeaders token headerName;
     form := buildBody pernr year month token |}.

Definition htmlReturned : jstring := u "JSON 응답을 기대했지만 HTML이 반환되었습니다.".

(** The [try] block of one period: the transactions to push onto [all]. *)
Definition fetchPeriod (env : Env) (params : ScrapeParams) (jobId : jstring)
    (csrfToken headerName : jstring) (year month : Z) : M (list Txn) :=
  let! resp <- exchange env (postDetails (pernr params) year month csrfToken headerName);
  let! payloadText <-
    (if isHtml (body resp) then
       let! refreshed <- fetchLatestCsrf env jobId;
       let! retryResp <-
         exchange env (postDetails (pernr params) year month refreshed.1 refreshed.2);
       if isHtml (body retryResp) then throw htmlReturned else ret (body retryResp)
     else ret (body resp));
  let! payload <- lift (parseJson env payloadText);
  let! rows <- lift (payDetails payload);
  lift (normalizeDetails year month rows).

(** [`(${processed}/${totalMonths}) → ${year}-${z2(month)}`] *)
Definition progressTag (processed totalMonths : nat) (year month : Z) : jstring :=
  u "(" ++ ofN (N.of_nat processed) ++ u "/" ++ ofN (N.of_nat totalMonths) ++ u ") → "
    ++ ofZ year ++ u "-" ++ z2 month.

Definition progressPatch (processed totalMonths : nat) (year month : Z) : Patch :=
  {| p_status := None;
     p_message := Some (u "데이터 처리중... " ++ progressTag processed totalMonths year month);
     p_totalMonths := Some totalMonths; p_processedMonths := Some processed;
     p_transactions := None; p_summary := None; p_error := None |}.

Definition periodError (processed totalMonths : nat) (year month : Z) (msg : jstring)
  : jstring :=
  u "오류 발생 " ++ progressTag processed totalMonths year month ++ u ": " ++ msg.

Definition periodErrorPatch (processed totalMonths : nat) (year month : Z) (msg : jstring)
  : Patch :=
  {| p_status := None;
     p_message := Some (periodError processed totalMonths year month msg);
     p_totalMonths := None; p_processedMonths := None; p_transactions := None;
     p_summary := None; p_error := None |}.

(** The body of the inner [for]; the loop carries [all] and [processed]. *)
Definition period (env : Env) (params : ScrapeParams) (jobId : jstring)
    (totalMonths : nat) (csrfToken headerName : jstring) (year month : Z)
    (carried : list Txn * nat) : M (list Txn * nat) :=
  let '(all, processed) := carried in
  let processed := (processed + 1)%nat in
  updateJob jobId (progressPatch processed totalMonths year month);;
  let! all <-
    tryCatch
      (let! txns <- fetchPeriod env params jobId csrfToken headerName year month;
       ret (all ++ txns))
      (fun msg =>
         updateJob jobId (periodErrorPatch processed totalMonths year month msg);;
         ret all);
  sleep env 200;;
  ret (all, processed).

Definition collect (env : Env) (params : ScrapeParams) (jobId : jstring)
    (totalMonths : nat) (csrfToken headerName : jstring) : M (list Txn * nat) :=
  forEach (years params)
    (fun year carried =>
       forEach (months params)
         (fun month carried =>
            period env params jobId totalMonths csrfToken headerName year month carried)
         carried)
    ([], O).

Definition statusPatch (s : JobStatus) (msg : jstring) : Patch :=
  {| p_status := Some s; p_message := Some msg; p_totalMonths := None;
     p_processedMonths := None; p_transactions := None; p_summary := None;
     p_error := None |}.

Definition completedPatch (all : list Txn) (totalMonths : nat) : Patch :=
  let summary := computeSummary all in
  {| p_status := Some Completed;
     p_message := Some (u "데이터 처리 완료! 총 " ++ ofN (N.of_nat (Summary.count summary))
                          ++ u "건을 가져왔습니다.");
     p_totalMonths := Some totalMonths; p_processedMonths := Some totalMonths;
     p_transactions := Some all; p_summary := Some summary; p_error := None |}.

Definition failedPatch (msg : jstring) : Patch :=
  {| p_status := Some Error;
     p_message := Some (u "작업이 실패했습니다: " ++ msg);
     p_totalMonths := None; p_processedMonths := None; p_transactions := None;
     p_summary := None; p_error := Some msg |}.

Definition noLoginToken : jstring := u "로그인 페이지에서 _csrf 토큰을 찾을 수 없습니다.".

Definition getLogin : Request :=
  {| method := GET; url := LOGIN_PAGE; headers := []; form := [] |}.

(** The [try] of [processJob] up to the wait for the approval. *)
Definition submitLogin (env : Env) (params : ScrapeParams) (jobId : jstring) : M unit :=
  updateJob jobId (statusPatch Pending (u "로그인 페이지에 접속합니다..."));;
  let! loginResp <- exchange env getLogin;
  match truthy (extractMetaCsrf env (body loginResp)) with
  | None => throw noLoginToken
  | Some initialCsrf =>
    updateJob jobId
      (statusPatch Auth_wait
         (u "로그인 정보를 제출했습니다. 휴대폰에서 승인을 진행해 주세요."));;
    postLoginProcess env initialCsrf params
  end.

Definition authenticate (env : Env) (params : ScrapeParams) (jobId : jstring)
  : M (jstring * jstring) :=
  submitLogin env params jobId;;
  waitForFido env params jobId.

Definition processJob (env : Env) (jobId : jstring) (params : ScrapeParams) : M unit :=
  let totalMonths := (List.length (years params) * List.length (months params))%nat in
  tryCatch
    (let! session <- authenticate env params jobId;
     let! carried <- collect env params jobId totalMonths session.1 session.2;
     updateJob jobId (completedPatch carried.1 totalMonths))
    (fun msg => updateJob jobId (failedPatch msg)).

(** The first statements of [startPayrollJob]: the identifier, the initial
    record, [store.set]. *)
Definition createJob (env : Env) (params : ScrapeParams) : M JobState :=
  fun w =>
    let jobId := randomUUID env (drawn w) in
    let totalMonths := (List.length (years params) * List.length (months params))%nat in
    let state :=
      {| id := jobId; status := Pending; message := u "작업을 준비 중입니다...";
         totalMonths := totalMonths; processedMonths := O; transactions := [];
         summary := None; error := None; createdAt := clock w; updatedAt := clock w |} in
    (Returns state,
     {| clock := clock w; requests := requests w; naps := naps w; drawn := S (drawn w);
        jobs := <[jobId := state]> (jobs w); sent := sent w;
        journal := journal w ++ [(jobId, state)] |}).

(** [startPayrollJob].  The task is started without being awaited; here it
    runs to its end before the caller goes on.  The snapshot handed back is
    taken when the task has reached its first [await], after its first
    update of the record (the store and the caller hold the same object). *)
Definition startPayrollJob (env : Env) (params : ScrapeParams) : M JobSnapshot.t :=
  let! state <- createJob env params;
  let! t <- now;
  let snapshot :=
    snapshotOf
      (assignJob state (statusPatch Pending (u "로그인 페이지에 접속합니다...")) t) in
  (* [processJob(jobId, params).catch(...)] *)
  tryCatch (processJob env (id state) params)
           (fun msg => updateJob (id state) (failedPatch msg));;
  ret snapshot.

(** The history of one job: its records in the order they were written. *)
Definition history (jobId : jstring) (w : World) : list JobState :=
  map snd (List.filter (fun e => eqb e.1 jobId) (journal w)).

(* ===================================================================== *)
(** * Status route *)
(* ===================================================================== *)

Module StatusRoute.

(** [NextResponse.json({ ok, error | job }, { status })] *)
Record Reply : Type := {
  code : N;
  ok : bool;
  failure : option jstring;
  job : option JobSnapshot.t;
}.

(** [cleanupOldJobs()] as the route calls it: with the default age, at the
    time of the call. *)
Definition sweep : M unit :=
  fun w =>
    (Returns tt,
     {| clock := clock w; requests := requests w; naps := naps w; drawn := drawn w;
        jobs := cleanupOldJobs (clock w) defaultMaxAgeMs (jobs w); sent := sent w;
        journal := journal w |}).

Definition missing : Reply :=
  {| code := 400; ok := false; failure := Some (u "jobId가 필요합니다."); job := None |}.

Definition notFound : Reply :=
  {| code := 404; ok := false; failure := Some (u "작업을 찾을 수 없습니다."); job := None |}.

Definition found (snapshot : JobSnapshot.t) : Reply :=
  {| code := 200; ok := true; failure := None; job := Some snapshot |}.

(** [GET]; [jobId] is [searchParams.get('jobId')], a string or [null]. *)
Definition GET (jobId : option jstring) : M Reply :=
  match truthy jobId with
  | None => ret missing
  | Some jobId =>
    fun w =>
      match getPayrollJob (jobs w) jobId with
      | None => (sweep;; ret notFound) w
      | Some snapshot => (sweep;; ret (found snapshot)) w
      end
  end.

End StatusRoute.

(* ===================================================================== *)
(** * Start route: the years asked for *)
(* ===================================================================== *)

Module StartRoute.








End StartRoute.

(* ===================================================================== *)
(** * Vocabulary of the statements *)
(* ===================================================================== *)

(** A text is [trimmed] when neither end is white space. *)
Definition trimmed (s : jstring) : Prop :=
  (forall c r, s = c :: r -> isWhite c = false) /\
  (forall c r, s = r ++ [c] -> isWhite c = false).

(** What [normalizeDate] makes of eight digits. *)
Definition regroup (digits : jstring) : jstring :=
  slice 0 4 digits ++ u "-" ++ slice 4 6 digits ++ u "-" ++ sliceFrom 6 digits.

(** The digits of a year, a month and a day. *)
Definition ymd (y m d : jstring) : Prop :=
  List.length y = 4%nat /\ List.length m = 2%nat /\ List.length d = 2%nat /\
  forallb isDigit (y ++ m ++ d) = true.

(** The separators of the date forms: hyphen, dot and slash. *)
Definition dateSeparator (c : N) : Prop := c = 45%N \/ c = 46%N \/ c = 47%N.

(** The three forms of a date: eight digits, or year, month and day set
    apart by hyphens, dots or slashes. *)
Definition isDateForm (s : jstring) : bool :=
  forallb isDigit s && (List.length s =? 8)%nat || isIsoDate (dashed s).

(** The text [parseIntMoney] hands to [Number]. *)
Definition stripped (text : jstring) : jstring := trim (stripCommas text).

(** A text that is no numeric literal: [Number] makes [NaN] of it. *)
Definition notNumeric (text : jstring) : Prop :=
  JsNumber.parseLiteral (stripped text) = JsNumber.LitNaN.

(** A text that is written with a minus sign. *)
Definition minusSigned (text : jstring) : bool := startsWith [45%N] (stripped text).

(** The sign a literal is written with. *)
Definition literalNeg (l : JsNumber.literal) : bool :=
  match l with
  | JsNumber.LitNaN => false
  | JsNumber.LitInfinity neg | JsNumber.LitDecimal neg _ _ => neg
  end.

(** A double that is not below zero. *)
Definition unsignedFloat (x : spec_float) : Prop :=
  match x with
  | S754_finite true _ _ => False
  | _ => True
  end.

(** What a money field [z] of a transaction has to do with the [row] it
    was made from: it is [parseIntMoney] of the first present alias; [0] when
    no alias is present, and when the text of the value is blank, no numeric
    literal, or not finite; and not negative unless the text is written with
    a minus sign. *)
Definition moneyField (keys : list jstring) (row : JVal) (z : Z) : Prop :=
  parseIntMoney (firstPresent row keys) = Ok z /\
  (present (firstPresent row keys) = false -> z = 0) /\
  (forall text, toText (firstPresent row keys) = Ok text ->
     (stripped text = [] -> z = 0) /\
     (notNumeric text -> z = 0) /\
     (JsNumber.isFinite (JsNumber.Number (stripped text)) = false -> z = 0) /\
     (minusSigned text = false -> 0 <= z)).

(** [parseIntMoney] as a function of the text of its argument. *)
Definition amount (text : jstring) : Z :=
  if eqb (stripped text) [] then 0
  else if JsNumber.isFinite (JsNumber.Number (stripped text))
       then JsNumber.round (JsNumber.Number (stripped text))
       else 0.

(** Groups of digits, as between the commas of ["1,234,567"]. *)
Definition digitGroups (groups : list jstring) : Prop :=
  groups <> [] /\ Forall (fun g => g <> [] /\ forallb isDigit g = true) groups.

(** The whole number the digits of the groups spell. *)
Definition groupedValue (groups : list jstring) : N :=
  JsNumber.digitsValue (concat groups).

(** [n] is the integer nearest to the finite double [x], the upper one of
    two that are equally near: [x - 1/2 < n <= x + 1/2], with the fractions
    cleared. *)
Definition nearestInteger (x : spec_float) (n : Z) : Prop :=
  match x with
  | S754_finite s m e =>
    let v := if s then Zneg m else Zpos m in
    if 0 <=? e then n = v * 2 ^ e
    else (2 * n - 1) * 2 ^ (- e) <= 2 * v < (2 * n + 1) * 2 ^ (- e)
  | _ => n = 0
  end.

(** No alias of [keys] is present in [record]. *)
Definition absent (record : JVal) (keys : list jstring) : Prop :=
  Forall (fun k => present (getProp record k) = false) keys.

(** How the fields of a transaction [t] depend on the aliases of the [row]
    it was made from.  Each field is computed from the first present alias of
    its list.  The date has two lists: the text of the first present date
    alias is used unless it normalizes to the empty text; then the first
    present alias of the period end is, and the first of the month when that
    too gives the empty text. *)
Definition tracedTo (y m : Z) (row : JVal) (t : Txn) : Prop :=
  (exists d1, normalizeDate (firstPresent row dateKeys) = Ok d1 /\
     (d1 <> [] -> date t = d1) /\
     (d1 = [] -> exists d2,
        normalizeDate (firstPresent row dateFallbackKeys) = Ok d2 /\
        (d2 <> [] -> date t = d2) /\
        (d2 = [] -> date t = firstOfMonth y m))) /\
  (exists c, textOr (firstPresent row categoryKeys) (u "UNKNOWN") = Ok c /\
     category t = orElse c (u "UNKNOWN")) /\
  textOr (firstPresent row groupKeys) [] = Ok (group t) /\
  parseIntMoney (firstPresent row grossKeys) = Ok (gross t) /\
  parseIntMoney (firstPresent row deductionsKeys) = Ok (deductions t) /\
  parseIntMoney (firstPresent row netKeys) = Ok (net t) /\
  (exists c, textOr (firstPresent row currencyKeys) (u "KRW") = Ok c /\
     currency t = orElse c (u "KRW")) /\
  textOr (firstPresent row seqnrKeys) [] = Ok (seqnr t) /\
  normalizeDate (firstPresent row fpbegKeys) = Ok (fpbeg t) /\
  normalizeDate (firstPresent row fpendKeys) = Ok (fpend t).

(** The defaults of the fields whose aliases are all absent. *)
Definition defaulted (y m : Z) (row : JVal) (t : Txn) : Prop :=
  (absent row categoryKeys -> category t = u "UNKNOWN") /\
  (absent row groupKeys -> group t = []) /\
  (absent row seqnrKeys -> seqnr t = []) /\
  (absent row grossKeys -> gross t = 0) /\
  (absent row deductionsKeys -> deductions t = 0) /\
  (absent row netKeys -> net t = 0) /\
  (absent row currencyKeys -> currency t = u "KRW") /\
  (absent row dateKeys -> absent row dateFallbackKeys -> date t = firstOfMonth y m).

(** A record as [startPayrollJob] stores it at time [t], for examples. *)
Definition freshJob (jobId : jstring) (total : nat) (t : Z) : JobState :=
  {| id := jobId; status := Pending; message := u "작업을 준비 중입니다...";
     totalMonths := total; processedMonths := O; transactions := [];
     summary := None; error := None; createdAt := t; updatedAt := t |}.

(** A store of two jobs, [a] written at time 0 and [b] two minutes later. *)
Definition twoJobs : gmap jstring JobState :=
  <[u "a" := freshJob (u "a") 12 0]> (<[u "b" := freshJob (u "b") 12 (2 * 60 * 1000)]> ∅).

(** ** Running a task *)

(** From a world in [P], the step [m] ends with an outcome and a world in
    [Q]. *)
Definition triple {A : Type} (P : World -> Prop) (m : M A)
    (Q : Outcome A -> World -> Prop) : Prop :=
  forall w, P w -> Q (m w).1 (m w).2.

(** [m] keeps [I] and stays within its fuel. *)
Definition keeps {A : Type} (I : World -> Prop) (m : M A) : Prop :=
  triple I m (fun o w' => I w' /\ o <> OutOfFuel).

(** [m] keeps [I] and returns. *)
Definition lands {A : Type} (I : World -> Prop) (m : M A) : Prop :=
  triple I m (fun o w' => I w' /\ exists a, o = Returns a).

(** [I] looks at the store and at the journal only. *)
Definition onRegistry (I : World -> Prop) : Prop :=
  forall w w', jobs w' = jobs w -> journal w' = journal w -> I w -> I w'.

(** A patch that leaves the counts and the transactions alone and does not
    complete the job. *)
Definition quiet (patch : Patch) : Prop :=
  p_totalMonths patch = None /\ p_processedMonths patch = None /\
  p_transactions patch = None /\ p_status patch <> Some Completed.

(** A record of a job of [T] periods that is not completed: the processed
    count is within the total, and no transactions are held. *)
Definition unfinished (T : nat) (job : JobState) : Prop :=
  (processedMonths job <= totalMonths job)%nat /\ totalMonths job = T /\
  isCompleted (status job) = false /\ transactions job = [].

(** The processed count never decreases along a list of records. *)
Definition ascending (records : list JobState) : Prop :=
  StronglySorted (fun a b => (processedMonths a <= processedMonths b)%nat) records.

(** The task of job [jobId] is under way: since the journal stood at [j0]
    the records written are those of this job, [first] and then others, none
    of them completed, with ascending counts; the last of them is the record
    in the store, which counts [n] processed periods. *)
Definition live (jobId : jstring) (T : nat) (j0 : list (jstring * JobState))
    (first : JobState) (n : nat) (w : World) : Prop :=
  exists older job,
    jobs w !! jobId = Some job /\
    journal w = j0 ++ map (pair jobId) (older ++ [job]) /\
    hd_error (older ++ [job]) = Some first /\
    ascending (older ++ [job]) /\
    Forall (unfinished T) (older ++ [job]) /\
    processedMonths job = n.

(** The task of job [jobId] has ended: as [live], but the last record is
    the completed one, or the failed one. *)
Definition ended (jobId : jstring) (T : nat) (j0 : list (jstring * JobState))
    (first : JobState) (w : World) : Prop :=
  exists older job,
    jobs w !! jobId = Some job /\
    journal w = j0 ++ map (pair jobId) (older ++ [job]) /\
    hd_error (older ++ [job]) = Some first /\
    ascending (older ++ [job]) /\
    Forall (unfinished T) older /\
    (processedMonths job <= totalMonths job)%nat /\ totalMonths job = T /\
    (status job = Completed \/ status job = Error /\ transactions job = []).

(** What the text [e] has to do with the last turn of the polling loop,
    when [k] exchanges have taken place: the last exchange failed with the
    error [e], or the last three are the three probes of one turn and [e]
    shows their status codes. *)
Definition lastProbe (env : Env) (e : jstring) (k : nat) : Prop :=
  (exists i, k = S i /\ outcome (respond env i) = Throw e) \/
  (exists i r1 r2 r3,
     k = S (S (S i)) /\
     outcome (respond env i) = Ok r1 /\
     outcome (respond env (S i)) = Ok r2 /\
     outcome (respond env (S (S i))) = Ok r3 /\
     e = pollStatus (statusCode r1) (statusCode r2) (statusCode r3)).

(** The jobs other than [jobId] are as they are in [store]. *)
Definition othersAsIn (jobId : jstring) (store : gmap jstring JobState) (w : World) : Prop :=
  forall other, other <> jobId -> jobs w !! other = store !! other.

(** The registry is as it was: the store is [store], the journal [j]. *)
Definition registryIs (store : gmap jstring JobState) (j : list (jstring * JobState))
    (w : World) : Prop :=
  jobs w = store /\ journal w = j.

(** The job [jobId] is in the store. *)
Definition known (jobId : jstring) (w : World) : Prop := is_Some (jobs w !! jobId).

(** What a period makes of the body of a response that is not HTML:
    [JSON.parse], the path to the rows, [normalizeRows]. *)
Definition decode (env : Env) (year month : Z) (text : jstring) : Result (list Txn) :=
  try! payload <- parseJson env text;
  try! rows <- payDetails payload;
  normalizeDetails year month rows.

(** Environments for examples: the exchanges follow [script] and fail once
    it is used up; timers fire on time; a page that starts with [T] carries
    the token [tok], any other page none; every body parses to a payload of
    one row whose gross is ["1,000"]. *)
Definition scripted (script : list Exchange) : Env :=
  {| respond := fun k => nth k script {| took := 0; outcome := Throw (u "ECONNRESET") |};
     oversleep := fun _ => 0%N;
     metaContent := fun name html =>
       if eqb name (u "_csrf") && startsWith (u "T") html then Some (u " tok ") else None;
     parseJson := fun _ =>
       Ok (JObj [(u "result",
                  JObj [(u "payDetails",
                         JObj [(u "payDetails",
                                JArr [JObj [(u "bet01Txt", JStr (u "1,000"))]])])])]);
     base64 := fun s => s;
     randomUUID := fun k => u "job-" ++ ofN (N.of_nat k) |}.

(** A response with status 200 that took 100 ms. *)
Definition replied (text : string) : Exchange :=
  {| took := 100; outcome := Ok {| statusCode := 200; body := u text |} |}.

(** A world at time [t] with the given store and nothing done yet. *)
Definition worldAt (t : Z) (store : gmap jstring JobState) : World :=
  {| clock := t; requests := 0; naps := 0; drawn := 0; jobs := store; sent := [];
     journal := [] |}.

(** A request for January and February 2024, with one second to approve. *)
Definition twoMonths : ScrapeParams :=
  {| username := u "user"; password := u "secret"; pernr := u "1234567";
     years := [2024]; months := [1; 2]; waitAuthSeconds := 1; pollIntervalSeconds := 0 |}.


(** The message of job [jobId] as a poll would see it. *)
Definition messageOf (jobId : jstring) (w : World) : option jstring :=
  message <$> jobs w !! jobId.


(** The text a poll reads while period [processed] of [totalMonths] is
    being fetched. *)
Definition progressMessage (processed totalMonths : nat) (year month : Z) : jstring :=
  u "데이터 처리중... " ++ progressTag processed totalMonths year month.

(** How a period whose first answer was an HTML page comes to nothing, the
    exchange after that answer being the [k]-th: the page for a new token
    does not arrive, or carries no token, or the second attempt fails, or is
    answered by HTML again, or by something that does not decode. *)
Definition recoveryFails (env : Env) (year month : Z) (k : nat) (e : jstring) : Prop :=
  outcome (respond env k) = Throw e \/
  exists page,
    outcome (respond env k) = Ok page /\
    (truthy (extractMetaCsrf env (body page)) = None /\ e = noToken \/
     is_Some (truthy (extractMetaCsrf env (body page))) /\
     (outcome (respond env (S k)) = Throw e \/
      exists retry,
        outcome (respond env (S k)) = Ok retry /\
        (isHtml (body retry) = true /\ e = htmlReturned \/
         isHtml (body retry) = false /\ decode env year month (body retry) = Throw e))).

(** The periods of a request in the order of the two loops: year by year,
    and within a year month by month. *)
Definition periodsOf (params : ScrapeParams) : list (Z * Z) :=
  flat_map (fun year => map (pair year) (months params)) (years params).

(** What the [k]-th exchange brings in when it is the one request of the
    period [year]-[month]: the decoded rows of the answer, and nothing when
    the exchange fails or the answer does not decode. *)
Definition harvest (env : Env) (k : nat) (year month : Z) : list Txn :=
  match outcome (respond env k) with
  | Ok resp =>
    match decode env year month (body resp) with
    | Ok txns => txns
    | Throw _ => []
    end
  | Throw _ => []
  end.

(** The harvests of successive exchanges from the [k]-th on, one for each
    period. *)
Fixpoint harvests (env : Env) (k : nat) (periods : list (Z * Z)) : list Txn :=
  match periods with
  | [] => []
  | (year, month) :: rest => harvest env k year month ++ harvests env (S k) rest
  end.

(** From the [k]-th exchange on no answer is an HTML page. *)
Definition sessionHolds (env : Env) (k : nat) : Prop :=
  forall i resp,
    (k <= i)%nat -> outcome (respond env i) = Ok resp -> isHtml (body resp) = false.

(** A world that differs from [w] in its clock at most from the store on:
    what a later poll finds when nothing has been written in between. *)
Definition sameStore (w w' : World) : Prop := jobs w' = jobs w.

(** The store at one minute past the half hour: job [a] of [twoJobs] is
    stale, job [b] is not. *)
Definition halfHourLater : World := worldAt (31 * 60 * 1000) twoJobs.

(** The double [x] is the whole number [z]: a zero when [z] is, and
    otherwise [m * 2^e] with the sign of [z] (written without fractions;
    the mantissa of a double below [2^53] in absolute value has an exponent
    that is not positive). *)
Definition valueIs (x : spec_float) (z : Z) : Prop :=
  match x with
  | S754_zero _ => z = 0
  | S754_finite s m e => e <= 0 /\ (if s then Zneg m else Zpos m) = z * 2 ^ (- e)
  | _ => False
  end.

(** The sum of one amount over a list of transactions, and the sum of its
    absolute values. *)
Definition total (f : Txn -> Z) (txns : list Txn) : Z :=
  fold_right (fun txn s => f txn + s) 0 txns.

Definition magnitude (f : Txn -> Z) (txns : list Txn) : Z :=
  total (fun txn => Z.abs (f txn)) txns.

(** A transaction of the given amounts, for examples. *)
Definition paid (g d n : Z) : Txn :=
  {| year := 2024; month := 1; date := u "2024-01-25"; category := u "PAY";
     group := []; gross := g; deductions := d; net := n; currency := u "KRW";
     seqnr := []; fpbeg := []; fpend := [] |}.

(** How the login comes to nothing, its first exchange being the [k]-th:
    the login page does not arrive, or carries no token, or the submission
    fails, or its answer reads as a refusal. *)
Definition loginRefused (env : Env) (k : nat) (e : jstring) : Prop :=
  outcome (respond env k) = Throw e \/
  exists page,
    outcome (respond env k) = Ok page /\
    (truthy (extractMetaCsrf env (body page)) = None /\ e = noLoginToken \/
     is_Some (truthy (extractMetaCsrf env (body page))) /\
     (outcome (respond env (S k)) = Throw e \/
      exists answer,
        outcome (respond env (S k)) = Ok answer /\
        looksLikeLoginFailure (body answer) = true /\ e = loginFailed)).

(** The record of a failed task: what [failedPatch] makes of [job]. *)
Definition failed (job : JobState) (e : jstring) (final : JobState) : Prop :=
  status final = Error /\
  message final = u "작업이 실패했습니다: " ++ e /\
  error final = Some e /\
  transactions final = transactions job /\
  summary final = summary job.

(** The text of a completed job that holds [count] transactions. *)
Definition completedMessage (count : nat) : jstring :=
  u "데이터 처리 완료! 총 " ++ ofN (N.of_nat count) ++ u "건을 가져왔습니다.".

(** A value that [String] converts: no object, at any depth of arrays,
    hides the inherited [toString] by an entry of its own. *)
Fixpoint plain (val : JVal) : bool :=
  match val with
  | JObj fields => negb (hasOwn (u "toString") fields)
  | JArr items => forallb plain items
  | _ => true
  end.

(** A row every property of which is plain. *)
Definition plainRow (row : JVal) : bool :=
  match row with
  | JObj fields => forallb (fun kv => plain kv.2) fields
  | JArr items => forallb plain items
  | _ => true
  end.

(** What [isHtml] looks at: the first fifty units of the trimmed text. *)
Definition opening (text : jstring) : jstring := slice 0 50 (trim text).

(** ** The years asked for *)







(* ===================================================================== *)
(** * Properties of the text helpers *)
(* ===================================================================== *)

Section Text.

Lemma eqb_eq (a b : jstring) : eqb a b = true <-> a = b.
Proof. unfold eqb. apply bool_decide_eq_true. Qed.

Lemma eqb_neq (a b : jstring) : eqb a b = false <-> a <> b.
Proof. unfold eqb. apply bool_decide_eq_false. Qed.

Lemma eqb_refl (a : jstring) : eqb a a = true.
Proof. by apply eqb_eq. Qed.

Lemma trimStart_head (s : jstring) c r : trimStart s = c :: r -> isWhite c = false.
Proof.
  induction s as [|a s IH]; simpl; [discriminate|].
  destruct (isWhite a) eqn:E; [exact IH|].
  intros [= <- <-]. exact E.
Qed.

Lemma trimStart_fixed (s : jstring) :
  (forall c r, s = c :: r -> isWhite c = false) -> trimStart s = s.
Proof.
  destruct s as [|a s]; simpl; [done|].
  intros H. by rewrite (H a s eq_refl).
Qed.

Lemma trimStart_suffix (s : jstring) : exists p, s = p ++ trimStart s.
Proof.
  induction s as [|a s [p Hp]]; simpl.
  - by exists [].
  - destruct (isWhite a).
    + exists (a :: p). simpl. by f_equal.
    + by exists [].
Qed.

Lemma trimEnd_last (s : jstring) c r : trimEnd s = r ++ [c] -> isWhite c = false.
Proof.
  unfold trimEnd. intros H.
  apply (f_equal (@rev N)) in H. rewrite rev_involutive, rev_app_distr in H.
  simpl in H. by apply trimStart_head in H.
Qed.

Lemma trimEnd_fixed (s : jstring) :
  (forall c r, s = r ++ [c] -> isWhite c = false) -> trimEnd s = s.
Proof.
  intros H. unfold trimEnd. rewrite trimStart_fixed; [apply rev_involutive|].
  intros c r E. apply (H c (rev r)).
  rewrite <- (rev_involutive s), E. simpl. done.
Qed.

Lemma trimEnd_prefix (s : jstring) : exists q, s = trimEnd s ++ q.
Proof.
  unfold trimEnd. destruct (trimStart_suffix (rev s)) as [p Hp].
  exists (rev p). rewrite <- rev_app_distr, <- Hp. symmetry. apply rev_involutive.
Qed.

Lemma trimEnd_head (s : jstring) c r :
  s = c :: r -> isWhite c = false -> exists r', trimEnd s = c :: r'.
Proof.
  intros -> Hc. destruct (trimEnd_prefix (c :: r)) as [q Hq].
  destruct (trimEnd (c :: r)) as [|a t] eqn:E.
  - (* everything was dropped: then the whole text, read backwards, is white *)
    exfalso. unfold trimEnd in E.
    apply (f_equal (@rev N)) in E. rewrite rev_involutive in E. simpl in E.
    assert (forall l : jstring, trimStart (l ++ [c]) <> []) as X.
    { induction l as [|x l IH]; simpl.
      - by rewrite Hc.
      - destruct (isWhite x); [exact IH | done]. }
    exact (X _ E).
  - simpl in Hq. injection Hq as <- _. by exists t.
Qed.

Lemma trim_trimmed (s : jstring) : trimmed (trim s).
Proof.
  unfold trim. split.
  - intros c r E. destruct (trimStart s) as [|a t] eqn:Es.
    + discriminate E.
    + pose proof (trimStart_head _ _ _ Es) as Ha.
      destruct (trimEnd_head (a :: t) a t eq_refl Ha) as [r' Hr'].
      rewrite Hr' in E. injection E as <- _. exact Ha.
  - intros c r E. by apply trimEnd_last in E.
Qed.

Lemma trim_fixed (s : jstring) : trimmed s -> trim s = s.
Proof.
  intros [H1 H2]. unfold trim. rewrite (trimStart_fixed s H1). by apply trimEnd_fixed.
Qed.

Lemma trim_idem (s : jstring) : trim (trim s) = trim s.
Proof. apply trim_fixed, trim_trimmed. Qed.

Lemma digit_not_white (c : N) : isDigit c = true -> isWhite c = false.
Proof.
  unfold isDigit, isWhite. intros H.
  apply andb_true_iff in H as [H1 H2].
  apply N.leb_le in H1. apply N.leb_le in H2.
  repeat match goal with
         | |- context [(?a <=? ?b)%N] => destruct (N.leb_spec a b); try lia
         | |- context [(?a =? ?b)%N] => destruct (N.eqb_spec a b); try lia
         end; reflexivity.
Qed.

(** A text that begins and ends with a digit is its own trim. *)
Lemma trim_digit_ends (s : jstring) c r c' r' :
  s = c :: r -> s = r' ++ [c'] -> isDigit c = true -> isDigit c' = true -> trim s = s.
Proof.
  intros E1 E2 H1 H2. apply trim_fixed. split.
  - intros a t E. rewrite E1 in E. injection E as <- _. by apply digit_not_white.
  - intros a t E. rewrite E2 in E. apply app_inj_tail in E as [_ <-].
    by apply digit_not_white.
Qed.

Lemma onlyDigits_app (a b : jstring) : onlyDigits (a ++ b) = onlyDigits a ++ onlyDigits b.
Proof. unfold onlyDigits. apply List.filter_app. Qed.

Lemma onlyDigits_all (s : jstring) : forallb isDigit s = true -> onlyDigits s = s.
Proof.
  induction s as [|c s IH]; simpl; [done|].
  intros H. apply andb_true_iff in H as [-> H]. by rewrite IH.
Qed.

Lemma onlyDigits_dashed (s : jstring) : onlyDigits (dashed s) = onlyDigits s.
Proof.
  induction s as [|c s IH]; simpl; [done|].
  rewrite IH.
  destruct (N.eqb_spec c 46) as [->|]; [done|].
  destruct (N.eqb_spec c 47) as [->|]; done.
Qed.

Lemma isIsoDate_digits (s : jstring) :
  isIsoDate s = true -> List.length (onlyDigits s) = 8%nat.
Proof.
  unfold isIsoDate.
  do 10 (destruct s as [|? s]; [discriminate|]).
  destruct s; [|discriminate].
  intros H.
  apply andb_true_iff in H as [H H2]. apply andb_true_iff in H as [H H1].
  apply N.eqb_eq in H1, H2. subst.
  cbn [forallb] in H.
  repeat (apply andb_true_iff in H as [? H]).
  unfold onlyDigits. cbn [List.filter].
  repeat match goal with
         | E : isDigit ?x = true |- _ => rewrite E; clear E
         end.
  change (isDigit 45) with false. reflexivity.
Qed.

End Text.

(* ===================================================================== *)
(** * Dates *)
(* ===================================================================== *)

Section Dates.

(** [normalizeDate] on a text, case by case.  The last test of the source,
    against [/^[0-9]{4}-[0-9]{2}-[0-9]{2}$/], is only reached by a text that
    does not hold eight digits, and never succeeds there. *)
Lemma normalizeDate_text (s : jstring) :
  normalizeDate (JStr s) =
  Ok (if (List.length (onlyDigits (trim s)) =? 8)%nat
      then regroup (onlyDigits (trim s))
      else trim s).
Proof.
  unfold normalizeDate, toText, rbind.
  destruct (eqb (trim s) []) eqn:E.
  - apply eqb_eq in E. rewrite E. reflexivity.
  - destruct (List.length (onlyDigits (trim s)) =? 8)%nat eqn:L; [reflexivity|].
    destruct (isIsoDate (dashed (trim s))) eqn:I; [|reflexivity].
    apply isIsoDate_digits in I. rewrite onlyDigits_dashed in I.
    rewrite I in L. discriminate L.
Qed.

Lemma ymd_shape y m d :
  ymd y m d ->
  exists y1 y2 y3 y4 m1 m2 d1 d2,
    y = [y1; y2; y3; y4] /\ m = [m1; m2] /\ d = [d1; d2] /\
    forallb isDigit [y1; y2; y3; y4; m1; m2; d1; d2] = true.
Proof.
  intros (Hy & Hm & Hd & H).
  do 4 (destruct y as [|? y]; [discriminate Hy|]). destruct y; [|discriminate Hy].
  do 2 (destruct m as [|? m]; [discriminate Hm|]). destruct m; [|discriminate Hm].
  do 2 (destruct d as [|? d]; [discriminate Hd|]). destruct d; [|discriminate Hd].
  repeat eexists. exact H.
Qed.

Lemma separator_not_digit c : dateSeparator c -> isDigit c = false.
Proof. intros [-> | [-> | ->]]; reflexivity. Qed.

Lemma normalizeDate_compact y m d :
  ymd y m d ->
  normalizeDate (JStr (y ++ m ++ d)) = Ok (y ++ u "-" ++ m ++ u "-" ++ d).
Proof.
  intros H. destruct (ymd_shape _ _ _ H) as
    (y1 & y2 & y3 & y4 & m1 & m2 & d1 & d2 & Ey & Em & Ed & D); subst y m d.
  rewrite normalizeDate_text.
  pose proof D as D'. cbn [forallb] in D'.
  repeat (apply andb_true_iff in D' as [? D']).
  rewrite (trim_digit_ends _ y1 [y2; y3; y4; m1; m2; d1; d2] d2
             [y1; y2; y3; y4; m1; m2; d1]) by done.
  rewrite onlyDigits_all by exact D.
  reflexivity.
Qed.

Lemma normalizeDate_separated y m d a b :
  ymd y m d -> dateSeparator a -> dateSeparator b ->
  normalizeDate (JStr (y ++ a :: m ++ b :: d)) = Ok (y ++ u "-" ++ m ++ u "-" ++ d).
Proof.
  intros H Ha Hb. destruct (ymd_shape _ _ _ H) as
    (y1 & y2 & y3 & y4 & m1 & m2 & d1 & d2 & Ey & Em & Ed & D); subst y m d.
  rewrite normalizeDate_text.
  cbn [forallb] in D.
  repeat (apply andb_true_iff in D as [? D]).
  rewrite (trim_digit_ends _ y1 [y2; y3; y4; a; m1; m2; b; d1; d2] d2
             [y1; y2; y3; y4; a; m1; m2; b; d1]) by done.
  unfold onlyDigits. cbn [app List.filter].
  rewrite (separator_not_digit a Ha), (separator_not_digit b Hb).
  repeat match goal with
         | E : isDigit ?x = true |- _ => rewrite E; clear E
         end.
  reflexivity.
Qed.

End Dates.

(** C7, as stated, fails on input outside the three date forms: a text
    that holds exactly eight digits is regrouped whatever stands between
    them, so ["03/15/2024"] does not pass through unchanged but becomes
    ["0315-20-24"]. *)
Lemma normalizeDate_regroups_foreign_input :
  isDateForm (u "03/15/2024") = false /\
  normalizeDate (JStr (u "03/15/2024")) = Ok (u "0315-20-24") /\
  normalizeDate (JStr (u "03/15/2024")) <> Ok (u "03/15/2024").
Proof. split; [|split]; [reflexivity | reflexivity | discriminate]. Qed.

(** C7 (amended): an eight-digit text YYYYMMDD becomes YYYY-MM-DD; a text
    YYYY-MM-DD is returned as it is, and with dots or slashes in place of the
    hyphens it becomes YYYY-MM-DD; any text at all is first stripped of the
    white space around it, then regrouped as dddd-dd-dd if it holds exactly
    eight digits (whatever else stands between them) and returned unchanged
    otherwise; [null] and [undefined] give the empty text. *)
Theorem normalizeDate_forms :
  (forall y m d, ymd y m d ->
     normalizeDate (JStr (y ++ m ++ d)) = Ok (y ++ u "-" ++ m ++ u "-" ++ d)) /\
  (forall y m d, ymd y m d ->
     normalizeDate (JStr (y ++ u "-" ++ m ++ u "-" ++ d))
     = Ok (y ++ u "-" ++ m ++ u "-" ++ d)) /\
  (forall y m d a b, ymd y m d -> dateSeparator a -> dateSeparator b ->
     normalizeDate (JStr (y ++ a :: m ++ b :: d)) = Ok (y ++ u "-" ++ m ++ u "-" ++ d)) /\
  (forall s,
     normalizeDate (JStr s) =
     Ok (if (List.length (onlyDigits (trim s)) =? 8)%nat
         then regroup (onlyDigits (trim s))
         else trim s)) /\
  normalizeDate JNull = Ok [] /\
  normalizeDate JUndefined = Ok [].
Proof.
  split; [exact normalizeDate_compact|].
  split.
  { intros y m d H. apply (normalizeDate_separated y m d 45%N 45%N H); by left. }
  split; [exact normalizeDate_separated|].
  split; [exact normalizeDate_text|].
  split; reflexivity.
Qed.

Lemma normalizeDate_forms_witness :
  ymd (u "2024") (u "03") (u "15") /\
  normalizeDate (JStr (u "20240315")) = Ok (u "2024-03-15") /\
  normalizeDate (JStr (u "2024-03-15")) = Ok (u "2024-03-15") /\
  normalizeDate (JStr (u "2024.03.15")) = Ok (u "2024-03-15") /\
  normalizeDate (JStr (u "2024/03/15")) = Ok (u "2024-03-15").
Proof.
  assert (ymd (u "2024") (u "03") (u "15")) as H by (repeat split; reflexivity).
  destruct normalizeDate_forms as (F1 & F2 & F3 & _).
  split; [exact H|].
  split; [exact (F1 _ _ _ H)|].
  split; [exact (F2 _ _ _ H)|].
  split.
  - apply (F3 _ _ _ 46%N 46%N H); right; by left.
  - apply (F3 _ _ _ 47%N 47%N H); right; by right.
Defined.

(* ===================================================================== *)
(** * Numbers *)
(* ===================================================================== *)

Section Numbers.

Import JsNumber.

Lemma digits2_lower (p : positive) : 2 ^ (Zpos (digits2_pos p) - 1) <= Zpos p.
Proof.
  induction p as [p IH|p IH|]; simpl digits2_pos.
  - rewrite Pos2Z.inj_succ.
    replace (Z.succ (Zpos (digits2_pos p)) - 1) with (Z.succ (Zpos (digits2_pos p) - 1)) by lia.
    rewrite Z.pow_succ_r by lia. lia.
  - rewrite Pos2Z.inj_succ.
    replace (Z.succ (Zpos (digits2_pos p)) - 1) with (Z.succ (Zpos (digits2_pos p) - 1)) by lia.
    rewrite Z.pow_succ_r by lia. lia.
  - simpl. lia.
Qed.

Lemma digits2_small (p : positive) : Zpos p < 2 ^ 53 -> Zpos (digits2_pos p) <= 53.
Proof.
  intros H. pose proof (digits2_lower p) as L.
  destruct (Z.le_gt_cases (Zpos (digits2_pos p)) 53) as [|G]; [done|].
  assert (2 ^ 53 <= 2 ^ (Zpos (digits2_pos p) - 1)) by (apply Z.pow_le_mono_r; lia).
  lia.
Qed.

Lemma iter_xO_value (m k : positive) : Zpos (Pos.iter xO m k) = Zpos m * 2 ^ Zpos k.
Proof.
  induction k as [|k IH] using Pos.peano_ind.
  - simpl. lia.
  - rewrite Pos.iter_succ, Pos2Z.inj_succ, Z.pow_succ_r by lia.
    rewrite Pos2Z.inj_xO, IH. lia.
Qed.

Lemma iter_xO_digits (m k : positive) :
  digits2_pos (Pos.iter xO m k) = (digits2_pos m + k)%positive.
Proof.
  induction k as [|k IH] using Pos.peano_ind.
  - simpl. lia.
  - rewrite Pos.iter_succ. simpl. rewrite IH. lia.
Qed.

(** A mantissa of 53 bits with an exponent in range is kept as it is. *)
Lemma binary_round_aux_exact (s : bool) (mz : positive) (ez : Z) :
  digits2_pos mz = 53%positive -> -1074 <= ez <= 971 ->
  binary_round_aux prec emax s (Zpos mz) ez loc_Exact = S754_finite s mz ez.
Proof.
  intros D R.
  assert (forall m0, m0 = Zpos mz ->
          shr_fexp prec emax m0 ez loc_Exact
          = ({| shr_m := Zpos mz; shr_r := false; shr_s := false |}, ez)) as X.
  { intros m0 ->. unfold shr_fexp, Zdigits2. rewrite D.
    replace (fexp prec emax (53 + ez) - ez) with 0; [reflexivity|].
    unfold fexp, SpecFloat.emin, prec, emax. lia. }
  unfold binary_round_aux. rewrite (X _ eq_refl). cbn [shr_m loc_of_shr_record round_nearest_even].
  rewrite (X _ eq_refl). cbn [shr_m].
  replace (ez <=? emax - prec) with true; [reflexivity|].
  symmetry. apply Z.leb_le. unfold emax, prec. lia.
Qed.

(** A whole number below [2^53] is a double. *)
Lemma binary_round_whole (s : bool) (m : positive) :
  Zpos m < 2 ^ 53 ->
  exists mz ez,
    binary_round prec emax s m 0 = S754_finite s mz ez /\
    -53 < ez <= 0 /\ Zpos mz = Zpos m * 2 ^ (- ez).
Proof.
  intros H. pose proof (digits2_small m H) as D.
  unfold binary_round.
  replace (fexp prec emax (Zpos (digits2_pos m) + 0)) with (Zpos (digits2_pos m) - 53)
    by (unfold fexp, SpecFloat.emin, prec, emax; lia).
  unfold shl_align.
  destruct (Zpos (digits2_pos m) - 53 - 0) as [|k|k] eqn:E; try lia.
  - exists m, 0. split; [|split; [lia | simpl; lia]].
    apply binary_round_aux_exact; [|lia].
    apply Pos2Z.inj. lia.
  - exists (Pos.iter xO m k), (Zpos (digits2_pos m) - 53).
    split; [|split; [lia|]].
    + apply binary_round_aux_exact; [|lia].
      rewrite iter_xO_digits. lia.
    + rewrite iter_xO_value. f_equal. f_equal. lia.
Qed.

Lemma round_whole (s : bool) (mz : positive) (ez m : Z) :
  -53 < ez <= 0 -> Zpos mz = m * 2 ^ (- ez) ->
  round (S754_finite s mz ez) = if s then - m else m.
Proof.
  intros R E. unfold round.
  destruct (Z.leb_spec 0 ez) as [L|L].
  - assert (ez = 0) as -> by lia. simpl in E. destruct s; lia.
  - assert (0 < 2 ^ (- ez)) as P by (apply Z.pow_pos_nonneg; lia).
    replace (2 ^ (1 - ez)) with (2 * 2 ^ (- ez))
      by (replace (1 - ez) with (Z.succ (- ez)) by lia; rewrite Z.pow_succ_r; lia).
    destruct s.
    + replace (2 * Z.neg mz + 2 ^ (- ez)) with (2 ^ (- ez) + (- m) * (2 * 2 ^ (- ez))) by lia.
      rewrite Z.div_add by lia. rewrite Z.div_small by lia. lia.
    + replace (2 * Z.pos mz + 2 ^ (- ez)) with (2 ^ (- ez) + m * (2 * 2 ^ (- ez))) by lia.
      rewrite Z.div_add by lia. rewrite Z.div_small by lia. lia.
Qed.

(** [Math.round(Number(text))] of a whole number up to [2^53]. *)
Lemma roundDecimal_whole (neg : bool) (n : N) :
  (n <= 2 ^ 53)%N ->
  isFinite (roundDecimal neg n 0) = true /\
  round (roundDecimal neg n 0) = if neg then - Z.of_N n else Z.of_N n.
Proof.
  intros H. destruct n as [|m].
  - simpl. by destruct neg.
  - unfold roundDecimal. cbn [Z.leb Z.compare Z.pow Z.pow_pos Pos.iter Z.to_pos].
    rewrite Pos.mul_1_r.
    assert (Zpos m < 2 ^ 53 \/ m = (2 ^ 53)%positive) as [L| ->] by lia.
    + destruct (binary_round_whole neg m L) as (mz & ez & -> & R & E).
      split; [reflexivity|]. by apply round_whole.
    + by destruct neg; vm_compute.
Qed.

End Numbers.

Section Literals.

Import JsNumber.

Lemma all_digits_trimmed (s : jstring) : forallb isDigit s = true -> trimmed s.
Proof.
  intros H. split.
  - intros c r ->. simpl in H. apply andb_true_iff in H as [H _].
    by apply digit_not_white.
  - intros c r ->. rewrite forallb_app in H. apply andb_true_iff in H as [_ H].
    simpl in H. apply andb_true_iff in H as [H _]. by apply digit_not_white.
Qed.

Lemma spanDigits_all (ds : jstring) : forallb isDigit ds = true -> spanDigits ds = (ds, []).
Proof.
  induction ds as [|c ds IH]; simpl; [done|].
  intros H. apply andb_true_iff in H as [-> H]. by rewrite IH.
Qed.

Lemma digit_range (c : N) : isDigit c = true -> (48 <= c <= 57)%N.
Proof.
  unfold isDigit. intros H. apply andb_true_iff in H as [H1 H2].
  apply N.leb_le in H1. apply N.leb_le in H2. lia.
Qed.

Lemma digit_is_not (c k : N) : isDigit c = true -> (k < 48 \/ 57 < k)%N -> (c =? k)%N = false.
Proof. intros H K. apply digit_range in H. apply N.eqb_neq. lia. Qed.

(** A row of digits is read as the whole number it spells. *)
Lemma parseLiteral_digits (ds : jstring) :
  ds <> [] -> forallb isDigit ds = true ->
  parseLiteral ds = LitDecimal false (digitsValue ds) 0.
Proof.
  intros N D. unfold parseLiteral.
  rewrite (trim_fixed ds (all_digits_trimmed ds D)).
  assert (parseDecimal false ds = LitDecimal false (digitsValue ds) 0) as P.
  { unfold parseDecimal.
    destruct (eqb ds (u "Infinity")) eqn:E.
    - apply eqb_eq in E. subst ds. discriminate D.
    - unfold parseUnsignedDecimal. rewrite (spanDigits_all ds D).
      rewrite app_nil_r. destruct ds as [|c r]; [done|]. reflexivity. }
  destruct ds as [|c r]; [done|].
  simpl in D. apply andb_true_iff in D as [Dc Dr].
  rewrite (digit_is_not c 43 Dc), (digit_is_not c 45 Dc) by lia.
  destruct r as [|c' r']; [exact P|].
  simpl in Dr. apply andb_true_iff in Dr as [Dc' _].
  rewrite !(digit_is_not c' _ Dc') by lia.
  rewrite !orb_false_r, !andb_false_r. exact P.
Qed.

Lemma parseDecimal_sign (s : jstring) : literalNeg (parseDecimal false s) = false.
Proof.
  unfold parseDecimal. destruct (eqb s (u "Infinity")); [reflexivity|].
  unfold parseUnsignedDecimal.
  destruct (spanDigits s) as [ip r1].
  destruct (match r1 with
            | [] => ([], r1)
            | c :: r => if (c =? 46)%N then spanDigits r else ([], r1)
            end) as [fp r2].
  destruct (ip ++ fp); [reflexivity|].
  destruct (parseExponent r2); reflexivity.
Qed.

Lemma parseRadix_sign (radix : N) (s : jstring) : literalNeg (parseRadix radix s) = false.
Proof.
  unfold parseRadix. destruct s; [reflexivity|].
  destruct (radixValue radix 0 (n :: s)); reflexivity.
Qed.

(** Only a text that starts with a minus sign is read as a negative
    literal. *)
Lemma parseLiteral_sign (s : jstring) :
  startsWith [45%N] (trim s) = false -> literalNeg (parseLiteral s) = false.
Proof.
  unfold parseLiteral. destruct (trim s) as [|c r]; [reflexivity|].
  cbn [startsWith]. rewrite andb_true_r, N.eqb_sym. intros ->.
  destruct (c =? 43)%N; [apply parseDecimal_sign|].
  destruct r as [|c' r']; [apply parseDecimal_sign|].
  repeat match goal with
         | |- context [if ?b then _ else _] => destruct b
         end; auto using parseDecimal_sign, parseRadix_sign.
Qed.

Lemma binary_round_aux_unsigned (m e : Z) (l : location) :
  unsignedFloat (binary_round_aux prec emax false m e l).
Proof.
  unfold binary_round_aux.
  destruct (shr_fexp prec emax m e l) as [mrs' e'].
  destruct (shr_fexp prec emax _ e' loc_Exact) as [mrs'' e''].
  destruct (shr_m mrs''); [done| |done].
  by destruct (e'' <=? emax - prec).
Qed.

Lemma roundDecimal_unsigned (digits : N) (exp10 : Z) :
  unsignedFloat (roundDecimal false digits exp10).
Proof.
  unfold roundDecimal. destruct digits as [|m]; [done|].
  destruct (0 <=? exp10).
  - unfold binary_round.
    destruct (shl_align _ _ _) as [mz ez]. apply binary_round_aux_unsigned.
  - destruct (SFdiv_core_binary _ _ _ _ _ _) as [[q e] l].
    apply binary_round_aux_unsigned.
Qed.

Lemma round_unsigned (x : spec_float) : unsignedFloat x -> 0 <= round x.
Proof.
  destruct x as [| | |s m e]; simpl; try lia.
  destruct s; [done|]. intros _.
  destruct (Z.leb_spec 0 e).
  - apply Z.mul_nonneg_nonneg; [lia|]. apply Z.pow_nonneg. lia.
  - apply Z.div_pos.
    + assert (0 <= 2 ^ (- e)) by (apply Z.pow_nonneg; lia). lia.
    + apply Z.pow_pos_nonneg; lia.
Qed.

Lemma Number_unsigned (s : jstring) :
  startsWith [45%N] (trim s) = false -> unsignedFloat (Number s).
Proof.
  intros H. apply parseLiteral_sign in H. unfold Number.
  destruct (parseLiteral s) as [|neg|neg digits exp10]; simpl in H; subst; try done.
  apply roundDecimal_unsigned.
Qed.

End Literals.

(* ===================================================================== *)
(** * Money *)
(* ===================================================================== *)

Section Money.

Import JsNumber.

Lemma rbind_ok {A B : Type} (r : Result A) (k : A -> Result B) (b : B) :
  rbind r k = Ok b -> exists a, r = Ok a /\ k a = Ok b.
Proof. destruct r as [a|msg]; simpl; [eauto | discriminate]. Qed.

Lemma parseIntMoney_amount (val : JVal) (text : jstring) :
  val <> JNull -> val <> JUndefined -> toText val = Ok text ->
  parseIntMoney val = Ok (amount text).
Proof.
  intros N1 N2 T. unfold parseIntMoney.
  destruct val; try done; rewrite T; unfold rbind, amount, stripped;
    by destruct (eqb _ []).
Qed.

Lemma parseIntMoney_absent (val : JVal) : present val = false -> parseIntMoney val = Ok 0.
Proof.
  destruct val as [| | | |s| |]; try discriminate; try reflexivity.
  destruct s; [reflexivity | discriminate].
Qed.

Lemma amount_blank (text : jstring) : stripped text = [] -> amount text = 0.
Proof. unfold amount. by intros ->. Qed.

Lemma amount_notNumeric (text : jstring) : notNumeric text -> amount text = 0.
Proof.
  unfold notNumeric, amount, Number. intros ->. by destruct (eqb _ _).
Qed.

Lemma amount_not_finite (text : jstring) :
  isFinite (Number (stripped text)) = false -> amount text = 0.
Proof. unfold amount. intros ->. by destruct (eqb _ _). Qed.

Lemma amount_unsigned (text : jstring) : minusSigned text = false -> 0 <= amount text.
Proof.
  unfold minusSigned, amount. intros H.
  destruct (eqb _ _); [lia|].
  destruct (isFinite _); [|lia].
  apply round_unsigned, Number_unsigned.
  unfold stripped in *. by rewrite trim_idem.
Qed.

Lemma moneyField_holds (keys : list jstring) (row : JVal) (z : Z) :
  parseIntMoney (firstPresent row keys) = Ok z -> moneyField keys row z.
Proof.
  intros P. split; [exact P|]. split.
  - intros A. rewrite (parseIntMoney_absent _ A) in P. by injection P.
  - intros text T.
    destruct (present (firstPresent row keys)) eqn:A.
    + rewrite (parseIntMoney_amount _ text) in P; try done;
        try (intros E; rewrite E in A; discriminate A).
      injection P as <-.
      auto using amount_blank, amount_notNumeric, amount_not_finite, amount_unsigned.
    + rewrite (parseIntMoney_absent _ A) in P. injection P as <-.
      repeat split; intros; lia.
Qed.

End Money.

(* ===================================================================== *)
(** * Rows *)
(* ===================================================================== *)

Section Rows.

Lemma sequence_ok {A : Type} (rs : list (Result A)) (l : list A) :
  sequence rs = Ok l -> Forall2 (fun r a => r = Ok a) rs l.
Proof.
  revert l. induction rs as [|r rs IH]; simpl; intros l H.
  - injection H as <-. constructor.
  - apply rbind_ok in H as (a & -> & H).
    apply rbind_ok in H as (l' & E & H). injection H as <-.
    constructor; [reflexivity | by apply IH].
Qed.

Lemma sequence_all_ok {A : Type} (rs : list (Result A)) (l : list A) :
  Forall2 (fun r a => r = Ok a) rs l -> sequence rs = Ok l.
Proof.
  induction 1 as [|r a rs l -> _ IH]; simpl; [done|]. by rewrite IH.
Qed.

(** Every field of a transaction, traced to the row it was made from. *)
Lemma normalizeRow_fields (y m : Z) (row : JVal) (t : Txn) :
  normalizeRow y m row = Ok t ->
  year t = y /\ month t = m /\
  (exists d1, normalizeDate (firstPresent row dateKeys) = Ok d1 /\
     (d1 <> [] -> date t = d1) /\
     (d1 = [] -> exists d2,
        normalizeDate (firstPresent row dateFallbackKeys) = Ok d2 /\
        date t = orElse d2 (firstOfMonth y m))) /\
  (exists c, textOr (firstPresent row categoryKeys) (u "UNKNOWN") = Ok c /\
     category t = orElse c (u "UNKNOWN")) /\
  textOr (firstPresent row groupKeys) [] = Ok (group t) /\
  parseIntMoney (firstPresent row grossKeys) = Ok (gross t) /\
  parseIntMoney (firstPresent row deductionsKeys) = Ok (deductions t) /\
  parseIntMoney (firstPresent row netKeys) = Ok (net t) /\
  (exists c, textOr (firstPresent row currencyKeys) (u "KRW") = Ok c /\
     currency t = orElse c (u "KRW")) /\
  textOr (firstPresent row seqnrKeys) [] = Ok (seqnr t) /\
  normalizeDate (firstPresent row fpbegKeys) = Ok (fpbeg t) /\
  normalizeDate (firstPresent row fpendKeys) = Ok (fpend t).
Proof.
  unfold normalizeRow. intros H.
  apply rbind_ok in H as (dt & Hd & H).
  apply rbind_ok in H as (cat & Hcat & H).
  apply rbind_ok in H as (grp & Hgrp & H).
  apply rbind_ok in H as (gr & Hgr & H).
  apply rbind_ok in H as (de & Hde & H).
  apply rbind_ok in H as (ne & Hne & H).
  apply rbind_ok in H as (cur & Hcur & H).
  apply rbind_ok in H as (sq & Hsq & H).
  apply rbind_ok in H as (fb & Hfb & H).
  apply rbind_ok in H as (fe & Hfe & H).
  injection H as <-. cbn [year month date category group gross deductions net
                           currency seqnr fpbeg fpend].
  repeat match goal with |- _ /\ _ => split end; eauto.
  apply rbind_ok in Hd as (d1 & Hd1 & Hd).
  exists d1. split; [exact Hd1|]. split.
  - intros N. destruct d1; [done|]. by injection Hd.
  - intros ->. apply rbind_ok in Hd as (d2 & Hd2 & Hd). injection Hd as <-. eauto.
Qed.

Lemma normalizeRows_each (y m : Z) (rows : list JVal) (txns : list Txn) :
  normalizeRows y m rows = Ok txns ->
  Forall2 (fun row t => normalizeRow y m row = Ok t) (List.filter isRecord rows) txns.
Proof.
  unfold normalizeRows. intros H. apply sequence_ok in H.
  by apply Forall2_fmap_l in H.
Qed.

End Rows.

(** C10: entries that are [null] or no objects are dropped without a trace
    (the call yields what it yields without them, and one transaction per
    remaining entry), and every transaction carries the year and the month
    the call was given, whatever the row holds. *)
Theorem normalizeRows_drops_and_stamps (y m : Z) :
  (forall pre row post, isRecord row = false ->
     normalizeRows y m (pre ++ row :: post) = normalizeRows y m (pre ++ post)) /\
  (forall rows txns, normalizeRows y m rows = Ok txns ->
     List.length txns = List.length (List.filter isRecord rows) /\
     Forall (fun t => year t = y /\ month t = m) txns).
Proof.
  split.
  - intros pre row post H. unfold normalizeRows.
    rewrite !List.filter_app. simpl. by rewrite H.
  - intros rows txns H. apply normalizeRows_each in H. split.
    + symmetry. eapply Forall2_length, H.
    + induction H as [|row t rows' txns' Hrow _ IH]; constructor; [|exact IH].
      apply normalizeRow_fields in Hrow. tauto.
Qed.

Lemma normalizeRows_drops_and_stamps_witness :
  exists txns,
    normalizeRows 2024 3
      [JNull; JObj [(u "year", JNum (u "1999")); (u "month", JNum (u "12"))];
       JStr (u "row"); JNum (u "7")] = Ok txns /\
    List.length txns = 1%nat /\
    Forall (fun t => year t = 2024 /\ month t = 3) txns.
Proof.
  eexists. split; [vm_compute; reflexivity|].
  eapply (proj2 (normalizeRows_drops_and_stamps 2024 3)
            [JNull; JObj [(u "year", JNum (u "1999")); (u "month", JNum (u "12"))];
             JStr (u "row"); JNum (u "7")]).
  vm_compute. reflexivity.
Defined.

(** C1, as stated, fails on a negative amount: the sign of the text is
    kept, so a row whose gross text is ["-5"] gives a transaction whose
    gross is [-5]. *)
Lemma negative_amount_is_kept :
  exists t,
    normalizeRows 2024 1 [JObj [(u "bet01Txt", JStr (u "-5"))]] = Ok [t] /\
    gross t = -5 /\ ~ 0 <= gross t.
Proof. eexists. split; [vm_compute; reflexivity|]. simpl. split; [reflexivity | lia]. Qed.

(** C1 (amended): every monetary field (gross, deductions, net) of every
    transaction the normalizer produces is an integer, the rounded value of
    the first present alias of the field in the row the transaction was made
    from: it is 0 when no alias is present and when the text of the value is
    blank, no numeric literal or not finite, and it is not negative unless
    that text is written with a minus sign. *)
Theorem money_fields_integral (y m : Z) (rows : list JVal) (txns : list Txn) :
  normalizeRows y m rows = Ok txns ->
  Forall (fun t =>
            exists row, In row rows /\ isRecord row = true /\
              moneyField grossKeys row (gross t) /\
              moneyField deductionsKeys row (deductions t) /\
              moneyField netKeys row (net t)) txns.
Proof.
  intros H. apply normalizeRows_each in H.
  assert (forall row, In row (List.filter isRecord rows) ->
                      In row rows /\ isRecord row = true) as F
    by (intros row; apply List.filter_In).
  induction H as [|row t rows' txns' Hrow _ IH]; constructor.
  - exists row. destruct (F row (or_introl eq_refl)) as [I R].
    apply normalizeRow_fields in Hrow
      as (_ & _ & _ & _ & _ & Hg & Hd & Hn & _).
    refine (conj I (conj R (conj _ (conj _ _)))); by apply moneyField_holds.
  - apply IH. intros r I. apply F. by right.
Qed.

Lemma money_fields_integral_witness :
  exists t,
    normalizeRows 2024 3
      [JObj [(u "bet01Txt", JStr (u "1,234,567")); (u "bet07", JStr (u "20.5"));
             (u "net", JStr (u "n/a"))]] = Ok [t] /\
    gross t = 1234567 /\ deductions t = 21 /\ net t = 0 /\
    Forall (fun t =>
              exists row,
                In row [JObj [(u "bet01Txt", JStr (u "1,234,567"));
                              (u "bet07", JStr (u "20.5")); (u "net", JStr (u "n/a"))]] /\
                isRecord row = true /\
                moneyField grossKeys row (gross t) /\
                moneyField deductionsKeys row (deductions t) /\
                moneyField netKeys row (net t)) [t].
Proof.
  eexists. split; [vm_compute; reflexivity|].
  split; [reflexivity|]. split; [reflexivity|]. split; [reflexivity|].
  apply (money_fields_integral 2024 3). vm_compute. reflexivity.
Defined.

Section Grouping.

Import JsNumber.

Lemma stripCommas_digits (g : jstring) : forallb isDigit g = true -> stripCommas g = g.
Proof.
  induction g as [|c g IH]; simpl; [done|].
  intros H. apply andb_true_iff in H as [Hc H].
  rewrite (digit_is_not c 44 Hc) by lia. simpl. by rewrite IH.
Qed.

Lemma stripCommas_app (a b : jstring) : stripCommas (a ++ b) = stripCommas a ++ stripCommas b.
Proof. apply List.filter_app. Qed.

Lemma stripCommas_joined (groups : list jstring) :
  Forall (fun g => g <> [] /\ forallb isDigit g = true) groups ->
  stripCommas (flat_map (fun q => 44%N :: q) groups) = concat groups.
Proof.
  induction 1 as [|g groups [_ Hg] _ IH]; [done|].
  cbn [flat_map concat]. rewrite stripCommas_app, IH.
  change (stripCommas (44%N :: g)) with (stripCommas g).
  by rewrite stripCommas_digits.
Qed.

Lemma stripCommas_joinComma (groups : list jstring) :
  Forall (fun g => g <> [] /\ forallb isDigit g = true) groups ->
  stripCommas (joinComma groups) = concat groups.
Proof.
  intros H. destruct H as [|g groups [_ Hg] H]; [done|].
  cbn [joinComma concat].
  by rewrite stripCommas_app, stripCommas_digits, stripCommas_joined.
Qed.

Lemma concat_digits (groups : list jstring) :
  Forall (fun g => g <> [] /\ forallb isDigit g = true) groups ->
  forallb isDigit (concat groups) = true.
Proof.
  induction 1 as [|g groups [_ Hg] _ IH]; [done|].
  cbn [concat]. rewrite forallb_app, Hg, IH. done.
Qed.

Lemma parseIntMoney_digits (text ds : jstring) :
  stripCommas text = ds -> ds <> [] -> forallb isDigit ds = true ->
  (digitsValue ds <= 2 ^ 53)%N ->
  parseIntMoney (JStr text) = Ok (Z.of_N (digitsValue ds)).
Proof.
  intros S N D B. unfold parseIntMoney, toText, rbind.
  rewrite S, (trim_fixed ds (all_digits_trimmed ds D)).
  destruct (eqb ds []) eqn:E; [apply eqb_eq in E; done|].
  unfold Number. rewrite (parseLiteral_digits ds N D).
  destruct (roundDecimal_whole false _ B) as [-> ->]. reflexivity.
Qed.

Lemma round_nearest (x : spec_float) : nearestInteger x (round x).
Proof.
  destruct x as [| | |s m e]; simpl; try reflexivity.
  destruct (Z.leb_spec 0 e) as [L|L]; [reflexivity|].
  set (v := if s then Z.neg m else Z.pos m).
  assert (0 < 2 ^ (- e)) as P by (apply Z.pow_pos_nonneg; lia).
  replace (2 ^ (1 - e)) with (2 * 2 ^ (- e))
    by (replace (1 - e) with (Z.succ (- e)) by lia; rewrite Z.pow_succ_r; lia).
  pose proof (Z.div_mod (2 * v + 2 ^ (- e)) (2 * 2 ^ (- e)) ltac:(lia)) as DM.
  pose proof (Z.mod_pos_bound (2 * v + 2 ^ (- e)) (2 * 2 ^ (- e)) ltac:(lia)) as MB.
  nia.
Qed.

End Grouping.

(** C6, as stated, fails beyond the whole numbers a double holds:
    ["9,007,199,254,740,993"] spells [2^53 + 1], and parsing yields
    [2^53]. *)
Lemma parseIntMoney_rounds_beyond_2_53 :
  digitGroups (map u ["9"; "007"; "199"; "254"; "740"; "993"]%string) /\
  groupedValue (map u ["9"; "007"; "199"; "254"; "740"; "993"]%string)
  = 9007199254740993%N /\
  parseIntMoney (JStr (u "9,007,199,254,740,993")) = Ok 9007199254740992 /\
  parseIntMoney (JStr (u "9,007,199,254,740,993")) <> Ok 9007199254740993.
Proof.
  split.
  { split; [discriminate|]. repeat constructor; discriminate. }
  split; [reflexivity|].
  split; [vm_compute; reflexivity|].
  vm_compute. discriminate.
Qed.

(** C6 (amended): for every money text made of groups of digits set apart
    by commas whose value is at most [2^53], parsing yields that integer
    (["1,234,567"] gives 1234567); a text that is a numeric literal once its
    commas and surrounding blanks are gone yields the integer nearest to the
    double [Number] makes of it, halves going up (["1,234.5"] gives 1235,
    ["-2.5"] gives -2); [null], [undefined], blank text and text that is no
    numeric literal yield 0. *)
Theorem parseIntMoney_grouped :
  (forall groups,
     digitGroups groups -> (groupedValue groups <= 2 ^ 53)%N ->
     parseIntMoney (JStr (joinComma groups)) = Ok (Z.of_N (groupedValue groups))) /\
  (forall text,
     stripped text <> [] ->
     JsNumber.isFinite (JsNumber.Number (stripped text)) = true ->
     exists n, parseIntMoney (JStr text) = Ok n /\
               nearestInteger (JsNumber.Number (stripped text)) n) /\
  (parseIntMoney (JStr (u "1,234.5")) = Ok 1235 /\
   parseIntMoney (JStr (u "1,234.49")) = Ok 1234 /\
   parseIntMoney (JStr (u "-2.5")) = Ok (-2)) /\
  (forall text, stripped text = [] \/ notNumeric text -> parseIntMoney (JStr text) = Ok 0) /\
  parseIntMoney JNull = Ok 0 /\
  parseIntMoney JUndefined = Ok 0.
Proof.
  split.
  { intros groups [N F] B.
    apply parseIntMoney_digits; try done.
    - by apply stripCommas_joinComma.
    - destruct F as [|g groups [Ng _] _]; [done|]. destruct g; done.
    - by apply concat_digits. }
  split.
  { intros text N F. exists (amount text). split.
    - by apply parseIntMoney_amount.
    - unfold amount. destruct (eqb (stripped text) []) eqn:E; [by apply eqb_eq in E|].
      rewrite F. apply round_nearest. }
  split; [by vm_compute|].
  split; [|split; reflexivity].
  intros text H. rewrite (parseIntMoney_amount (JStr text) text) by done.
  f_equal. destruct H; [by apply amount_blank | by apply amount_notNumeric].
Qed.

Lemma parseIntMoney_grouped_witness :
  digitGroups (map u ["1"; "234"; "567"]%string) /\
  parseIntMoney (JStr (u "1,234,567")) = Ok 1234567 /\
  parseIntMoney (JStr (u "12abc")) = Ok 0 /\
  parseIntMoney (JStr (u "  ")) = Ok 0.
Proof.
  assert (digitGroups (map u ["1"; "234"; "567"]%string)) as G.
  { split; [discriminate|]. repeat constructor; discriminate. }
  destruct parseIntMoney_grouped as (P1 & _ & _ & P4 & _).
  split; [exact G|]. split; [|split].
  - apply (P1 _ G). vm_compute. discriminate.
  - apply P4. right. reflexivity.
  - apply P4. left. reflexivity.
Defined.

(* ===================================================================== *)
(** * Aliases *)
(* ===================================================================== *)

Section Aliases.

Lemma firstPresent_skip (record : JVal) (pre rest : list jstring) :
  absent record pre -> firstPresent record (pre ++ rest) = firstPresent record rest.
Proof.
  induction 1 as [|k pre Hk _ IH]; [done|]. simpl. by rewrite Hk.
Qed.

Lemma firstPresent_wins (record : JVal) (pre : list jstring) (key : jstring)
    (post : list jstring) :
  absent record pre -> present (getProp record key) = true ->
  firstPresent record (pre ++ key :: post) = getProp record key.
Proof.
  intros A P. rewrite (firstPresent_skip record pre _ A). simpl. by rewrite P.
Qed.

Lemma firstPresent_absent (record : JVal) (keys : list jstring) :
  absent record keys -> firstPresent record keys = JUndefined.
Proof.
  intros A. rewrite <- (app_nil_r keys). by rewrite (firstPresent_skip record keys [] A).
Qed.

(** What [firstPresent] yields is present, or nothing was. *)
Lemma firstPresent_choice (record : JVal) (keys : list jstring) :
  (exists pre key post,
     keys = pre ++ key :: post /\ absent record pre /\
     present (getProp record key) = true /\
     firstPresent record keys = getProp record key) \/
  (absent record keys /\ firstPresent record keys = JUndefined).
Proof.
  induction keys as [|k keys IH].
  - right. split; [constructor | reflexivity].
  - destruct (present (getProp record k)) eqn:P.
    + left. exists [], k, keys. simpl. rewrite P. repeat split. constructor.
    + destruct IH as [(pre & key & post & -> & A & Pk & E)|[A E]].
      * left. exists (k :: pre), key, post. simpl. rewrite P.
        repeat split; try done. by constructor.
      * right. simpl. rewrite P. split; [by constructor | exact E].
Qed.

Lemma normalizeRow_traced (y m : Z) (row : JVal) (t : Txn) :
  normalizeRow y m row = Ok t -> tracedTo y m row t.
Proof.
  intros H. apply normalizeRow_fields in H
    as (_ & _ & (d1 & Hd1 & Hn & He) & Hrest).
  split; [|exact Hrest].
  exists d1. split; [exact Hd1|]. split; [exact Hn|].
  intros E. destruct (He E) as (d2 & Hd2 & Hd). exists d2. split; [exact Hd2|].
  rewrite Hd. split; [by destruct d2 | by intros ->].
Qed.

Lemma normalizeRow_defaulted (y m : Z) (row : JVal) (t : Txn) :
  normalizeRow y m row = Ok t -> defaulted y m row t.
Proof.
  intros H. apply normalizeRow_traced in H
    as ((d1 & Hd1 & Hn & He) & (c & Hc & Ec) & Hg & Hgr & Hde & Hne
        & (cu & Hcu & Ecu) & Hsq & _).
  repeat split; intros A; try apply firstPresent_absent in A; rewrite ?A in *.
  - injection Hc as <-. exact Ec.
  - by injection Hg.
  - by injection Hsq.
  - by injection Hgr.
  - by injection Hde.
  - by injection Hne.
  - injection Hcu as <-. exact Ecu.
  - intros A2. apply firstPresent_absent in A2. rewrite A2 in *.
    injection Hd1 as <-. destruct (He eq_refl) as (d2 & Hd2 & _ & Hd).
    injection Hd2 as <-. by apply Hd.
Qed.

End Aliases.

(** C8, as stated, fails for the date.  With no date alias present the date
    is not the first of the month when an alias of the period end is
    present: it is that period end.  And a date alias that is present but
    blank does not win over a period-end alias that comes after it. *)
Lemma date_falls_back_to_period_end :
  (exists t,
     absent (JObj [(u "fpend", JStr (u "20240131"))]) dateKeys /\
     normalizeRow 2024 1 (JObj [(u "fpend", JStr (u "20240131"))]) = Ok t /\
     date t = u "2024-01-31" /\ date t <> firstOfMonth 2024 1) /\
  (exists t,
     firstPresent
       (JObj [(u "rqdat", JStr (u " ")); (u "fpend", JStr (u "20240131"))])
       (dateKeys ++ dateFallbackKeys) = JStr (u " ") /\
     normalizeRow 2024 1
       (JObj [(u "rqdat", JStr (u " ")); (u "fpend", JStr (u "20240131"))]) = Ok t /\
     date t = u "2024-01-31").
Proof.
  split; eexists.
  - split; [repeat constructor|]. split; [vm_compute; reflexivity|].
    split; [reflexivity | discriminate].
  - split; [reflexivity|]. split; [vm_compute; reflexivity | reflexivity].
Qed.

(** C8 (amended): for every raw record and every alias list, the
    normalizer takes the value of the first alias of the list that is present
    (so a primary alias that is present wins over any later one), and every
    field of a transaction is computed from the value so chosen for its list;
    when no alias of the list is present the field is "UNKNOWN" for the
    category, the empty text for group and sequence id, 0 for the money
    fields and "KRW" for the currency.  The date has two lists: the first
    present date alias is used unless its text normalizes to the empty text,
    then (as when no date alias is present) the first present alias of the
    period end (fpend, fpEnd, fpendTxt), and the first of the month only when
    that too is absent or gives the empty text. *)
Theorem first_present_alias_wins :
  (forall record pre key post,
     absent record pre -> present (getProp record key) = true ->
     firstPresent record (pre ++ key :: post) = getProp record key) /\
  (forall record keys, absent record keys -> firstPresent record keys = JUndefined) /\
  (forall y m row t,
     normalizeRow y m row = Ok t -> tracedTo y m row t /\ defaulted y m row t).
Proof.
  split; [exact firstPresent_wins|].
  split; [exact firstPresent_absent|].
  intros y m row t H. split; [by apply normalizeRow_traced | by apply normalizeRow_defaulted].
Qed.

Lemma first_present_alias_wins_witness :
  firstPresent
    (JObj [(u "bet01", JStr (u "2")); (u "bet01Txt", JStr (u "1"))]) grossKeys
  = JStr (u "1") /\
  exists t,
    normalizeRow 2024 3 (JObj [(u "bet01", JStr (u "2")); (u "bet01Txt", JStr (u "1"))])
    = Ok t /\
    gross t = 1 /\ category t = u "UNKNOWN" /\ currency t = u "KRW" /\
    date t = u "2024-03-01" /\
    tracedTo 2024 3 (JObj [(u "bet01", JStr (u "2")); (u "bet01Txt", JStr (u "1"))]) t.
Proof.
  destruct first_present_alias_wins as (W & _ & F).
  split.
  - apply (W (JObj [(u "bet01", JStr (u "2")); (u "bet01Txt", JStr (u "1"))])
             [] (u "bet01Txt") (List.tl grossKeys)); [constructor | reflexivity].
  - eexists. split; [vm_compute; reflexivity|].
    do 4 (split; [reflexivity|]).
    apply (F 2024 3). vm_compute. reflexivity.
Defined.

(* ===================================================================== *)
(** * Registry *)
(* ===================================================================== *)

Section Registry.

(** The pass of [cleanupOldJobs] over any list of entries. *)
Lemma sweep_lookup (now maxAgeMs : Z) (entries : list (jstring * JobState))
    (acc : gmap jstring JobState) (jobId : jstring) :
  fold_left
    (fun acc entry => if stale now maxAgeMs entry.2 then delete entry.1 acc else acc)
    entries acc !! jobId
  = if existsb (fun entry => eqb entry.1 jobId && stale now maxAgeMs entry.2) entries
    then None else acc !! jobId.
Proof.
  revert acc. induction entries as [|[k job] entries IH]; intros acc; [done|].
  cbn [fold_left existsb fst snd]. rewrite IH.
  destruct (existsb _ entries); [by rewrite orb_true_r|].
  rewrite orb_false_r.
  destruct (stale now maxAgeMs job); [|by rewrite andb_false_r].
  rewrite andb_true_r.
  destruct (eqb k jobId) eqn:E.
  - apply eqb_eq in E as ->. apply lookup_delete_eq.
  - apply eqb_neq in E. by apply lookup_delete_ne.
Qed.

Lemma cleanupOldJobs_lookup (now maxAgeMs : Z) (store : gmap jstring JobState)
    (jobId : jstring) :
  cleanupOldJobs now maxAgeMs store !! jobId
  = match store !! jobId with
    | Some job => if stale now maxAgeMs job then None else Some job
    | None => None
    end.
Proof.
  unfold cleanupOldJobs. rewrite sweep_lookup.
  destruct (existsb _ _) eqn:X.
  - apply existsb_exists in X as ([k job] & I & H). simpl in H.
    apply andb_true_iff in H as [E S]. apply eqb_eq in E as ->.
    apply list_elem_of_In, elem_of_map_to_list in I. by rewrite I, S.
  - destruct (store !! jobId) as [job|] eqn:L; [|done].
    destruct (stale now maxAgeMs job) eqn:S; [|done].
    exfalso. apply not_true_iff_false in X. apply X.
    apply existsb_exists. exists (jobId, job). split.
    + by apply list_elem_of_In, elem_of_map_to_list.
    + simpl. by rewrite eqb_refl, S.
Qed.

End Registry.

(** C9: for every registry state and threshold, [cleanupOldJobs] removes
    exactly the jobs whose last update lies more than [maxAgeMs] before now
    and keeps every other job as it is; under the default threshold of 30
    minutes a job last updated 31 minutes ago is removed and one last updated
    29 minutes ago is kept. *)
Theorem cleanupOldJobs_exact (now : Z) (store : gmap jstring JobState) :
  (forall maxAgeMs jobId job,
     cleanupOldJobs now maxAgeMs store !! jobId = Some job <->
     store !! jobId = Some job /\ ~ maxAgeMs < now - updatedAt job) /\
  (forall maxAgeMs jobId,
     cleanupOldJobs now maxAgeMs store !! jobId = None <->
     store !! jobId = None \/
     exists job, store !! jobId = Some job /\ maxAgeMs < now - updatedAt job) /\
  (forall jobId job,
     store !! jobId = Some job -> updatedAt job = now - 31 * 60 * 1000 ->
     cleanupOldJobs now defaultMaxAgeMs store !! jobId = None) /\
  (forall jobId job,
     store !! jobId = Some job -> updatedAt job = now - 29 * 60 * 1000 ->
     cleanupOldJobs now defaultMaxAgeMs store !! jobId = Some job).
Proof.
  assert (forall maxAgeMs job,
            stale now maxAgeMs job = true <-> maxAgeMs < now - updatedAt job) as S
    by (intros; unfold stale; apply Z.ltb_lt).
  repeat split.
  - rewrite cleanupOldJobs_lookup in H.
    destruct (store !! jobId) as [j|]; [|done].
    destruct (stale now maxAgeMs j); [done | exact H].
  - rewrite cleanupOldJobs_lookup in H.
    destruct (store !! jobId) as [j|]; [|done].
    destruct (stale now maxAgeMs j) eqn:E; [done|].
    injection H as <-. rewrite <- S, E. done.
  - intros [L N]. rewrite cleanupOldJobs_lookup, L.
    destruct (stale now maxAgeMs job) eqn:E; [|done]. by apply S in E.
  - rewrite cleanupOldJobs_lookup.
    destruct (store !! jobId) as [j|]; [|by left].
    destruct (stale now maxAgeMs j) eqn:E; [|done].
    intros _. right. exists j. split; [done | by apply S].
  - rewrite cleanupOldJobs_lookup.
    intros [-> | (j & -> & L)]; [done|]. apply S in L. by rewrite L.
  - intros jobId job L U. rewrite cleanupOldJobs_lookup, L.
    replace (stale now defaultMaxAgeMs job) with true; [done|].
    symmetry. apply S. unfold defaultMaxAgeMs. lia.
  - intros jobId job L U. rewrite cleanupOldJobs_lookup, L.
    replace (stale now defaultMaxAgeMs job) with false; [done|].
    symmetry. apply not_true_iff_false. rewrite S. unfold defaultMaxAgeMs. lia.
Qed.

Lemma cleanupOldJobs_exact_witness :
  cleanupOldJobs (31 * 60 * 1000) defaultMaxAgeMs twoJobs !! u "a" = None /\
  cleanupOldJobs (31 * 60 * 1000) defaultMaxAgeMs twoJobs !! u "b"
  = Some (freshJob (u "b") 12 (2 * 60 * 1000)).
Proof.
  destruct (cleanupOldJobs_exact (31 * 60 * 1000) twoJobs) as (_ & _ & Old & Recent).
  split.
  - apply (Old (u "a") (freshJob (u "a") 12 0)); by vm_compute.
  - apply (Recent (u "b") (freshJob (u "b") 12 (2 * 60 * 1000))); by vm_compute.
Defined.

(* ===================================================================== *)
(** * Tasks *)
(* ===================================================================== *)

Section Steps.

Context {A : Type} (I : World -> Prop).

Lemma lands_keeps (m : M A) : lands I m -> keeps I m.
Proof. intros H w Hw. destruct (H w Hw) as [Hi [a ->]]. by split. Qed.

Lemma lands_ret (a : A) : lands I (ret a).
Proof. intros w Hw. simpl. eauto. Qed.

Lemma keeps_throw (msg : jstring) : keeps I (@throw A msg).
Proof. intros w Hw. by split. Qed.

Lemma keeps_lift (r : Result A) : keeps I (lift r).
Proof. destruct r; intros w Hw; by split. Qed.

Lemma keeps_tryCatch (m : M A) (h : jstring -> M A) :
  keeps I m -> (forall msg, keeps I (h msg)) -> keeps I (tryCatch m h).
Proof.
  intros Hm Hh w Hw. unfold tryCatch. specialize (Hm w Hw).
  destruct (m w) as [[a|msg|] w']; simpl in *; try done.
  apply Hh, Hm.
Qed.

Lemma lands_tryCatch (m : M A) (h : jstring -> M A) :
  keeps I m -> (forall msg, lands I (h msg)) -> lands I (tryCatch m h).
Proof.
  intros Hm Hh w Hw. unfold tryCatch. specialize (Hm w Hw).
  destruct (m w) as [[a|msg|] w']; simpl in *.
  - split; [apply Hm | eauto].
  - apply Hh, Hm.
  - by destruct Hm.
Qed.

End Steps.

Section Sequencing.

Context {A B : Type} (I : World -> Prop).

Lemma keeps_bind (m : M A) (k : A -> M B) :
  keeps I m -> (forall a, keeps I (k a)) -> keeps I (bind m k).
Proof.
  intros Hm Hk w Hw. unfold bind. destruct (Hm w Hw) as [Hi Ho].
  destruct (m w) as [[a|msg|] w']; simpl in *; try done.
  by apply Hk.
Qed.

Lemma lands_bind (m : M A) (k : A -> M B) :
  lands I m -> (forall a, lands I (k a)) -> lands I (bind m k).
Proof.
  intros Hm Hk w Hw. unfold bind. destruct (Hm w Hw) as [Hi [a E]].
  destruct (m w) as [o w']; simpl in *. subst o. by apply Hk.
Qed.

End Sequencing.

Lemma lands_forEach {A B : Type} (I : World -> Prop) (xs : list A)
    (body : A -> B -> M B) (s : B) :
  (forall x s, lands I (body x s)) -> lands I (forEach xs body s).
Proof.
  intros Hb. revert s. induction xs as [|x xs IH]; intros s; simpl.
  - apply lands_ret.
  - apply lands_bind; [apply Hb | exact IH].
Qed.

Section Primitives.

Context (env : Env) (I : World -> Prop) (R : onRegistry I).

Lemma lands_now : lands I now.
Proof. intros w Hw. simpl. eauto. Qed.

Lemma lands_sleep (ms : Z) : lands I (sleep env ms).
Proof. intros w Hw. simpl. split; [|eauto]. by apply (R w). Qed.

Lemma keeps_exchange (req : Request) : keeps I (exchange env req).
Proof.
  intros w Hw. simpl. split; [by apply (R w)|].
  by destruct (outcome (respond env (requests w))).
Qed.

End Primitives.

Section Records.

Lemma StronglySorted_snoc {X : Type} (Rel : X -> X -> Prop) (l : list X) (y : X) :
  StronglySorted Rel l -> Forall (fun x => Rel x y) l -> StronglySorted Rel (l ++ [y]).
Proof.
  induction 1 as [|x l Hl IH Hx]; intros F; simpl.
  - repeat constructor.
  - apply Forall_cons in F as [Fx F]. constructor; [by apply IH|].
    apply Forall_app. split; [exact Hx | by constructor].
Qed.

Lemma StronglySorted_last {X : Type} (Rel : X -> X -> Prop) (l : list X) (y : X) :
  StronglySorted Rel (l ++ [y]) -> Forall (fun x => Rel x y) l.
Proof.
  induction l as [|x l IH]; simpl; intros H; [constructor|].
  apply StronglySorted_inv in H as [H F]. constructor; [|by apply IH].
  apply Forall_app in F as [_ F]. by apply Forall_cons in F as [F _].
Qed.

Lemma ascending_snoc (records : list JobState) (job job' : JobState) :
  ascending (records ++ [job]) ->
  (processedMonths job <= processedMonths job')%nat ->
  ascending ((records ++ [job]) ++ [job']).
Proof.
  intros H L. apply StronglySorted_snoc; [exact H|].
  apply Forall_app. split.
  - eapply Forall_impl; [apply (StronglySorted_last _ _ _ H)|].
    simpl. intros. lia.
  - by constructor.
Qed.

Lemma hd_error_app {X : Type} (l r : list X) (x : X) :
  hd_error l = Some x -> hd_error (l ++ r) = Some x.
Proof. by destruct l. Qed.

Context (jobId : jstring) (T : nat) (j0 : list (jstring * JobState)) (first : JobState).

Lemma live_onRegistry (n : nat) : onRegistry (live jobId T j0 first n).
Proof.
  intros w w' Ej Eh (older & job & H). exists older, job. by rewrite Ej, Eh.
Qed.

Lemma live_current (n : nat) (w : World) (job : JobState) :
  live jobId T j0 first n w -> jobs w !! jobId = Some job ->
  unfinished T job /\ processedMonths job = n.
Proof.
  intros (older & job0 & L & _ & _ & _ & U & N) L'.
  rewrite L in L'. injection L' as ->. split; [|exact N].
  apply Forall_app in U as [_ U]. by apply Forall_cons in U as [U _].
Qed.

(** What one update of a live job writes. *)
Lemma update_written (n : nat) (patch : Patch) (w : World) (job : JobState) :
  live jobId T j0 first n w -> jobs w !! jobId = Some job ->
  (processedMonths job <= processedMonths (assignJob job patch (clock w)))%nat ->
  exists older,
    updateJob jobId patch w = (Returns tt, (updateJob jobId patch w).2) /\
    jobs (updateJob jobId patch w).2 !! jobId = Some (assignJob job patch (clock w)) /\
    journal (updateJob jobId patch w).2
    = j0 ++ map (pair jobId) (older ++ [assignJob job patch (clock w)]) /\
    hd_error (older ++ [assignJob job patch (clock w)]) = Some first /\
    ascending (older ++ [assignJob job patch (clock w)]) /\
    Forall (unfinished T) older.
Proof.
  intros (older & job0 & L & J & H & Asc & U & _) L' Le.
  rewrite L in L'. injection L' as ->.
  exists (older ++ [job]).
  unfold updateJob. rewrite L.
  split; [reflexivity|]. simpl.
  rewrite lookup_insert_eq, J.
  split; [reflexivity|].
  split; [by rewrite !map_app, <- !app_assoc|].
  split; [by apply hd_error_app|].
  split; [by apply ascending_snoc | exact U].
Qed.

Lemma live_update (n : nat) (patch : Patch) (w : World) (job : JobState) :
  live jobId T j0 first n w -> jobs w !! jobId = Some job ->
  (processedMonths job <= processedMonths (assignJob job patch (clock w)))%nat ->
  unfinished T (assignJob job patch (clock w)) ->
  updateJob jobId patch w = (Returns tt, (updateJob jobId patch w).2) /\
  live jobId T j0 first (processedMonths (assignJob job patch (clock w)))
    (updateJob jobId patch w).2.
Proof.
  intros Hw L Le U.
  destruct (update_written n patch w job Hw L Le) as (older & E & L' & J & H & Asc & Us).
  split; [exact E|]. exists older, (assignJob job patch (clock w)).
  repeat split; try done.
  apply Forall_app. split; [exact Us | by constructor].
Qed.

Lemma lands_update_quiet (n : nat) (patch : Patch) :
  quiet patch -> lands (live jobId T j0 first n) (updateJob jobId patch).
Proof.
  intros (Q1 & Q2 & Q3 & Q4) w Hw.
  pose proof Hw as (older & job & L & _).
  destruct (live_current n w job Hw L) as [(U1 & U2 & U3 & U4) N].
  destruct (live_update n patch w job Hw L) as [E Hl].
  - simpl. rewrite Q2. simpl. lia.
  - unfold unfinished. simpl. rewrite Q1, Q2, Q3. simpl.
    repeat split; try done. destruct (p_status patch) as [[]|]; done.
  - rewrite E. simpl. split; [|eauto].
    simpl in Hl. rewrite Q2 in Hl. simpl in Hl. by rewrite N in Hl.
Qed.

Lemma update_progress (n : nat) (year month : Z) :
  (n + 1 <= T)%nat ->
  triple (live jobId T j0 first n)
    (updateJob jobId (progressPatch (n + 1) T year month))
    (fun o w' => o = Returns tt /\ live jobId T j0 first (n + 1) w').
Proof.
  intros Le w Hw.
  pose proof Hw as (older & job & L & _).
  destruct (live_current n w job Hw L) as [(U1 & U2 & U3 & U4) N].
  destruct (live_update n (progressPatch (n + 1) T year month) w job Hw L)
    as [E Hl]; simpl; try lia.
  - unfold unfinished. simpl. repeat split; try done; lia.
  - split; [by rewrite E | exact Hl].
Qed.

(** The last update of a task: to [Completed] or to [Error]. *)
Lemma update_ends (n : nat) (patch : Patch) (w : World) :
  live jobId T j0 first n w ->
  (p_status patch = Some Completed /\ p_processedMonths patch = Some T /\
   p_totalMonths patch = Some T) \/
  (p_status patch = Some Error /\ quiet patch) ->
  exists job,
    jobs w !! jobId = Some job /\
    updateJob jobId patch w = (Returns tt, (updateJob jobId patch w).2) /\
    jobs (updateJob jobId patch w).2 !! jobId = Some (assignJob job patch (clock w)) /\
    ended jobId T j0 first (updateJob jobId patch w).2.
Proof.
  intros Hw Hp.
  pose proof Hw as (older & job & L & _).
  destruct (live_current n w job Hw L) as [(U1 & U2 & U3 & U4) N].
  destruct (update_written n patch w job Hw L) as (older' & E & L' & J & H & Asc & Us).
  - simpl. destruct Hp as [(_ & -> & _)|(_ & _ & -> & _)]; simpl; lia.
  - exists job. split; [exact L|]. split; [exact E|]. split; [exact L'|].
    exists older', (assignJob job patch (clock w)).
    repeat split; try done; simpl.
    + destruct Hp as [(_ & -> & ->)|(_ & -> & -> & _)]; simpl; lia.
    + destruct Hp as [(_ & _ & ->)|(_ & -> & _)]; simpl; lia.
    + destruct Hp as [(-> & _)|(-> & _ & _ & -> & _)]; simpl; auto.
Qed.

End Records.

Section Patches.

Lemma quiet_statusPatch (s : JobStatus) (msg : jstring) :
  s <> Completed -> quiet (statusPatch s msg).
Proof. intros H. repeat split. simpl. congruence. Qed.

Lemma quiet_fidoConfirmed : quiet fidoConfirmed.
Proof. by repeat split. Qed.

Lemma quiet_tokenRefreshed : quiet tokenRefreshed.
Proof. by repeat split. Qed.

Lemma quiet_periodErrorPatch (p t : nat) (y m : Z) (msg : jstring) :
  quiet (periodErrorPatch p t y m msg).
Proof. by repeat split. Qed.

Lemma quiet_failedPatch (msg : jstring) : quiet (failedPatch msg).
Proof. by repeat split. Qed.

End Patches.

Ltac quiet_tac :=
  match goal with
  | |- quiet fidoConfirmed => exact quiet_fidoConfirmed
  | |- quiet tokenRefreshed => exact quiet_tokenRefreshed
  | |- quiet (periodErrorPatch _ _ _ _ _) => apply quiet_periodErrorPatch
  | |- quiet (failedPatch _) => apply quiet_failedPatch
  | |- quiet (statusPatch _ _) => apply quiet_statusPatch; discriminate
  end.

(** One step of a proof that a piece of the task keeps an invariant [I]
    of the registry, given in the context that the updates keep it. *)
Ltac update_step :=
  match goal with
  | H : forall patch, quiet patch -> lands _ (updateJob _ patch) |- _ =>
    apply H; quiet_tac
  | H : forall patch, lands _ (updateJob _ patch) |- _ => apply H
  end.

Ltac keeps_step :=
  match goal with
  | |- keeps _ (bind _ _) => apply keeps_bind; [|intros ?]
  | |- keeps _ (tryCatch _ _) => apply keeps_tryCatch; [|intros ?]
  | |- keeps _ (exchange _ _) => apply keeps_exchange; assumption
  | |- keeps _ (throw _) => apply keeps_throw
  | |- keeps _ (lift _) => apply keeps_lift
  | |- keeps _ (ret _) => apply lands_keeps, lands_ret
  | |- keeps _ (sleep _ _) => apply lands_keeps, lands_sleep; assumption
  | |- keeps _ now => apply lands_keeps, lands_now
  | |- keeps _ (updateJob _ _) => apply lands_keeps; update_step
  | |- keeps _ (match ?x with _ => _ end) => destruct x
  end.

Ltac lands_step :=
  match goal with
  | |- lands _ (bind _ _) => apply lands_bind; [|intros ?]
  | |- lands _ (tryCatch _ _) => apply lands_tryCatch; [|intros ?]
  | |- lands _ (ret _) => apply lands_ret
  | |- lands _ (sleep _ _) => apply lands_sleep; assumption
  | |- lands _ now => apply lands_now
  | |- lands _ (updateJob _ _) => update_step
  | |- lands _ (match ?x with _ => _ end) => destruct x
  end.

(** The pieces of the task that write nothing but quiet updates, under any
    invariant of the registry those updates keep. *)
Section Pieces.

Context (env : Env) (params : ScrapeParams) (jobId : jstring).
Context (I : World -> Prop) (R : onRegistry I).
Context (U : forall patch, quiet patch -> lands I (updateJob jobId patch)).

Lemma lands_approve (token html : jstring) : lands I (approve env jobId token html).
Proof. unfold approve. repeat lands_step. Qed.

Lemma lands_probeOnce : lands I (probeOnce env jobId).
Proof.
  unfold probeOnce. lands_step; [|lands_step].
  repeat first [apply lands_keeps, lands_approve | keeps_step].
Qed.

Lemma keeps_postLoginProcess (csrf : jstring) : keeps I (postLoginProcess env csrf params).
Proof. unfold postLoginProcess. repeat keeps_step. Qed.

Lemma keeps_submitLogin : keeps I (submitLogin env params jobId).
Proof.
  unfold submitLogin. repeat first [apply keeps_postLoginProcess | keeps_step].
Qed.

Lemma keeps_fetchLatestCsrf : keeps I (fetchLatestCsrf env jobId).
Proof.
  unfold fetchLatestCsrf. keeps_step; [keeps_step|].
  destruct (extractMetaCsrfAndHeader env (body a)) as [token headerName].
  repeat keeps_step.
Qed.

Lemma keeps_fetchPeriod (csrfToken headerName : jstring) (year month : Z) :
  keeps I (fetchPeriod env params jobId csrfToken headerName year month).
Proof.
  unfold fetchPeriod. repeat first [apply keeps_fetchLatestCsrf | keeps_step].
Qed.

(** The try block of a period and its handler. *)
Lemma lands_attempt (csrfToken headerName : jstring) (year month : Z)
    (all : list Txn) (processed totalMonths : nat) :
  lands I
    (tryCatch
       (let! txns <- fetchPeriod env params jobId csrfToken headerName year month;
        ret (all ++ txns))
       (fun msg =>
          updateJob jobId (periodErrorPatch processed totalMonths year month msg);;
          ret all)).
Proof.
  lands_step.
  - keeps_step; [apply keeps_fetchPeriod | keeps_step].
  - repeat lands_step.
Qed.

End Pieces.

Lemma updateJob_returns (jobId : jstring) (patch : Patch) (w : World) :
  updateJob jobId patch w = (Returns tt, (updateJob jobId patch w).2).
Proof. unfold updateJob. by destruct (jobs w !! jobId). Qed.

Section Exchanges.

Context (env : Env).

Lemma bind_exchange {B : Type} (req : Request) (k : Response -> M B) (w : World) :
  bind (exchange env req) k w
  = match outcome (respond env (requests w)) with
    | Ok resp => k resp (exchange env req w).2
    | Throw msg => (Throws msg, (exchange env req w).2)
    end.
Proof. unfold bind, exchange. by destruct (outcome (respond env (requests w))). Qed.

Lemma requests_exchange (req : Request) (w : World) :
  requests (exchange env req w).2 = S (requests w).
Proof. reflexivity. Qed.

Lemma clock_exchange (req : Request) (w : World) :
  clock w <= clock (exchange env req w).2.
Proof. simpl. lia. Qed.

Lemma jobs_exchange (req : Request) (w : World) : jobs (exchange env req w).2 = jobs w.
Proof. reflexivity. Qed.

Lemma journal_exchange (req : Request) (w : World) :
  journal (exchange env req w).2 = journal w.
Proof. reflexivity. Qed.

Lemma sent_exchange (req : Request) (w : World) :
  sent (exchange env req w).2 = sent w ++ [req].
Proof. reflexivity. Qed.

End Exchanges.

Section Polling.

Context (env : Env) (params : ScrapeParams) (jobId : jstring).

Lemma approve_returns (token html : jstring) (v : World) :
  approve env jobId token html v
  = (Returns (Approved token (default DEFAULT_HEADER (extractMetaCsrfAndHeader env html).2)),
     (updateJob jobId fidoConfirmed v).2).
Proof. unfold approve, bind, ret. by rewrite updateJob_returns. Qed.

Lemma clock_updateJob (patch : Patch) (v : World) :
  clock (updateJob jobId patch v).2 = clock v.
Proof. unfold updateJob. by destruct (jobs v !! jobId). Qed.

Lemma requests_updateJob (patch : Patch) (v : World) :
  requests (updateJob jobId patch v).2 = requests v.
Proof. unfold updateJob. by destruct (jobs v !! jobId). Qed.

(** One turn of the loop.  It returns, after one to three exchanges, and
    time does not go back.  When it has found a token, in the page of its
    last exchange, its one write to the registry is the update to
    [fetching]; when it has found none it has written nothing. *)
Lemma probeOnce_turn (w : World) :
  exists probe w',
    probeOnce env jobId w = (Returns probe, w') /\
    clock w <= clock w' /\
    (requests w < requests w' <= requests w + 3)%nat /\
    match probe with
    | Approved token headerName =>
      exists v resp,
        jobs v = jobs w /\ journal v = journal w /\
        w' = (updateJob jobId fidoConfirmed v).2 /\
        outcome (respond env (requests w' - 1)) = Ok resp /\
        truthy (extractMetaCsrf env (body resp)) = Some token /\
        headerName = default DEFAULT_HEADER (extractMetaCsrfAndHeader env (body resp)).2
    | Waiting e =>
      jobs w' = jobs w /\ journal w' = journal w /\ lastProbe env e (requests w')
    end.
Proof.
  unfold probeOnce, tryCatch. rewrite bind_exchange.
  set (w1 := (exchange env getInit w).2).
  assert (clock w <= clock w1) as C1 by apply clock_exchange.
  assert (requests w1 = S (requests w)) as R1 by reflexivity.
  assert (jobs w1 = jobs w /\ journal w1 = journal w) as [J1 H1] by done.
  clearbody w1.
  destruct (outcome (respond env (requests w))) as [r1|e1] eqn:E1.
  2: { exists (Waiting e1), w1. split; [reflexivity|]. split; [exact C1|].
       split; [lia|]. split; [exact J1|]. split; [exact H1|].
       left. exists (requests w). by split. }
  destruct (truthy (extractMetaCsrf env (body r1))) as [t1|] eqn:T1.
  { rewrite approve_returns. eexists _, _. split; [reflexivity|].
    rewrite clock_updateJob, requests_updateJob, R1.
    split; [exact C1|]. split; [lia|].
    exists w1, r1. rewrite ?requests_updateJob, ?R1.
    replace (S (requests w) - 1)%nat with (requests w) by lia.
    repeat split; done. }
  rewrite bind_exchange.
  set (w2 := (exchange env postNotice w1).2).
  assert (clock w1 <= clock w2) as C2 by apply clock_exchange.
  assert (requests w2 = S (requests w1)) as R2 by reflexivity.
  assert (jobs w2 = jobs w1 /\ journal w2 = journal w1) as [J2 H2] by done.
  clearbody w2. rewrite R1 in *.
  destruct (outcome (respond env (S (requests w)))) as [r2|e2] eqn:E2.
  2: { exists (Waiting e2), w2. split; [reflexivity|]. split; [lia|].
       split; [lia|]. split; [congruence|]. split; [congruence|].
       left. exists (S (requests w)). by split. }
  destruct (truthy (extractMetaCsrf env (body r2))) as [t2|] eqn:T2.
  { rewrite approve_returns. eexists _, _. split; [reflexivity|].
    rewrite clock_updateJob, requests_updateJob, R2.
    split; [lia|]. split; [lia|].
    exists w2, r2. rewrite ?requests_updateJob, ?R2.
    replace (S (S (requests w)) - 1)%nat with (S (requests w)) by lia.
    repeat split; try done; congruence. }
  rewrite bind_exchange.
  set (w3 := (exchange env getSuccess w2).2).
  assert (clock w2 <= clock w3) as C3 by apply clock_exchange.
  assert (requests w3 = S (requests w2)) as R3 by reflexivity.
  assert (jobs w3 = jobs w2 /\ journal w3 = journal w2) as [J3 H3] by done.
  clearbody w3. rewrite R2 in *.
  destruct (outcome (respond env (S (S (requests w))))) as [r3|e3] eqn:E3.
  2: { exists (Waiting e3), w3. split; [reflexivity|]. split; [lia|].
       split; [lia|]. split; [congruence|]. split; [congruence|].
       left. exists (S (S (requests w))). by split. }
  destruct (truthy (extractMetaCsrf env (body r3))) as [t3|] eqn:T3.
  { rewrite approve_returns. eexists _, _. split; [reflexivity|].
    rewrite clock_updateJob, requests_updateJob, R3.
    split; [lia|]. split; [lia|].
    exists w3, r3. rewrite ?requests_updateJob, ?R3.
    replace (S (S (S (requests w))) - 1)%nat with (S (S (requests w))) by lia.
    repeat split; try done; congruence. }
  exists (Waiting (pollStatus (statusCode r1) (statusCode r2) (statusCode r3))), w3.
  split; [reflexivity|]. split; [lia|]. split; [lia|].
  split; [congruence|]. split; [congruence|].
  right. exists (requests w), r1, r2, r3. done.
Qed.

End Polling.

Section Waiting.

Context (env : Env) (params : ScrapeParams) (jobId : jstring).
Context (I : World -> Prop) (R : onRegistry I) (P : lands I (probeOnce env jobId)).

Lemma pollLoop_unfold (fuel : nat) (deadline : Z) (lastError : jstring) (w : World) :
  pollLoop fuel env params jobId deadline lastError w
  = if clock w <? deadline then
      match fuel with
      | O => (OutOfFuel, w)
      | S fuel' =>
        match probeOnce env jobId w with
        | (Returns (Approved token headerName), w1) => (Returns (token, headerName), w1)
        | (Returns (Waiting e), w1) =>
          pollLoop fuel' env params jobId deadline e
            (sleep env (Z.max 500 (pollIntervalSeconds params * 1000)) w1).2
        | (Throws msg, w1) => (Throws msg, w1)
        | (OutOfFuel, w1) => (OutOfFuel, w1)
        end
      end
    else (Throws (timedOut lastError), w).
Proof.
  destruct fuel; simpl; unfold bind, now; destruct (clock w <? deadline);
    try reflexivity.
  destruct (probeOnce env jobId w) as [[[token headerName|e]|msg|] w1]; reflexivity.
Qed.

(** The polling loop with fuel for the time that is left: it ends within
    its fuel, and when it throws, it is the timeout, raised with the text of
    the last turn and with the registry untouched. *)
Lemma pollLoop_ends (fuel : nat) (deadline : Z) :
  forall (lastError : jstring) (w : World),
    I w -> deadline - clock w < 500 * Z.of_nat fuel ->
    I (pollLoop fuel env params jobId deadline lastError w).2 /\
    (pollLoop fuel env params jobId deadline lastError w).1 <> OutOfFuel /\
    forall msg,
      (pollLoop fuel env params jobId deadline lastError w).1 = Throws msg ->
      exists e,
        msg = timedOut e /\
        jobs (pollLoop fuel env params jobId deadline lastError w).2 = jobs w /\
        journal (pollLoop fuel env params jobId deadline lastError w).2 = journal w /\
        deadline <= clock (pollLoop fuel env params jobId deadline lastError w).2 /\
        (requests (pollLoop fuel env params jobId deadline lastError w).2 = requests w
         /\ e = lastError
         \/ (requests w
             < requests (pollLoop fuel env params jobId deadline lastError w).2)%nat
            /\ lastProbe env e
                 (requests (pollLoop fuel env params jobId deadline lastError w).2)).
Proof.
  induction fuel as [|fuel IH]; intros lastError w Hw Hfuel;
    rewrite pollLoop_unfold; destruct (Z.ltb_spec (clock w) deadline) as [Lt|Ge];
    try lia;
    try (simpl; split; [exact Hw|]; split; [discriminate|];
         intros msg [= <-]; exists lastError;
         do 2 (split; [reflexivity|]); split; [reflexivity|]; split; [lia | by left]).
  destruct (P w Hw) as [Iw1 _].
  destruct (probeOnce_turn env jobId w) as (probe & w1 & E & C & Rq & Turn).
  rewrite E in *. simpl in Iw1.
  destruct probe as [token headerName|e].
  - simpl. split; [exact Iw1|]. split; discriminate.
  - destruct Turn as (Ej & Eh & Last). destruct Rq as [Rq _].
    set (w2 := (sleep env (Z.max 500 (pollIntervalSeconds params * 1000)) w1).2).
    assert (I w2) as Iw2 by (by apply (R w1)).
    assert (clock w1 + 500 <= clock w2) as C2 by (simpl; lia).
    assert (requests w2 = requests w1) as Rq2 by reflexivity.
    assert (jobs w2 = jobs w1) as Ej2 by reflexivity.
    assert (journal w2 = journal w1) as Eh2 by reflexivity.
    clearbody w2.
    destruct (IH e w2 Iw2) as (Ir & Nf & Th); [lia|].
    split; [exact Ir|]. split; [exact Nf|].
    intros msg Hm. destruct (Th msg Hm) as (e' & -> & Ej' & Eh' & Dl & Cases).
    exists e'. split; [reflexivity|].
    split; [by rewrite Ej', Ej2|]. split; [by rewrite Eh', Eh2|].
    split; [exact Dl|].
    right. destruct Cases as [[Er ->]|[Lr Lp]].
    + rewrite Er, Rq2. split; [exact Rq | exact Last].
    + split; [lia | exact Lp].
Qed.

Lemma pollBudget_enough (t : Z) :
  t + waitAuthSeconds params * 1000 - t < 500 * Z.of_nat (pollBudget params).
Proof. unfold pollBudget. lia. Qed.

Lemma waitForFido_ends (w : World) :
  I w ->
  I (waitForFido env params jobId w).2 /\
  (waitForFido env params jobId w).1 <> OutOfFuel /\
  forall msg,
    (waitForFido env params jobId w).1 = Throws msg ->
    exists e,
      msg = timedOut e /\
      jobs (waitForFido env params jobId w).2 = jobs w /\
      journal (waitForFido env params jobId w).2 = journal w /\
      clock w + waitAuthSeconds params * 1000 <= clock (waitForFido env params jobId w).2 /\
      (requests (waitForFido env params jobId w).2 = requests w /\ e = u "no poll yet"
       \/ (requests w < requests (waitForFido env params jobId w).2)%nat
          /\ lastProbe env e (requests (waitForFido env params jobId w).2)).
Proof.
  intros Hw. unfold waitForFido, bind, now.
  apply pollLoop_ends; [exact Hw | apply pollBudget_enough].
Qed.

End Waiting.

Section Hoare.

Lemma triple_bind_returns {A B : Type} (P : World -> Prop) (m : M A)
    (Pa : A -> World -> Prop) (k : A -> M B) (Q : Outcome B -> World -> Prop) :
  triple P m (fun o w' => exists a, o = Returns a /\ Pa a w') ->
  (forall a, triple (Pa a) (k a) Q) ->
  triple P (bind m k) Q.
Proof.
  intros Hm Hk w Hw. unfold bind. destruct (Hm w Hw) as (a & E & Ha).
  destruct (m w) as [o w']. simpl in *. subst o. by apply Hk.
Qed.

Lemma triple_lands {A : Type} (I : World -> Prop) (m : M A) :
  lands I m -> triple I m (fun o w' => exists a, o = Returns a /\ I w').
Proof. intros H w Hw. destruct (H w Hw) as [Hi [a E]]. eauto. Qed.

End Hoare.

Section Collecting.

Context (env : Env) (params : ScrapeParams) (jobId : jstring) (T : nat)
  (j0 : list (jstring * JobState)) (first : JobState).

(** A loop whose every turn counts [c] more periods. *)
Lemma forEach_counts {X : Type} (c : nat) (body : X -> list Txn * nat -> M (list Txn * nat)) :
  (forall x s n, s.2 = n -> (n + c <= T)%nat ->
     triple (live jobId T j0 first n) (body x s)
       (fun o w' => exists s', o = Returns s' /\ s'.2 = (n + c)%nat
                               /\ live jobId T j0 first (n + c) w')) ->
  forall xs s n, s.2 = n -> (n + c * List.length xs <= T)%nat ->
    triple (live jobId T j0 first n) (forEach xs body s)
      (fun o w' => exists s', o = Returns s' /\ s'.2 = (n + c * List.length xs)%nat
                              /\ live jobId T j0 first (n + c * List.length xs) w').
Proof.
  intros Hb. induction xs as [|x xs IH]; intros s n Hs Hn; simpl.
  - intros w Hw. simpl. exists s. rewrite Nat.mul_0_r, Nat.add_0_r. done.
  - simpl in Hn.
    eapply triple_bind_returns with
      (Pa := fun s' w' => s'.2 = (n + c)%nat /\ live jobId T j0 first (n + c) w').
    + apply Hb; [exact Hs | lia].
    + intros s' w [Hs' Hw].
      replace (n + c * S (List.length xs))%nat with (n + c + c * List.length xs)%nat by lia.
      apply IH; [exact Hs' | lia | exact Hw].
Qed.

Lemma period_counts (csrfToken headerName : jstring) (year month : Z)
    (s : list Txn * nat) (n : nat) :
  s.2 = n -> (n + 1 <= T)%nat ->
  triple (live jobId T j0 first n)
    (period env params jobId T csrfToken headerName year month s)
    (fun o w' => exists s', o = Returns s' /\ s'.2 = (n + 1)%nat
                            /\ live jobId T j0 first (n + 1) w').
Proof.
  destruct s as [all p]. simpl. intros <- Hn. unfold period.
  eapply triple_bind_returns with (Pa := fun _ w' => live jobId T j0 first (p + 1) w').
  { intros w Hw. destruct (update_progress jobId T j0 first p year month Hn w Hw) as [E L].
    exists tt. by split. }
  intros _.
  eapply triple_bind_returns with (Pa := fun _ w' => live jobId T j0 first (p + 1) w').
  { apply triple_lands, lands_attempt;
      [apply live_onRegistry | apply lands_update_quiet]. }
  intros all'.
  eapply triple_bind_returns with (Pa := fun _ w' => live jobId T j0 first (p + 1) w').
  { apply triple_lands, lands_sleep, live_onRegistry. }
  intros _ w Hw. simpl. eauto.
Qed.

Lemma collect_counts (csrfToken headerName : jstring) :
  T = (List.length (years params) * List.length (months params))%nat ->
  triple (live jobId T j0 first 0)
    (collect env params jobId T csrfToken headerName)
    (fun o w' => exists s', o = Returns s' /\ s'.2 = T /\ live jobId T j0 first T w').
Proof.
  intros HT. unfold collect.
  pose proof (forEach_counts (List.length (months params))
    (fun year carried =>
       forEach (months params)
         (fun month carried =>
            period env params jobId T csrfToken headerName year month carried)
         carried)) as Outer.
  intros w Hw.
  destruct (Outer) with (xs := years params) (s := ([] : list Txn, O)) (n := O) (w := w)
    as (s' & E & Hs & Hl); try done; try lia.
  - intros year s n Hs Hn.
    pose proof (forEach_counts 1
      (fun month carried =>
         period env params jobId T csrfToken headerName year month carried)) as Inner.
    intros v Hv.
    destruct Inner with (xs := months params) (s := s) (n := n) (w := v)
      as (s' & E & Hs' & Hl); try done; try lia.
    + intros month s0 n0 Hs0 Hn0. by apply period_counts.
    + exists s'. rewrite Nat.mul_1_l in Hs', Hl. done.
  - exists s'. simpl in Hs, Hl. rewrite Nat.mul_comm, <- HT in Hs, Hl. done.
Qed.

End Collecting.

Section Processing.

Context (env : Env) (params : ScrapeParams) (jobId : jstring) (T : nat)
  (j0 : list (jstring * JobState)) (first : JobState).
Context (HT : T = (List.length (years params) * List.length (months params))%nat).

Lemma keeps_authenticate :
  keeps (live jobId T j0 first 0) (authenticate env params jobId).
Proof.
  unfold authenticate. apply keeps_bind.
  { apply keeps_submitLogin; [apply live_onRegistry | apply lands_update_quiet]. }
  intros _ w Hw.
  destruct (waitForFido_ends env params jobId (live jobId T j0 first 0)
              (live_onRegistry jobId T j0 first 0)
              (lands_probeOnce env jobId _ (live_onRegistry jobId T j0 first 0)
                 (lands_update_quiet jobId T j0 first 0))
              w Hw) as (Hi & Hf & _).
  by split.
Qed.

Lemma processJob_unfold (w : World) :
  processJob env jobId params w
  = match authenticate env params jobId w with
    | (Returns session, w1) =>
      match collect env params jobId T session.1 session.2 w1 with
      | (Returns carried, w2) => updateJob jobId (completedPatch carried.1 T) w2
      | (Throws msg, w2) => updateJob jobId (failedPatch msg) w2
      | (OutOfFuel, w2) => (OutOfFuel, w2)
      end
    | (Throws msg, w1) => updateJob jobId (failedPatch msg) w1
    | (OutOfFuel, w1) => (OutOfFuel, w1)
    end.
Proof.
  unfold processJob, tryCatch, bind. rewrite <- HT.
  destruct (authenticate env params jobId w) as [[session|msg|] w1]; try reflexivity.
  destruct (collect env params jobId T session.1 session.2 w1) as [[carried|msg|] w2];
    try reflexivity.
  by rewrite (updateJob_returns jobId (completedPatch carried.1 T) w2).
Qed.

(** The two ways [processJob] goes on a live job: through the collection to
    the completed record, or from a failed authentication to the failed
    record. *)
Lemma processJob_course (w : World) :
  live jobId T j0 first 0 w ->
  (exists session w1 carried w2,
     authenticate env params jobId w = (Returns session, w1) /\
     collect env params jobId T session.1 session.2 w1 = (Returns carried, w2) /\
     live jobId T j0 first T w2 /\
     processJob env jobId params w = updateJob jobId (completedPatch carried.1 T) w2) \/
  (exists msg w1,
     authenticate env params jobId w = (Throws msg, w1) /\
     live jobId T j0 first 0 w1 /\
     processJob env jobId params w = updateJob jobId (failedPatch msg) w1).
Proof.
  intros Hw. destruct (keeps_authenticate w Hw) as [Hi Hf].
  rewrite processJob_unfold.
  destruct (authenticate env params jobId w) as [[session|msg|] w1] eqn:Ea;
    simpl in Hi, Hf; [| |done].
  - left.
    destruct (collect_counts env params jobId T j0 first session.1 session.2 HT w1 Hi)
      as (carried & Ec & _ & Hl).
    destruct (collect env params jobId T session.1 session.2 w1) as [o w2] eqn:Eo.
    simpl in Ec, Hl. subst o.
    exists session, w1, carried, w2.
    split; [reflexivity|]. split; [exact Eo|]. split; [exact Hl | reflexivity].
  - right. exists msg, w1.
    split; [reflexivity|]. split; [exact Hi | reflexivity].
Qed.

Lemma processJob_ends (w : World) :
  live jobId T j0 first 0 w ->
  processJob env jobId params w = (Returns tt, (processJob env jobId params w).2) /\
  ended jobId T j0 first (processJob env jobId params w).2.
Proof.
  intros Hw.
  destruct (processJob_course w Hw)
    as [(session & w1 & carried & w2 & _ & _ & Hl & ->)|(msg & w1 & _ & Hl & ->)].
  - destruct (update_ends jobId T j0 first T (completedPatch carried.1 T) w2 Hl)
      as (job & _ & E & _ & He); [by left | done].
  - destruct (update_ends jobId T j0 first 0 (failedPatch msg) w1 Hl)
      as (job & _ & E & _ & He); [right; split; [done | apply quiet_failedPatch] | done].
Qed.

End Processing.

Section Starting.

Context (env : Env) (params : ScrapeParams).

Lemma createJob_live (w0 : World) :
  let T := (List.length (years params) * List.length (months params))%nat in
  live (randomUUID env (drawn w0)) T (journal w0)
    (freshJob (randomUUID env (drawn w0)) T (clock w0)) 0
    (createJob env params w0).2.
Proof.
  intros T. exists [], (freshJob (randomUUID env (drawn w0)) T (clock w0)).
  simpl. rewrite lookup_insert_eq. repeat split; try done.
  - repeat constructor.
  - repeat constructor; simpl; lia.
Qed.

(** A whole run, from [startPayrollJob] to the end of the task. *)
Lemma startPayrollJob_ends (w0 : World) :
  let jobId := randomUUID env (drawn w0) in
  let T := (List.length (years params) * List.length (months params))%nat in
  exists snapshot,
    startPayrollJob env params w0
    = (Returns snapshot, (processJob env jobId params (createJob env params w0).2).2) /\
    ended jobId T (journal w0) (freshJob jobId T (clock w0))
      (processJob env jobId params (createJob env params w0).2).2.
Proof.
  intros jobId T.
  destruct (processJob_ends env params jobId T (journal w0) (freshJob jobId T (clock w0))
              eq_refl _ (createJob_live w0)) as [E He].
  eexists. split; [|exact He].
  unfold startPayrollJob, bind, now, tryCatch, ret.
  change (createJob env params w0)
    with (Returns (freshJob jobId T (clock w0)), (createJob env params w0).2).
  cbv iota beta. change (id (freshJob jobId T (clock w0))) with jobId.
  rewrite E. reflexivity.
Qed.

End Starting.

Section Finishing.

Context (env : Env) (params : ScrapeParams) (jobId : jstring) (T : nat)
  (j0 : list (jstring * JobState)) (first : JobState).
Context (HT : T = (List.length (years params) * List.length (months params))%nat).

(** The record a task leaves in the store. *)
Lemma processJob_final (w : World) :
  live jobId T j0 first 0 w ->
  exists final,
    jobs (processJob env jobId params w).2 !! jobId = Some final /\
    ((exists session w1 carried w2,
        authenticate env params jobId w = (Returns session, w1) /\
        collect env params jobId T session.1 session.2 w1 = (Returns carried, w2) /\
        status final = Completed /\
        transactions final = carried.1 /\
        summary final = Some (computeSummary carried.1) /\
        processedMonths final = T) \/
     (exists msg w1,
        authenticate env params jobId w = (Throws msg, w1) /\
        status final = Error /\
        transactions final = [] /\
        message final = u "작업이 실패했습니다: " ++ msg /\
        error final = Some msg /\
        journal (processJob env jobId params w).2 = journal w1 ++ [(jobId, final)])).
Proof.
  intros Hw.
  destruct (processJob_course env params jobId T j0 first HT w Hw)
    as [(session & w1 & carried & w2 & Ea & Ec & Hl & ->)|(msg & w1 & Ea & Hl & ->)].
  - destruct (update_ends jobId T j0 first T (completedPatch carried.1 T) w2 Hl)
      as (job & _ & _ & L & _); [by left|].
    eexists. split; [exact L|]. left.
    exists session, w1, carried, w2. repeat split; done.
  - destruct (update_ends jobId T j0 first 0 (failedPatch msg) w1 Hl)
      as (job & Lj & _ & L & _); [right; split; [done | apply quiet_failedPatch]|].
    destruct (live_current jobId T j0 first 0 w1 job Hl Lj) as [(_ & _ & _ & Tx) _].
    eexists. split; [exact L|]. right.
    exists msg, w1. repeat split; try done.
    unfold updateJob. by rewrite Lj.
Qed.

End Finishing.

Section Histories.

Lemma ended_final (jobId : jstring) (T : nat) (j0 : list (jstring * JobState))
    (first : JobState) (w : World) (final : JobState) :
  ended jobId T j0 first w -> jobs w !! jobId = Some final ->
  exists older,
    journal w = j0 ++ map (pair jobId) (older ++ [final]) /\
    hd_error (older ++ [final]) = Some first /\
    ascending (older ++ [final]) /\
    Forall (unfinished T) older /\
    (processedMonths final <= totalMonths final)%nat /\ totalMonths final = T /\
    (status final = Completed \/ status final = Error /\ transactions final = []).
Proof.
  intros (older & job & L & H) L'. rewrite L in L'. injection L' as ->.
  by exists older.
Qed.

End Histories.

(** X20: for every job, along all the records written for it from its
    creation by [startPayrollJob] (processedMonths = 0) to the end of its
    task, processedMonths never decreases and never exceeds totalMonths
    (which stays the number of periods asked for), and the task ends with the
    job in status completed or error. *)
Theorem processedMonths_monotone_bounded (env : Env) (params : ScrapeParams) (w0 : World) :
  let jobId := randomUUID env (drawn w0) in
  let T := (List.length (years params) * List.length (months params))%nat in
  exists snapshot w' records final,
    startPayrollJob env params w0 = (Returns snapshot, w') /\
    journal w' = journal w0 ++ map (pair jobId) records /\
    hd_error records = Some (freshJob jobId T (clock w0)) /\
    processedMonths (freshJob jobId T (clock w0)) = O /\
    ascending records /\
    Forall (fun job => (processedMonths job <= totalMonths job)%nat /\ totalMonths job = T)
      records /\
    last records = Some final /\
    jobs w' !! jobId = Some final /\
    (status final = Completed \/ status final = Error).
Proof.
  intros jobId T.
  destruct (startPayrollJob_ends env params w0) as (snapshot & E & He).
  fold jobId T in E, He.
  pose proof He as (older0 & final & L & _).
  destruct (ended_final _ _ _ _ _ final He L) as (older & J & H & Asc & U & B1 & B2 & St).
  exists snapshot, (processJob env jobId params (createJob env params w0).2).2,
    (older ++ [final]), final.
  repeat split; try done.
  - apply Forall_app. split.
    + eapply Forall_impl; [exact U|]. intros job (U1 & U2 & _). by split.
    + by repeat constructor.
  - apply last_snoc.
  - destruct St as [St|[St _]]; auto.
Qed.

(** X21: for every job, every record written for it before the last holds
    no transactions and is not completed; the last record is the failed one,
    still without transactions, or the completed one, which holds the whole
    list the collection loop has accumulated; and the snapshot of a job
    carries the transactions if and only if the status is completed. *)
Theorem transactions_only_when_completed (env : Env) (params : ScrapeParams)
    (w0 : World) :
  let jobId := randomUUID env (drawn w0) in
  let T := (List.length (years params) * List.length (months params))%nat in
  (exists snapshot w' older final,
     startPayrollJob env params w0 = (Returns snapshot, w') /\
     journal w' = journal w0 ++ map (pair jobId) (older ++ [final]) /\
     jobs w' !! jobId = Some final /\
     Forall (fun job => isCompleted (status job) = false /\ transactions job = []) older /\
     (status final = Error /\ transactions final = [] \/
      status final = Completed /\
      exists session w1 carried w2,
        authenticate env params jobId (createJob env params w0).2
        = (Returns session, w1) /\
        collect env params jobId T session.1 session.2 w1 = (Returns carried, w2) /\
        transactions final = carried.1)) /\
  (forall job,
     JobSnapshot.transactions (snapshotOf job)
     = if isCompleted (status job) then Some (transactions job) else None) /\
  (forall store someId snap,
     getPayrollJob store someId = Some snap ->
     (is_Some (JobSnapshot.transactions snap) <-> JobSnapshot.status snap = Completed)).
Proof.
  intros jobId T. split; [|split].
  - destruct (startPayrollJob_ends env params w0) as (snapshot & E & He).
    fold jobId T in E, He.
    destruct (processJob_final env params jobId T (journal w0)
                (freshJob jobId T (clock w0)) eq_refl _ (createJob_live env params w0))
      as (final & L & Cases).
    fold jobId T in L, Cases.
    destruct (ended_final _ _ _ _ _ final He L) as (older & J & _ & _ & U & _).
    exists snapshot, (processJob env jobId params (createJob env params w0).2).2,
      older, final.
    split; [exact E|]. split; [exact J|]. split; [exact L|]. split.
    + eapply Forall_impl; [exact U|]. intros job (_ & _ & U3 & U4). by split.
    + destruct Cases as [(session & w1 & carried & w2 & Ea & Ec & St & Tx & _)
                        |(msg & w1 & _ & St & Tx & _)].
      * right. split; [exact St|]. by exists session, w1, carried, w2.
      * by left.
  - reflexivity.
  - intros store someId snap. unfold getPayrollJob, toSnapshot.
    destruct (store !! someId) as [job|]; [|discriminate].
    intros [= <-]. simpl. destruct (status job); simpl; split;
      try done; try (by intros [? ?]); eauto.
Qed.

(* ===================================================================== *)
(** * The task and the rest of the registry *)
(* ===================================================================== *)

(** The task under an invariant of the registry that every update of its
    job keeps. *)
Section Stable.

Context (env : Env) (params : ScrapeParams) (jobId : jstring).
Context (I : World -> Prop) (R : onRegistry I).
Context (U : forall patch, lands I (updateJob jobId patch)).

Lemma keeps_waitForFido : keeps I (waitForFido env params jobId).
Proof.
  intros w Hw.
  destruct (waitForFido_ends env params jobId I R
              (lands_probeOnce env jobId I R (fun patch _ => U patch)) w Hw)
    as (Hi & Hf & _).
  by split.
Qed.

Lemma keeps_authenticate_stable : keeps I (authenticate env params jobId).
Proof.
  unfold authenticate. apply keeps_bind; [|intros _; apply keeps_waitForFido].
  apply keeps_submitLogin; [exact R | intros patch _; apply U].
Qed.

Lemma lands_period (totalMonths : nat) (csrfToken headerName : jstring) (year month : Z)
    (carried : list Txn * nat) :
  lands I (period env params jobId totalMonths csrfToken headerName year month carried).
Proof.
  destruct carried as [all processed]. unfold period.
  lands_step; [apply U|].
  lands_step; [apply lands_attempt; [exact R | intros patch _; apply U]|].
  repeat lands_step.
Qed.

Lemma lands_collect (totalMonths : nat) (csrfToken headerName : jstring) :
  lands I (collect env params jobId totalMonths csrfToken headerName).
Proof.
  unfold collect. apply lands_forEach. intros year carried.
  apply lands_forEach. intros month carried'. apply lands_period.
Qed.

Lemma lands_processJob : lands I (processJob env jobId params).
Proof.
  unfold processJob. apply lands_tryCatch; [|intros msg; apply U].
  apply keeps_bind; [apply keeps_authenticate_stable|]. intros session.
  apply keeps_bind; [apply lands_keeps, lands_collect|]. intros carried.
  apply lands_keeps, U.
Qed.

End Stable.

Section Bystanders.

Context (jobId : jstring).

Lemma othersAsIn_onRegistry (store : gmap jstring JobState) :
  onRegistry (othersAsIn jobId store).
Proof. intros w w' Ej _ H other N. rewrite Ej. by apply H. Qed.

Lemma othersAsIn_update (store : gmap jstring JobState) (patch : Patch) :
  lands (othersAsIn jobId store) (updateJob jobId patch).
Proof.
  intros w Hw. rewrite updateJob_returns. simpl. split; [|eauto].
  intros other N. unfold updateJob. destruct (jobs w !! jobId); simpl; [|by apply Hw].
  rewrite lookup_insert_ne by done. by apply Hw.
Qed.

Lemma known_onRegistry : onRegistry (known jobId).
Proof. intros w w' Ej _ H. unfold known. by rewrite Ej. Qed.

Lemma known_update (patch : Patch) : lands (known jobId) (updateJob jobId patch).
Proof.
  intros w [job Hw]. rewrite updateJob_returns. simpl. split; [|eauto].
  unfold known, updateJob. rewrite Hw. simpl. rewrite lookup_insert_eq. eauto.
Qed.

Lemma registryIs_onRegistry (store : gmap jstring JobState)
    (j : list (jstring * JobState)) : onRegistry (registryIs store j).
Proof. intros w w' Ej Eh [H1 H2]. split; congruence. Qed.

Lemma registryIs_update (store : gmap jstring JobState) (j : list (jstring * JobState))
    (patch : Patch) :
  store !! jobId = None -> lands (registryIs store j) (updateJob jobId patch).
Proof.
  intros N w [H1 H2]. rewrite updateJob_returns. simpl. split; [|eauto].
  unfold updateJob. rewrite H1, N. by split.
Qed.

End Bystanders.

(** X1: [processJob] always returns: whatever the portal answers and
    whether or not its job is in the store, the task neither throws nor runs
    on for ever (so the [.catch] of [startPayrollJob] never fires); and it
    leaves every job other than its own as it found it. *)
Theorem processJob_returns_and_spares_others (env : Env) (jobId : jstring)
    (params : ScrapeParams) (w : World) :
  exists w',
    processJob env jobId params w = (Returns tt, w') /\
    forall other, other <> jobId -> jobs w' !! other = jobs w !! other.
Proof.
  destruct (lands_processJob env params jobId (othersAsIn jobId (jobs w))
              (othersAsIn_onRegistry jobId (jobs w))
              (othersAsIn_update jobId (jobs w)) w) as [H [[] E]].
  { by intros other _. }
  exists (processJob env jobId params w).2. split; [|exact H].
  destruct (processJob env jobId params w). simpl in *. by subst.
Qed.

(** X2: a task whose job is not in the store (it has been evicted) writes
    nothing: the store and the journal are left as they were, and the job is
    never created again. *)
Theorem processJob_never_creates (env : Env) (jobId : jstring) (params : ScrapeParams)
    (w : World) :
  jobs w !! jobId = None ->
  exists w',
    processJob env jobId params w = (Returns tt, w') /\
    jobs w' = jobs w /\ journal w' = journal w.
Proof.
  intros N.
  destruct (lands_processJob env params jobId (registryIs (jobs w) (journal w))
              (registryIs_onRegistry (jobs w) (journal w))
              (fun patch => registryIs_update jobId (jobs w) (journal w) patch N) w)
    as [[H1 H2] [[] E]].
  { by split. }
  exists (processJob env jobId params w).2. split; [|by split].
  destruct (processJob env jobId params w). simpl in *. by subst.
Qed.

Lemma processJob_never_creates_witness :
  exists w',
    processJob (scripted [replied "T login"; replied "ok"; replied "T approved";
                          replied "{}"; replied "{}"])
      (u "gone") twoMonths (worldAt 0 twoJobs) = (Returns tt, w') /\
    jobs w' = twoJobs /\ journal w' = [].
Proof.
  apply (processJob_never_creates _ (u "gone") twoMonths (worldAt 0 twoJobs)).
  by vm_compute.
Defined.

(* ===================================================================== *)
(** * The wait for the approval *)
(* ===================================================================== *)

Section Approval.

Context (env : Env) (params : ScrapeParams) (jobId : jstring).

(** The loop, whatever its fuel: time does not go back, a turn costs at
    most three exchanges, and when the loop returns a token it is the token of
    the page it has just read, and the update to [fetching] is all it has
    written. *)
Lemma pollLoop_course (fuel : nat) (deadline : Z) :
  forall (lastError : jstring) (w : World),
    clock w <= clock (pollLoop fuel env params jobId deadline lastError w).2 /\
    (requests (pollLoop fuel env params jobId deadline lastError w).2
     <= requests w + 3 * fuel)%nat /\
    forall token headerName,
      (pollLoop fuel env params jobId deadline lastError w).1
      = Returns (token, headerName) ->
      exists v resp,
        jobs v = jobs w /\ journal v = journal w /\
        (pollLoop fuel env params jobId deadline lastError w).2
        = (updateJob jobId fidoConfirmed v).2 /\
        outcome (respond env
                   (requests (pollLoop fuel env params jobId deadline lastError w).2 - 1))
        = Ok resp /\
        truthy (extractMetaCsrf env (body resp)) = Some token /\
        headerName = default DEFAULT_HEADER (extractMetaCsrfAndHeader env (body resp)).2.
Proof.
  induction fuel as [|fuel IH]; intros lastError w; rewrite pollLoop_unfold;
    destruct (clock w <? deadline);
    try (simpl; split; [lia|]; split; [lia|]; intros ? ? [=]).
  destruct (probeOnce_turn env jobId w) as (probe & w1 & E & C & Rq & Turn).
  rewrite E. destruct probe as [token headerName|e].
  - simpl. split; [exact C|]. split; [lia|].
    intros ? ? [= <- <-]. destruct Turn as (v & resp & H). by exists v, resp.
  - destruct Turn as (Ej & Eh & _).
    set (w2 := (sleep env (Z.max 500 (pollIntervalSeconds params * 1000)) w1).2).
    assert (clock w1 <= clock w2) as C2 by (simpl; lia).
    assert (requests w2 = requests w1) as Rq2 by reflexivity.
    assert (jobs w2 = jobs w1 /\ journal w2 = journal w1) as [Ej2 Eh2] by done.
    clearbody w2.
    destruct (IH e w2) as (Ck & Rk & Ret).
    split; [lia|]. split; [lia|].
    intros token headerName Hr.
    destruct (Ret token headerName Hr) as (v & resp & Jv & Hv & H).
    exists v, resp. split; [congruence|]. split; [congruence | exact H].
Qed.

Lemma truthy_Some (s : option jstring) (t : jstring) :
  truthy s = Some t -> s = Some t /\ t <> [].
Proof. destruct s as [[|c r]|]; simpl; intros [= <-]; by split. Qed.

End Approval.



(** X4: when [waitForFido] returns, the token it returns is the trimmed,
    non-empty token of the page it has read last, the header name is the one
    of that page or "X-CSRF-TOKEN" when the page names none, and all it has
    written to the registry is one update of its job, to status [fetching],
    which leaves the counts and the transactions of the job as they were. *)
Theorem waitForFido_approved (env : Env) (params : ScrapeParams) (jobId : jstring)
    (w w' : World) (token headerName : jstring) :
  waitForFido env params jobId w = (Returns (token, headerName), w') ->
  token <> [] /\ trim token = token /\
  exists v resp,
    outcome (respond env (requests w' - 1)) = Ok resp /\
    extractMetaCsrf env (body resp) = Some token /\
    headerName = default DEFAULT_HEADER (extractMetaCsrfAndHeader env (body resp)).2 /\
    jobs v = jobs w /\ journal v = journal w /\
    w' = (updateJob jobId fidoConfirmed v).2 /\
    forall job,
      jobs w !! jobId = Some job ->
      jobs w' !! jobId = Some (assignJob job fidoConfirmed (clock v)) /\
      status (assignJob job fidoConfirmed (clock v)) = Fetching /\
      processedMonths (assignJob job fidoConfirmed (clock v)) = processedMonths job /\
      transactions (assignJob job fidoConfirmed (clock v)) = transactions job.
Proof.
  unfold waitForFido, bind, now. intros H.
  destruct (pollLoop_course env params jobId (pollBudget params)
              (clock w + waitAuthSeconds params * 1000) (u "no poll yet") w)
    as (_ & _ & Ret).
  rewrite H in Ret. simpl in Ret. destruct (Ret token headerName eq_refl)
    as (v & resp & Jv & Hv & Ew & O & Tk & Eh). subst w' headerName.
  apply truthy_Some in Tk as [Tk Ne].
  split; [exact Ne|]. split.
  { unfold extractMetaCsrf in Tk.
    destruct (metaContent env (u "_csrf") (body resp)); [|discriminate].
    injection Tk as <-. apply trim_idem. }
  exists v, resp. do 6 (split; [done|]).
  intros job L. split; [|done].
  unfold updateJob. rewrite Jv, L. simpl. apply lookup_insert_eq.
Qed.

Lemma waitForFido_approved_witness :
  exists w',
    waitForFido (scripted [replied "T approved"]) twoMonths (u "a") (worldAt 0 twoJobs)
    = (Returns (u "tok", DEFAULT_HEADER), w') /\
    u "tok" <> [] /\
    (status <$> jobs w' !! u "a") = Some Fetching.
Proof.
  eexists. split; [vm_compute; reflexivity|].
  edestruct (waitForFido_approved (scripted [replied "T approved"]) twoMonths (u "a")
               (worldAt 0 twoJobs)) as (Ne & _ & _); [vm_compute; reflexivity|].
  split; [exact Ne | by vm_compute].
Defined.

(** X5: when the login has been submitted for a job of the store and
    [waitForFido] throws, it throws the timeout, not before the deadline, with
    the text of the last turn for a last status (the error of the exchange
    that failed, or the three status codes, or "no poll yet" when no turn was
    taken), and without a write to the registry; [processJob] then returns
    with the job in status [error], the message of the timeout in its message
    and in its error, and this record the only one written since the login. *)
Theorem approval_timeout (env : Env) (params : ScrapeParams) (jobId : jstring)
    (w w1 w2 : World) (msg : jstring) :
  known jobId w ->
  submitLogin env params jobId w = (Returns tt, w1) ->
  waitForFido env params jobId w1 = (Throws msg, w2) ->
  exists e job,
    msg = timedOut e /\
    (requests w2 = requests w1 /\ e = u "no poll yet" \/
     (requests w1 < requests w2)%nat /\ lastProbe env e (requests w2)) /\
    clock w1 + waitAuthSeconds params * 1000 <= clock w2 /\
    jobs w2 = jobs w1 /\ journal w2 = journal w1 /\
    jobs w1 !! jobId = Some job /\
    processJob env jobId params w = (Returns tt, (updateJob jobId (failedPatch msg) w2).2) /\
    jobs (updateJob jobId (failedPatch msg) w2).2 !! jobId
    = Some (assignJob job (failedPatch msg) (clock w2)) /\
    status (assignJob job (failedPatch msg) (clock w2)) = Error /\
    message (assignJob job (failedPatch msg) (clock w2))
    = u "작업이 실패했습니다: " ++ timedOut e /\
    error (assignJob job (failedPatch msg) (clock w2)) = Some (timedOut e) /\
    journal (updateJob jobId (failedPatch msg) w2).2
    = journal w1 ++ [(jobId, assignJob job (failedPatch msg) (clock w2))].
Proof.
  intros K Hl Hf.
  assert (known jobId w1) as K1.
  { destruct (keeps_submitLogin env params jobId (known jobId) (known_onRegistry jobId)
                (fun patch _ => known_update jobId patch) w K) as [H _].
    by rewrite Hl in H. }
  destruct (waitForFido_ends env params jobId (known jobId) (known_onRegistry jobId)
              (lands_probeOnce env jobId _ (known_onRegistry jobId)
                 (fun patch _ => known_update jobId patch)) w1 K1) as (_ & _ & Th).
  rewrite Hf in Th. simpl in Th.
  destruct (Th msg eq_refl) as (e & -> & Ej & Eh & Dl & Cases).
  destruct K1 as [job L]. exists e, job.
  do 6 (split; [done|]).
  assert (jobs w2 !! jobId = Some job) as L2 by (by rewrite Ej).
  split.
  { rewrite (processJob_unfold env params jobId _ eq_refl).
    unfold authenticate, bind. rewrite Hl, Hf. apply updateJob_returns. }
  unfold updateJob. rewrite L2. simpl. rewrite lookup_insert_eq, Eh. done.
Qed.

Lemma approval_timeout_witness :
  exists w1 w2 e job,
    submitLogin (scripted [replied "T login"; replied "ok"; replied "wait"]) twoMonths
      (u "a") (worldAt 0 twoJobs) = (Returns tt, w1) /\
    waitForFido (scripted [replied "T login"; replied "ok"; replied "wait"]) twoMonths
      (u "a") w1 = (Throws (timedOut e), w2) /\
    e = u "ECONNRESET" /\
    jobs (updateJob (u "a") (failedPatch (timedOut e)) w2).2 !! u "a"
    = Some (assignJob job (failedPatch (timedOut e)) (clock w2)) /\
    status (assignJob job (failedPatch (timedOut e)) (clock w2)) = Error.
Proof.
  eexists _, _, _, _.
  split; [vm_compute; reflexivity|].
  split; [vm_compute; reflexivity|].
  split; [reflexivity|].
  edestruct (approval_timeout (scripted [replied "T login"; replied "ok"; replied "wait"])
               twoMonths (u "a") (worldAt 0 twoJobs))
    as (e & job & E & _ & _ & _ & _ & L & _ & Lf & St & _);
    [by eexists; vm_compute | vm_compute; reflexivity | vm_compute; reflexivity |].
  vm_compute in L. injection L as <-.
  split; [exact Lf | exact St].
Defined.

(* ===================================================================== *)
(** * One period *)
(* ===================================================================== *)

Section Frames.

Context (env : Env) (jobId : jstring).

(** An update touches the registry only. *)
Lemma updateJob_frame (patch : Patch) (w : World) :
  clock (updateJob jobId patch w).2 = clock w /\
  requests (updateJob jobId patch w).2 = requests w /\
  naps (updateJob jobId patch w).2 = naps w /\
  sent (updateJob jobId patch w).2 = sent w.
Proof. unfold updateJob. by destruct (jobs w !! jobId). Qed.

Lemma updateJob_message (patch : Patch) (msg : jstring) (w : World) :
  p_message patch = Some msg -> known jobId w ->
  known jobId (updateJob jobId patch w).2 /\
  messageOf jobId (updateJob jobId patch w).2 = Some msg.
Proof.
  intros Hp [job L]. unfold known, messageOf, updateJob. rewrite L. simpl.
  rewrite lookup_insert_eq. simpl. rewrite Hp. eauto.
Qed.

Lemma known_frame (w w' : World) : jobs w' = jobs w -> known jobId w -> known jobId w'.
Proof. unfold known. by intros ->. Qed.

Lemma messageOf_frame (w w' : World) :
  jobs w' = jobs w -> messageOf jobId w' = messageOf jobId w.
Proof. unfold messageOf. by intros ->. Qed.

End Frames.

Section Period.

Context (env : Env) (params : ScrapeParams) (jobId : jstring).

Lemma lift_decode (year month : Z) (text : jstring) (w : World) :
  (let! payload <- lift (parseJson env text);
   let! rows <- lift (payDetails payload);
   lift (normalizeDetails year month rows)) w
  = lift (decode env year month text) w.
Proof.
  unfold decode, bind, lift, rbind.
  destruct (parseJson env text) as [payload|msg]; [|reflexivity]. simpl.
  destruct (payDetails payload) as [rows|msg]; reflexivity.
Qed.

Lemma fetchLatestCsrf_unfold (w : World) :
  fetchLatestCsrf env jobId w
  = match outcome (respond env (requests w)) with
    | Throw msg => (Throws msg, (exchange env getInit w).2)
    | Ok resp =>
      match truthy (extractMetaCsrf env (body resp)) with
      | None => (Throws noToken, (exchange env getInit w).2)
      | Some token =>
        (Returns (token,
                  default DEFAULT_HEADER (extractMetaCsrfAndHeader env (body resp)).2),
         (updateJob jobId tokenRefreshed (exchange env getInit w).2).2)
      end
    end.
Proof.
  unfold fetchLatestCsrf. rewrite bind_exchange.
  destruct (outcome (respond env (requests w))) as [resp|msg]; [|reflexivity].
  unfold extractMetaCsrfAndHeader, extractMetaCsrf.
  destruct (truthy _); [|reflexivity].
  unfold bind, ret. by rewrite updateJob_returns.
Qed.

Lemma fetchPeriod_unfold (csrfToken headerName : jstring) (year month : Z) (w : World) :
  fetchPeriod env params jobId csrfToken headerName year month w
  = let w1 :=
      (exchange env (postDetails (pernr params) year month csrfToken headerName) w).2 in
    match outcome (respond env (requests w)) with
    | Throw msg => (Throws msg, w1)
    | Ok resp =>
      if isHtml (body resp) then
        match fetchLatestCsrf env jobId w1 with
        | (Returns refreshed, w2) =>
          let w3 :=
            (exchange env
               (postDetails (pernr params) year month refreshed.1 refreshed.2) w2).2 in
          match outcome (respond env (requests w2)) with
          | Throw msg => (Throws msg, w3)
          | Ok retry =>
            if isHtml (body retry) then (Throws htmlReturned, w3)
            else lift (decode env year month (body retry)) w3
          end
        | (Throws msg, w2) => (Throws msg, w2)
        | (OutOfFuel, w2) => (OutOfFuel, w2)
        end
      else lift (decode env year month (body resp)) w1
    end.
Proof.
  unfold fetchPeriod. rewrite bind_exchange. cbv zeta.
  destruct (outcome (respond env (requests w))) as [resp|msg]; [|reflexivity].
  unfold bind at 1.
  destruct (isHtml (body resp)).
  - unfold bind at 1.
    destruct (fetchLatestCsrf env jobId _) as [[refreshed|msg|] w2]; try reflexivity.
    rewrite bind_exchange.
    destruct (outcome (respond env (requests w2))) as [retry|msg]; [|reflexivity].
    destruct (isHtml (body retry)); [reflexivity|].
    unfold ret. apply lift_decode.
  - unfold ret. apply lift_decode.
Qed.

Lemma period_unfold (totalMonths : nat) (csrfToken headerName : jstring)
    (year month : Z) (all : list Txn) (n : nat) (w : World) :
  period env params jobId totalMonths csrfToken headerName year month (all, n) w
  = match fetchPeriod env params jobId csrfToken headerName year month
            (updateJob jobId (progressPatch (n + 1) totalMonths year month) w).2 with
    | (Returns txns, w1) => (Returns (all ++ txns, (n + 1)%nat), (sleep env 200 w1).2)
    | (Throws msg, w1) =>
      (Returns (all, (n + 1)%nat),
       (sleep env 200
          (updateJob jobId (periodErrorPatch (n + 1) totalMonths year month msg) w1).2).2)
    | (OutOfFuel, w1) => (OutOfFuel, w1)
    end.
Proof.
  unfold period, tryCatch, bind.
  rewrite (updateJob_returns jobId (progressPatch (n + 1) totalMonths year month) w).
  cbn [fst snd].
  destruct (fetchPeriod _ _ _ _ _ _ _ _) as [[txns|msg|] w1]; try reflexivity.
  by rewrite (updateJob_returns jobId (periodErrorPatch (n + 1) totalMonths year month msg) w1).
Qed.

End Period.

Section Pace.

Context (env : Env) (params : ScrapeParams) (jobId : jstring).







End Pace.



Section Sessions.

Context (env : Env) (params : ScrapeParams) (jobId : jstring).

(** What a poll reads after a period, from what its [try] block did. *)
Lemma period_report (totalMonths : nat) (csrfToken headerName : jstring)
    (year month : Z) (all : list Txn) (n : nat) (w : World) :
  known jobId w ->
  let w0 := (updateJob jobId (progressPatch (n + 1) totalMonths year month) w).2 in
  known jobId w0 /\
  messageOf jobId w0 = Some (progressMessage (n + 1) totalMonths year month) /\
  requests w0 = requests w /\ sent w0 = sent w /\
  forall w1,
    known jobId w1 ->
    (forall txns,
       fetchPeriod env params jobId csrfToken headerName year month w0
       = (Returns txns, w1) ->
       exists w',
         period env params jobId totalMonths csrfToken headerName year month (all, n) w
         = (Returns (all ++ txns, (n + 1)%nat), w') /\
         requests w' = requests w1 /\ sent w' = sent w1 /\
         messageOf jobId w' = messageOf jobId w1) /\
    (forall msg,
       fetchPeriod env params jobId csrfToken headerName year month w0
       = (Throws msg, w1) ->
       exists w',
         period env params jobId totalMonths csrfToken headerName year month (all, n) w
         = (Returns (all, (n + 1)%nat), w') /\
         requests w' = requests w1 /\ sent w' = sent w1 /\
         messageOf jobId w'
         = Some (periodError (n + 1) totalMonths year month msg)).
Proof.
  intros K w0.
  destruct (updateJob_message jobId (progressPatch (n + 1) totalMonths year month)
              _ w eq_refl K) as [K0 M0].
  destruct (updateJob_frame jobId (progressPatch (n + 1) totalMonths year month) w)
    as (_ & R0 & _ & S0).
  do 4 (split; [done|]).
  intros w1 K1. split.
  - intros txns E. rewrite period_unfold. fold w0. rewrite E.
    eexists. split; [reflexivity|]. done.
  - intros msg E. rewrite period_unfold. fold w0. rewrite E.
    eexists. split; [reflexivity|].
    destruct (updateJob_message jobId
                (periodErrorPatch (n + 1) totalMonths year month msg) _ w1 eq_refl K1)
      as [_ M1].
    destruct (updateJob_frame jobId
                (periodErrorPatch (n + 1) totalMonths year month msg) w1)
      as (_ & R1 & _ & S1).
    done.
Qed.

End Sessions.

(** X7: a period whose request is answered by something other than an
    HTML page makes that one exchange and no other.  If the answer decodes,
    its transactions are appended and a poll goes on reading the progress
    text; if it does not, the transactions are as they were and a poll reads
    the error of the period.  Either way the count goes up by one. *)
Theorem period_fresh_session (env : Env) (params : ScrapeParams) (jobId : jstring)
    (totalMonths : nat) (csrfToken headerName : jstring) (year month : Z)
    (all : list Txn) (n : nat) (w : World) (resp : Response) :
  known jobId w ->
  outcome (respond env (requests w)) = Ok resp ->
  isHtml (body resp) = false ->
  exists w',
    period env params jobId totalMonths csrfToken headerName year month (all, n) w
    = (Returns (match decode env year month (body resp) with
                | Ok txns => all ++ txns
                | Throw _ => all
                end, (n + 1)%nat), w') /\
    requests w' = S (requests w) /\
    sent w' = sent w ++ [postDetails (pernr params) year month csrfToken headerName] /\
    messageOf jobId w'
    = Some (match decode env year month (body resp) with
            | Ok _ => progressMessage (n + 1) totalMonths year month
            | Throw msg => periodError (n + 1) totalMonths year month msg
            end).
Proof.
  intros K H1 H2.
  destruct (period_report env params jobId totalMonths csrfToken headerName year month
              all n w K) as (K0 & M0 & R0 & S0 & Rep).
  set (w0 := (updateJob jobId (progressPatch (n + 1) totalMonths year month) w).2) in *.
  clearbody w0.
  set (w1 := (exchange env (postDetails (pernr params) year month csrfToken headerName)
                w0).2).
  assert (fetchPeriod env params jobId csrfToken headerName year month w0
          = lift (decode env year month (body resp)) w1) as E.
  { rewrite fetchPeriod_unfold. cbv zeta. by rewrite R0, H1, H2. }
  assert (known jobId w1) as K1 by done.
  destruct (Rep w1 K1) as [Good Bad].
  destruct (decode env year month (body resp)) as [txns|msg].
  - destruct (Good txns E) as (w' & -> & R & S & M). exists w'.
    split; [done|]. rewrite R, S, M. subst w1. simpl. by rewrite R0, S0.
  - destruct (Bad msg E) as (w' & -> & R & S & M). exists w'.
    split; [done|]. rewrite R, S, M. subst w1. simpl. by rewrite R0, S0.
Qed.

Lemma period_fresh_session_witness :
  exists w',
    period (scripted [replied "{}"]) twoMonths (u "a") 2 (u "tok") (u "X-CSRF-TOKEN")
      2024 1 ([], O) (worldAt 0 twoJobs)
    = (Returns (match decode (scripted [replied "{}"]) 2024 1 (u "{}") with
                | Ok txns => [] ++ txns
                | Throw _ => []
                end, 1%nat), w') /\
    requests w' = 1%nat.
Proof.
  destruct (period_fresh_session (scripted [replied "{}"]) twoMonths (u "a") 2 (u "tok")
              (u "X-CSRF-TOKEN") 2024 1 [] O (worldAt 0 twoJobs)
              {| statusCode := 200; body := u "{}" |})
    as (w' & E & R & _);
    [by eexists; vm_compute | reflexivity | vm_compute; reflexivity |].
  exists w'. split; [exact E | exact R].
Defined.


(** X8: a period whose request is answered by an HTML page asks for the
    page that carries the token, and, when that page has one and the second
    attempt is answered by something that decodes, the second attempt is made
    with the new token and header name, its transactions are appended, and a
    poll is left reading that the token was renewed: three exchanges in this
    order and no more. *)
Theorem period_recovers_stale_session (env : Env) (params : ScrapeParams)
    (jobId : jstring) (totalMonths : nat) (csrfToken headerName : jstring)
    (year month : Z) (all : list Txn) (n : nat) (w : World)
    (resp page retry : Response) (token : jstring) (txns : list Txn) :
  known jobId w ->
  outcome (respond env (requests w)) = Ok resp ->
  isHtml (body resp) = true ->
  outcome (respond env (S (requests w))) = Ok page ->
  truthy (extractMetaCsrf env (body page)) = Some token ->
  outcome (respond env (S (S (requests w)))) = Ok retry ->
  isHtml (body retry) = false ->
  decode env year month (body retry) = Ok txns ->
  exists w',
    period env params jobId totalMonths csrfToken headerName year month (all, n) w
    = (Returns (all ++ txns, (n + 1)%nat), w') /\
    requests w' = S (S (S (requests w))) /\
    sent w'
    = sent w ++
      [postDetails (pernr params) year month csrfToken headerName;
       getInit;
       postDetails (pernr params) year month token
         (default DEFAULT_HEADER (extractMetaCsrfAndHeader env (body page)).2)] /\
    messageOf jobId w' = p_message tokenRefreshed.
Proof.
  intros K H1 H2 H3 H4 H5 H6 H7.
  destruct (period_report env params jobId totalMonths csrfToken headerName year month
              all n w K) as (K0 & M0 & R0 & S0 & Rep).
  set (w0 := (updateJob jobId (progressPatch (n + 1) totalMonths year month) w).2) in *.
  clearbody w0.
  pose proof (requests_exchange env
                (postDetails (pernr params) year month csrfToken headerName) w0) as R1.
  pose proof (sent_exchange env
                (postDetails (pernr params) year month csrfToken headerName) w0) as S1.
  pose proof (known_frame jobId w0 _ (jobs_exchange env
                (postDetails (pernr params) year month csrfToken headerName) w0) K0) as K1.
  set (w1 := (exchange env (postDetails (pernr params) year month csrfToken headerName)
                w0).2) in *.
  pose proof (requests_exchange env getInit w1) as R2.
  pose proof (sent_exchange env getInit w1) as S2.
  pose proof (known_frame jobId w1 _ (jobs_exchange env getInit w1) K1) as K2.
  set (w2 := (exchange env getInit w1).2) in *.
  destruct (updateJob_message jobId tokenRefreshed _ w2 eq_refl K2) as [K3 M3].
  destruct (updateJob_frame jobId tokenRefreshed w2) as (_ & R3 & _ & S3).
  set (w3 := (updateJob jobId tokenRefreshed w2).2) in *.
  set (header := default DEFAULT_HEADER (extractMetaCsrfAndHeader env (body page)).2).
  pose proof (requests_exchange env
                (postDetails (pernr params) year month token header) w3) as R4.
  pose proof (sent_exchange env
                (postDetails (pernr params) year month token header) w3) as S4.
  pose proof (known_frame jobId w3 _ (jobs_exchange env
                (postDetails (pernr params) year month token header) w3) K3) as K4.
  pose proof (messageOf_frame jobId w3 _ (jobs_exchange env
                (postDetails (pernr params) year month token header) w3)) as M4.
  set (w4 := (exchange env (postDetails (pernr params) year month token header) w3).2)
    in *.
  rewrite R0 in R1. rewrite R1 in R2. rewrite R2 in R3. rewrite R3 in R4.
  assert (fetchPeriod env params jobId csrfToken headerName year month w0
          = (Returns txns, w4)) as E.
  { rewrite fetchPeriod_unfold. cbv zeta. rewrite R0, H1, H2.
    fold w1. rewrite fetchLatestCsrf_unfold, R1, H3, H4. fold w2 w3. cbn [fst snd].
    rewrite R3, H5, H6. fold header w4. by rewrite H7. }
  clearbody w1 w2 w3 w4.
  destruct (Rep w4 K4) as [Good _].
  destruct (Good txns E) as (w' & -> & R & S & M). exists w'.
  split; [done|]. rewrite R, S, M.
  split; [done|]. split; [|by rewrite M4].
  by rewrite S4, S3, S2, S1, S0, <- !app_assoc.
Qed.

Lemma period_recovers_stale_session_witness :
  exists w' txns,
    period (scripted [replied "<html>login</html>"; replied "T page"; replied "{}"])
      twoMonths (u "a") 2 (u "old") (u "X-CSRF-TOKEN") 2024 1 ([], O)
      (worldAt 0 twoJobs)
    = (Returns ([] ++ txns, 1%nat), w') /\
    requests w' = 3%nat /\ List.length txns = 1%nat.
Proof.
  destruct (period_recovers_stale_session
              (scripted [replied "<html>login</html>"; replied "T page"; replied "{}"])
              twoMonths (u "a") 2 (u "old") (u "X-CSRF-TOKEN") 2024 1 [] O
              (worldAt 0 twoJobs)
              {| statusCode := 200; body := u "<html>login</html>" |}
              {| statusCode := 200; body := u "T page" |}
              {| statusCode := 200; body := u "{}" |}
              (u "tok")
              ltac:(let t := eval vm_compute in
                      (match decode (scripted []) 2024 1 (u "{}") with
                       | Ok t => t
                       | Throw _ => []
                       end) in exact t))
    as (w' & E & R & _);
    [by eexists; vm_compute | reflexivity | vm_compute; reflexivity | reflexivity
    | vm_compute; reflexivity | reflexivity | vm_compute; reflexivity
    | vm_compute; reflexivity |].
  eexists w', _. split; [exact E|]. split; [exact R | reflexivity].
Defined.

(** X9: a period whose request is answered by an HTML page and whose
    recovery fails leaves the transactions as they were, counts the period
    all the same, makes three exchanges at most, and leaves a poll reading
    the error of the period with the reason of the failure. *)
Theorem period_stale_session_lost (env : Env) (params : ScrapeParams)
    (jobId : jstring) (totalMonths : nat) (csrfToken headerName : jstring)
    (year month : Z) (all : list Txn) (n : nat) (w : World)
    (resp : Response) (e : jstring) :
  known jobId w ->
  outcome (respond env (requests w)) = Ok resp ->
  isHtml (body resp) = true ->
  recoveryFails env year month (S (requests w)) e ->
  exists w',
    period env params jobId totalMonths csrfToken headerName year month (all, n) w
    = (Returns (all, (n + 1)%nat), w') /\
    (S (requests w) < requests w' <= S (S (S (requests w))))%nat /\
    messageOf jobId w' = Some (periodError (n + 1) totalMonths year month e).
Proof.
  intros K H1 H2 Hf.
  destruct (period_report env params jobId totalMonths csrfToken headerName year month
              all n w K) as (K0 & M0 & R0 & S0 & Rep).
  set (w0 := (updateJob jobId (progressPatch (n + 1) totalMonths year month) w).2) in *.
  clearbody w0.
  pose proof (requests_exchange env
                (postDetails (pernr params) year month csrfToken headerName) w0) as R1.
  pose proof (known_frame jobId w0 _ (jobs_exchange env
                (postDetails (pernr params) year month csrfToken headerName) w0) K0) as K1.
  set (w1 := (exchange env (postDetails (pernr params) year month csrfToken headerName)
                w0).2) in *.
  pose proof (requests_exchange env getInit w1) as R2.
  pose proof (known_frame jobId w1 _ (jobs_exchange env getInit w1) K1) as K2.
  set (w2 := (exchange env getInit w1).2) in *.
  rewrite R0 in R1. rewrite R1 in R2.
  assert (exists w3,
            fetchPeriod env params jobId csrfToken headerName year month w0
            = (Throws e, w3) /\ known jobId w3 /\
            (S (requests w) < requests w3 <= S (S (S (requests w))))%nat)
    as (w3 & E & K3 & R3).
  { rewrite fetchPeriod_unfold. cbv zeta. rewrite R0, H1, H2.
    fold w1. rewrite fetchLatestCsrf_unfold, R1. fold w2.
    destruct Hf as [F | (page & P & [[F ->] | [[token F] Hr]])].
    - rewrite F. exists w2. split; [done|]. split; [done|]. lia.
    - rewrite P, F. exists w2. split; [done|]. split; [done|]. lia.
    - rewrite P, F. cbn [fst snd].
      destruct (updateJob_message jobId tokenRefreshed _ w2 eq_refl K2) as [K3 _].
      destruct (updateJob_frame jobId tokenRefreshed w2) as (_ & R3 & _).
      set (w3 := (updateJob jobId tokenRefreshed w2).2) in *.
      rewrite R3, R2.
      match goal with
      | |- context [exchange env ?req w3] =>
        pose proof (requests_exchange env req w3) as R4;
        pose proof (known_frame jobId w3 _ (jobs_exchange env req w3) K3) as K4;
        set (w4 := (exchange env req w3).2) in *
      end.
      rewrite R3, R2 in R4.
      exists w4.
      destruct Hr as [F' | (retry & P' & [[F' ->] | [F' D]])].
      + rewrite F'. split; [done|]. split; [done|]. lia.
      + rewrite P', F'. split; [done|]. split; [done|]. lia.
      + rewrite P', F', D. split; [done|]. split; [done|]. lia. }
  destruct (Rep w3 K3) as [_ Bad].
  destruct (Bad e E) as (w' & -> & R & _ & M). exists w'.
  split; [done|]. by rewrite R, M.
Qed.

Lemma period_stale_session_lost_witness :
  exists w',
    period (scripted [replied "<html>login</html>"; replied "T page";
                      replied "<!DOCTYPE html><html>login</html>"])
      twoMonths (u "a") 2 (u "old") (u "X-CSRF-TOKEN") 2024 1 ([], O)
      (worldAt 0 twoJobs)
    = (Returns ([], 1%nat), w') /\
    messageOf (u "a") w' = Some (periodError 1 2 2024 1 htmlReturned).
Proof.
  destruct (period_stale_session_lost
              (scripted [replied "<html>login</html>"; replied "T page";
                         replied "<!DOCTYPE html><html>login</html>"])
              twoMonths (u "a") 2 (u "old") (u "X-CSRF-TOKEN") 2024 1 [] O
              (worldAt 0 twoJobs)
              {| statusCode := 200; body := u "<html>login</html>" |} htmlReturned)
    as (w' & E & _ & M);
    [by eexists; vm_compute | reflexivity | vm_compute; reflexivity | |].
  - right. eexists. split; [reflexivity|]. right.
    split; [by eexists; vm_compute|]. right.
    eexists. split; [reflexivity|]. left. split; [vm_compute; reflexivity | reflexivity].
  - exists w'. split; [exact E | exact M].
Defined.


Section Harvest.

Context (env : Env) (params : ScrapeParams) (jobId : jstring) (totalMonths : nat)
  (csrfToken headerName : jstring).

Lemma period_single (year month : Z) (all : list Txn) (n : nat) (w : World) :
  sessionHolds env (requests w) ->
  exists w',
    period env params jobId totalMonths csrfToken headerName year month (all, n) w
    = (Returns (all ++ harvest env (requests w) year month, (n + 1)%nat), w') /\
    requests w' = S (requests w) /\
    sent w' = sent w ++ [postDetails (pernr params) year month csrfToken headerName].
Proof.
  intros Hs. rewrite period_unfold.
  destruct (updateJob_frame jobId (progressPatch (n + 1) totalMonths year month) w)
    as (_ & R0 & _ & S0).
  set (w0 := (updateJob jobId (progressPatch (n + 1) totalMonths year month) w).2) in *.
  clearbody w0.
  rewrite fetchPeriod_unfold. cbv zeta. rewrite R0. unfold harvest.
  pose proof (requests_exchange env
                (postDetails (pernr params) year month csrfToken headerName) w0) as R1.
  pose proof (sent_exchange env
                (postDetails (pernr params) year month csrfToken headerName) w0) as S1.
  set (w1 := (exchange env (postDetails (pernr params) year month csrfToken headerName)
                w0).2) in *.
  rewrite R0 in R1. rewrite S0 in S1. clearbody w1.
  destruct (outcome (respond env (requests w))) as [resp|msg] eqn:E.
  - rewrite (Hs (requests w) resp (Nat.le_refl _) E).
    destruct (decode env year month (body resp)) as [txns|msg].
    + eexists. split; [reflexivity|]. by split.
    + eexists. unfold lift, throw. rewrite app_nil_r. split; [reflexivity|].
      destruct (updateJob_frame jobId
                  (periodErrorPatch (n + 1) totalMonths year month msg) w1)
        as (_ & R2 & _ & S2).
      cbn [sleep snd requests sent]. by rewrite R2, S2.
  - eexists. rewrite app_nil_r. split; [reflexivity|].
    destruct (updateJob_frame jobId
                (periodErrorPatch (n + 1) totalMonths year month msg) w1)
      as (_ & R2 & _ & S2).
    cbn [sleep snd requests sent]. by rewrite R2, S2.
Qed.

Lemma sessionHolds_later (k k' : nat) :
  (k <= k')%nat -> sessionHolds env k -> sessionHolds env k'.
Proof. intros Hk Hs i resp Hi. apply Hs. lia. Qed.

Lemma months_single (year : Z) (ms : list Z) (all : list Txn) (n : nat) (w : World) :
  sessionHolds env (requests w) ->
  exists w',
    forEach ms
      (fun month carried =>
         period env params jobId totalMonths csrfToken headerName year month carried)
      (all, n) w
    = (Returns (all ++ harvests env (requests w) (map (pair year) ms),
                (n + List.length ms)%nat), w') /\
    requests w' = (requests w + List.length ms)%nat /\
    sent w'
    = sent w ++
      map (fun ym => postDetails (pernr params) ym.1 ym.2 csrfToken headerName)
        (map (pair year) ms).
Proof.
  revert all n w. induction ms as [|month ms IH]; intros all n w Hs.
  - exists w. cbn [forEach map harvests List.length]. unfold ret.
    by rewrite !app_nil_r, !Nat.add_0_r.
  - destruct (period_single year month all n w Hs) as (w1 & E1 & R1 & S1).
    destruct (IH (all ++ harvest env (requests w) year month) (n + 1)%nat w1)
      as (w2 & E2 & R2 & S2).
    { apply (sessionHolds_later (requests w)); [lia | done]. }
    exists w2. cbn [forEach map harvests List.length]. unfold bind at 1.
    rewrite E1, E2, R1, R2, S2, S1, R1, <- !app_assoc.
    split; [|split; [lia | done]].
    by replace (n + 1 + List.length ms)%nat with (n + S (List.length ms))%nat by lia.
Qed.

Lemma harvests_app (k : nat) (xs ys : list (Z * Z)) :
  harvests env k (xs ++ ys)
  = harvests env k xs ++ harvests env (k + List.length xs) ys.
Proof.
  revert k. induction xs as [|[y m] xs IH]; intros k.
  - simpl. by rewrite Nat.add_0_r.
  - cbn [app harvests List.length]. rewrite IH, <- app_assoc.
    by replace (S k + List.length xs)%nat with (k + S (List.length xs))%nat by lia.
Qed.

Lemma years_single (ys : list Z) (all : list Txn) (n : nat) (w : World) :
  sessionHolds env (requests w) ->
  let periods := flat_map (fun year => map (pair year) (months params)) ys in
  exists w',
    forEach ys
      (fun year carried =>
         forEach (months params)
           (fun month carried =>
              period env params jobId totalMonths csrfToken headerName year month
                carried)
           carried)
      (all, n) w
    = (Returns (all ++ harvests env (requests w) periods,
                (n + List.length ys * List.length (months params))%nat), w') /\
    requests w' = (requests w + List.length periods)%nat /\
    sent w'
    = sent w ++
      map (fun ym => postDetails (pernr params) ym.1 ym.2 csrfToken headerName) periods.
Proof.
  revert all n w. induction ys as [|year ys IH]; intros all n w Hs.
  - exists w. cbn [forEach flat_map map harvests List.length]. unfold ret.
    by rewrite !app_nil_r, !Nat.add_0_r.
  - destruct (months_single year (months params) all n w Hs) as (w1 & E1 & R1 & S1).
    destruct (IH (all ++ harvests env (requests w) (map (pair year) (months params)))
                (n + List.length (months params))%nat w1)
      as (w2 & E2 & R2 & S2).
    { apply (sessionHolds_later (requests w)); [lia | done]. }
    exists w2. cbn [forEach flat_map List.length]. unfold bind at 1.
    rewrite E1, E2, R2, S2, S1, R1, harvests_app, map_app, length_app, !length_map,
      <- !app_assoc.
    split; [|split; [by rewrite Nat.add_assoc | done]].
    by replace (n + S (List.length ys) * List.length (months params))%nat
         with (n + List.length (months params)
               + List.length ys * List.length (months params))%nat by lia.
Qed.

End Harvest.

(** The collection loop while the session holds. *)
Lemma collect_fresh_session_steps (env : Env) (params : ScrapeParams) (jobId : jstring)
    (totalMonths : nat) (csrfToken headerName : jstring) (w : World) :
  sessionHolds env (requests w) ->
  exists w',
    collect env params jobId totalMonths csrfToken headerName w
    = (Returns (harvests env (requests w) (periodsOf params),
                (List.length (years params) * List.length (months params))%nat), w') /\
    requests w' = (requests w + List.length (periodsOf params))%nat /\
    sent w'
    = sent w ++
      map (fun ym => postDetails (pernr params) ym.1 ym.2 csrfToken headerName)
        (periodsOf params).
Proof.
  intros Hs.
  destruct (years_single env params jobId totalMonths csrfToken headerName
              (years params) [] O w Hs) as (w' & E & R & S).
  exists w'. unfold collect, periodsOf. by rewrite E.
Qed.

(** X10: while the session holds, that is while no answer is an HTML
    page, the collection loop makes exactly one request for each period, in
    the order of the periods and all with the token and header name it was
    given; what it returns is the decoded rows of the successive answers, in
    that order, a period whose exchange fails or whose answer does not decode
    adding nothing and stopping nothing. *)
Theorem collect_fresh_session (env : Env) (params : ScrapeParams) (jobId : jstring)
    (totalMonths : nat) (csrfToken headerName : jstring) (w : World) :
  sessionHolds env (requests w) ->
  exists w',
    collect env params jobId totalMonths csrfToken headerName w
    = (Returns (harvests env (requests w) (periodsOf params),
                (List.length (years params) * List.length (months params))%nat), w') /\
    requests w' = (requests w + List.length (periodsOf params))%nat /\
    sent w'
    = sent w ++
      map (fun ym => postDetails (pernr params) ym.1 ym.2 csrfToken headerName)
        (periodsOf params).
Proof.
  apply collect_fresh_session_steps.
Qed.

Lemma collect_fresh_session_witness :
  exists w',
    collect (scripted [replied "{}"]) twoMonths (u "a") 2 (u "tok") (u "X-CSRF-TOKEN")
      (worldAt 0 twoJobs)
    = (Returns (harvests (scripted [replied "{}"]) 0 [(2024, 1); (2024, 2)], 2%nat), w')
    /\ requests w' = 2%nat.
Proof.
  destruct (collect_fresh_session (scripted [replied "{}"]) twoMonths (u "a") 2
              (u "tok") (u "X-CSRF-TOKEN") (worldAt 0 twoJobs))
    as (w' & E & R & _).
  - intros [|i] resp _ H; simpl in H; [|by destruct i].
    injection H as <-. vm_compute. reflexivity.
  - exists w'. split; [exact E | exact R].
Defined.

(* ===================================================================== *)
(** * Polls *)
(* ===================================================================== *)

(** X11: a poll reads the job before it evicts: a job that has gone
    stale is still answered, with its snapshot and status 200, by the poll
    that evicts it, and every later poll for it is answered 404. *)
Theorem status_poll_reads_then_evicts (jobId : jstring) (job : JobState) (w : World) :
  jobId <> [] ->
  jobs w !! jobId = Some job ->
  defaultMaxAgeMs < clock w - updatedAt job ->
  exists w',
    StatusRoute.GET (Some jobId) w = (Returns (StatusRoute.found (snapshotOf job)), w') /\
    jobs w' !! jobId = None /\
    forall later,
      sameStore w' later ->
      (StatusRoute.GET (Some jobId) later).1 = Returns StatusRoute.notFound.
Proof.
  intros Hne L Old.
  assert (truthy (Some jobId) = Some jobId) as T by (by destruct jobId).
  unfold StatusRoute.GET. rewrite T. unfold getPayrollJob. rewrite L.
  eexists. split; [reflexivity|].
  assert (cleanupOldJobs (clock w) defaultMaxAgeMs (jobs w) !! jobId = None) as Gone.
  { rewrite cleanupOldJobs_lookup, L. unfold stale.
    by replace (defaultMaxAgeMs <? clock w - updatedAt job) with true
      by (symmetry; apply Z.ltb_lt; lia). }
  split; [exact Gone|].
  intros later Same. unfold sameStore in Same. simpl in Same.
  by rewrite Same, Gone.
Qed.

Lemma status_poll_reads_then_evicts_witness :
  exists w',
    StatusRoute.GET (Some (u "a")) halfHourLater
    = (Returns (StatusRoute.found (snapshotOf (freshJob (u "a") 12 0))), w') /\
    jobs w' !! u "a" = None.
Proof.
  destruct (status_poll_reads_then_evicts (u "a") (freshJob (u "a") 12 0) halfHourLater)
    as (w' & E & G & _); [done | by vm_compute | by vm_compute |].
  exists w'. split; [exact E | exact G].
Defined.

(** X12: a poll without a job id (none, or an empty one) is answered
    400 and leaves the store as it is.  Any other poll, whether or not its
    job is known, is answered after the store has lost every job older than
    thirty minutes and no other; it is answered 404 exactly when its job is
    not in the store before that. *)
Theorem status_poll_sweeps (query : option jstring) (w : World) :
  exists reply w',
    StatusRoute.GET query w = (Returns reply, w') /\
    clock w' = clock w /\ journal w' = journal w /\
    match truthy query with
    | None => reply = StatusRoute.missing /\ jobs w' = jobs w
    | Some jobId =>
      StatusRoute.job reply = getPayrollJob (jobs w) jobId /\
      StatusRoute.code reply = (if is_Some_dec (jobs w !! jobId) then 200 else 404)%N /\
      forall other,
        jobs w' !! other
        = match jobs w !! other with
          | Some job =>
            if defaultMaxAgeMs <? clock w - updatedAt job then None else Some job
          | None => None
          end
    end.
Proof.
  unfold StatusRoute.GET.
  destruct (truthy query) as [jobId|].
  - unfold getPayrollJob.
    destruct (jobs w !! jobId) as [job|]; eexists _, _;
      (split; [reflexivity|]); (do 2 (split; [reflexivity|]));
      (split; [reflexivity|]); (split; [reflexivity|]);
      intros other; apply cleanupOldJobs_lookup.
  - eexists _, _. split; [reflexivity|]. done.
Qed.

(** X13: sweeping again later leaves what a single sweep at the later
    time leaves: the store after a run of polls depends on the time of the
    last one only, and a second sweep at the same time changes nothing. *)
Theorem cleanupOldJobs_absorbs (now later maxAgeMs : Z) (store : gmap jstring JobState) :
  now <= later ->
  cleanupOldJobs later maxAgeMs (cleanupOldJobs now maxAgeMs store)
  = cleanupOldJobs later maxAgeMs store.
Proof.
  intros Hle. apply map_eq. intros jobId. rewrite !cleanupOldJobs_lookup.
  destruct (store !! jobId) as [job|]; [|done].
  unfold stale.
  destruct (Z.ltb_spec maxAgeMs (now - updatedAt job)) as [Old|Fresh]; [|done].
  by replace (maxAgeMs <? later - updatedAt job) with true
    by (symmetry; apply Z.ltb_lt; lia).
Qed.

Lemma cleanupOldJobs_absorbs_witness :
  cleanupOldJobs (40 * 60 * 1000) defaultMaxAgeMs
    (cleanupOldJobs (31 * 60 * 1000) defaultMaxAgeMs twoJobs)
  = cleanupOldJobs (40 * 60 * 1000) defaultMaxAgeMs twoJobs.
Proof. apply cleanupOldJobs_absorbs. lia. Defined.

(* ===================================================================== *)
(** * Totals *)
(* ===================================================================== *)

Section Totals.

Import JsNumber.

Lemma iter_pos_iter {A : Type} (f : A -> A) (p : positive) (x : A) :
  SpecFloat.iter_pos f p x = Pos.iter f x p.
Proof.
  revert x. induction p as [p IH|p IH|]; intros x; simpl.
  - by rewrite !IH, <- !Pos.iter_swap.
  - by rewrite !IH.
  - done.
Qed.

(** Shifting right what has been shifted left loses nothing. *)
Lemma shr_iter_xO (q j : positive) :
  SpecFloat.iter_pos shr_1 j
    {| shr_m := Zpos (Pos.iter xO q j); shr_r := false; shr_s := false |}
  = {| shr_m := Zpos q; shr_r := false; shr_s := false |}.
Proof.
  rewrite iter_pos_iter. induction j as [|j IH] using Pos.peano_ind; [done|].
  by rewrite Pos.iter_succ_r, Pos.iter_succ.
Qed.

(** A mantissa of 53 bits shifted left by [j] and its exponent lowered by
    [j] rounds back to itself. *)
Lemma binary_round_aux_shifted (s : bool) (q j : positive) (d : Z) :
  digits2_pos q = 53%positive -> -1074 <= d <= 971 ->
  binary_round_aux prec emax s (Zpos (Pos.iter xO q j)) (d - Zpos j) loc_Exact
  = S754_finite s q d.
Proof.
  intros D R.
  assert (shr_fexp prec emax (Zpos (Pos.iter xO q j)) (d - Zpos j) loc_Exact
          = ({| shr_m := Zpos q; shr_r := false; shr_s := false |}, d)) as X.
  { unfold shr_fexp, Zdigits2. rewrite iter_xO_digits, D.
    replace (fexp prec emax (Zpos (53 + j) + (d - Zpos j)) - (d - Zpos j)) with (Zpos j)
      by (unfold fexp, SpecFloat.emin, prec, emax; lia).
    unfold shr, shr_record_of_loc. rewrite shr_iter_xO. f_equal. lia. }
  assert (shr_fexp prec emax (Zpos q) d loc_Exact
          = ({| shr_m := Zpos q; shr_r := false; shr_s := false |}, d)) as Y.
  { unfold shr_fexp, Zdigits2. rewrite D.
    replace (fexp prec emax (53 + d) - d) with 0; [reflexivity|].
    unfold fexp, SpecFloat.emin, prec, emax. lia. }
  unfold binary_round_aux. rewrite X.
  cbn [shr_m loc_of_shr_record shr_r shr_s round_nearest_even].
  rewrite Y. cbn [shr_m].
  replace (d <=? emax - prec) with true; [reflexivity|].
  symmetry. apply Z.leb_le. unfold emax, prec. lia.
Qed.

(** [binary_round] sees the value only: a whole number below [2^53] given
    with a negative exponent rounds as the number itself. *)
Lemma binary_round_scaled (s : bool) (n M : positive) (e : Z) :
  Zpos n < 2 ^ 53 -> e <= 0 -> Zpos M = Zpos n * 2 ^ (- e) ->
  binary_round prec emax s M e = binary_round prec emax s n 0.
Proof.
  intros Hn He HM. pose proof (digits2_small n Hn) as D.
  destruct e as [|e|k]; [|lia|].
  { assert (M = n) as -> by (apply Pos2Z.inj; simpl in HM; lia). done. }
  assert (M = Pos.iter xO n k) as ->.
  { apply Pos2Z.inj. rewrite iter_xO_value. exact HM. }
  unfold binary_round. rewrite iter_xO_digits.
  replace (fexp prec emax (Zpos (digits2_pos n + k) + Zneg k))
    with (Zpos (digits2_pos n) - 53)
    by (unfold fexp, SpecFloat.emin, prec, emax; lia).
  replace (fexp prec emax (Zpos (digits2_pos n) + 0)) with (Zpos (digits2_pos n) - 53)
    by (unfold fexp, SpecFloat.emin, prec, emax; lia).
  unfold shl_align.
  destruct (Zpos (digits2_pos n) - 53 - 0) as [|i|i] eqn:Ei; [|lia|];
    destruct (Zpos (digits2_pos n) - 53 - Zneg k) as [|j|j] eqn:Ej; try lia.
  - (* the number has 53 bits *)
    assert (j = k) as -> by lia.
    assert (digits2_pos n = 53%positive) as D53 by lia.
    replace (Zneg k) with (0 - Zpos k) by lia.
    rewrite binary_round_aux_shifted by (done || lia).
    symmetry. apply binary_round_aux_exact; [done | lia].
  - (* both are shifted left to the same 53 bits *)
    assert (i = k) as -> by lia.
    by replace (Zpos (digits2_pos n) - 53) with (Zneg k) by lia.
  - (* the scaled number has more than 53 bits *)
    assert (k = (j + i)%positive) as -> by lia.
    rewrite Pos.iter_add.
    replace (Zneg (j + i)) with (Zpos (digits2_pos n) - 53 - Zpos j) by lia.
    rewrite binary_round_aux_shifted;
      [|rewrite iter_xO_digits; lia | lia].
    symmetry. apply binary_round_aux_exact; [rewrite iter_xO_digits; lia | lia].
  - assert (i = (j + k)%positive) as -> by lia.
    by rewrite Pos.iter_add.
Qed.

Lemma ofInteger_value (z : Z) : Z.abs z < 2 ^ 53 -> valueIs (ofInteger z) z.
Proof.
  intros H. destruct z as [|m|m]; [done| |].
  - destruct (binary_round_whole false m) as (mz & ez & E & R & V); [lia|].
    unfold ofInteger, binary_normalize. rewrite E. simpl. split; [lia | exact V].
  - destruct (binary_round_whole true m) as (mz & ez & E & R & V); [lia|].
    unfold ofInteger, binary_normalize. rewrite E. simpl. split; [lia | lia].
Qed.

Lemma shl_align_value (m : positive) (e e' : Z) :
  e' <= e -> Zpos (shl_align m e e').1 = Zpos m * 2 ^ (e - e').
Proof.
  intros H. unfold shl_align.
  destruct (e' - e) as [|j|j] eqn:E; try lia.
  - replace (e - e') with 0 by lia. simpl. lia.
  - simpl. rewrite iter_xO_value. f_equal. f_equal. lia.
Qed.

(** The sum of two whole doubles is the double of the sum, as long as all
    three are below [2^53]. *)
Lemma add_ofInteger (a b : Z) :
  Z.abs a < 2 ^ 53 -> Z.abs b < 2 ^ 53 -> Z.abs (a + b) < 2 ^ 53 ->
  add (ofInteger a) (ofInteger b) = ofInteger (a + b).
Proof.
  intros Ha Hb Hab.
  assert (forall z, Z.abs z < 2 ^ 53 -> z <> 0 ->
          exists mz ez,
            ofInteger z = S754_finite (z <? 0) mz ez /\ -53 < ez <= 0 /\
            Zpos mz = Z.abs z * 2 ^ (- ez)) as Fin.
  { intros z Hz Nz. destruct z as [|m|m]; [done| |].
    - destruct (binary_round_whole false m) as (mz & ez & E & R & V); [lia|]. eauto.
    - destruct (binary_round_whole true m) as (mz & ez & E & R & V); [lia|]. eauto. }
  destruct (Z.eq_dec a 0) as [->|Na].
  { destruct (Z.eq_dec b 0) as [->|Nb]; [done|].
    rewrite Z.add_0_l. destruct (Fin b Hb Nb) as (mz & ez & -> & _). done. }
  destruct (Z.eq_dec b 0) as [->|Nb].
  { rewrite Z.add_0_r. destruct (Fin a Ha Na) as (mz & ez & -> & _). done. }
  destruct (Fin a Ha Na) as (ma & ea & Ea & Ra & Va).
  destruct (Fin b Hb Nb) as (mb & eb & Eb & Rb & Vb).
  rewrite Ea, Eb. unfold add, SFadd. cbv zeta.
  set (ez := Z.min ea eb).
  rewrite !shl_align_value by (subst ez; lia).
  assert (0 < 2 ^ (- ez)) as P by (apply Z.pow_pos_nonneg; lia).
  assert (cond_Zopp (a <? 0) (Zpos ma * 2 ^ (ea - ez))
          + cond_Zopp (b <? 0) (Zpos mb * 2 ^ (eb - ez))
          = (a + b) * 2 ^ (- ez)) as ->.
  { assert (forall z mz e, -53 < e <= 0 -> ez <= e -> Zpos mz = Z.abs z * 2 ^ (- e) ->
            cond_Zopp (z <? 0) (Zpos mz * 2 ^ (e - ez)) = z * 2 ^ (- ez)) as One.
    { intros z mz e Re Le V. rewrite V, <- Z.mul_assoc, <- Z.pow_add_r by lia.
      replace (- e + (e - ez)) with (- ez) by lia.
      unfold cond_Zopp. destruct (Z.ltb_spec z 0); lia. }
    rewrite (One a ma ea), (One b mb eb) by (done || subst ez; lia). lia. }
  unfold ofInteger, binary_normalize.
  destruct (a + b) as [|n|n] eqn:S.
  - done.
  - destruct (Zpos n * 2 ^ (- ez)) as [|M|M] eqn:EM; try lia.
    apply binary_round_scaled; (lia || subst ez; lia).
  - destruct (Zneg n * 2 ^ (- ez)) as [|M|M] eqn:EM; try lia.
    apply binary_round_scaled; (lia || subst ez; lia).
Qed.

Lemma total_bound (f : Txn -> Z) (txns : list Txn) :
  Z.abs (total f txns) <= magnitude f txns.
Proof.
  induction txns as [|txn txns IH]; [done|].
  unfold magnitude in *. cbn [total fold_right]. fold (total f txns).
  fold (total (fun txn => Z.abs (f txn)) txns). lia.
Qed.

Lemma magnitude_nonneg (f : Txn -> Z) (txns : list Txn) : 0 <= magnitude f txns.
Proof. pose proof (total_bound f txns). lia. Qed.

Lemma total_cons (f : Txn -> Z) (txn : Txn) (txns : list Txn) :
  total f (txn :: txns) = f txn + total f txns.
Proof. reflexivity. Qed.

Lemma magnitude_cons (f : Txn -> Z) (txn : Txn) (txns : list Txn) :
  magnitude f (txn :: txns) = Z.abs (f txn) + magnitude f txns.
Proof. reflexivity. Qed.

(** The loop of [computeSummary] from any whole totals. *)
Lemma computeSummary_from (txns : list Txn) (g d n : Z) (c : nat) :
  Z.abs g + magnitude gross txns < 2 ^ 53 ->
  Z.abs d + magnitude deductions txns < 2 ^ 53 ->
  Z.abs n + magnitude net txns < 2 ^ 53 ->
  fold_left
    (fun acc txn =>
       {| Summary.gross := add (Summary.gross acc) (ofInteger (gross txn));
          Summary.deductions := add (Summary.deductions acc) (ofInteger (deductions txn));
          Summary.net := add (Summary.net acc) (ofInteger (net txn));
          Summary.count := Summary.count acc + 1 |})
    txns
    {| Summary.gross := ofInteger g; Summary.deductions := ofInteger d;
       Summary.net := ofInteger n; Summary.count := c |}
  = {| Summary.gross := ofInteger (g + total gross txns);
       Summary.deductions := ofInteger (d + total deductions txns);
       Summary.net := ofInteger (n + total net txns);
       Summary.count := c + List.length txns |}.
Proof.
  revert g d n c. induction txns as [|txn txns IH]; intros g d n c Hg Hd Hn.
  - simpl. by rewrite !Z.add_0_r, Nat.add_0_r.
  - pose proof (magnitude_nonneg gross txns).
    pose proof (magnitude_nonneg deductions txns).
    pose proof (magnitude_nonneg net txns).
    rewrite magnitude_cons in Hg, Hd, Hn.
    cbn [fold_left Summary.gross Summary.deductions Summary.net Summary.count].
    rewrite !add_ofInteger by lia.
    rewrite IH by lia.
    rewrite !total_cons. cbn [List.length]. f_equal; [f_equal; lia .. | lia].
Qed.

End Totals.

(** X14: the count of a summary is the number of its transactions, and
    each of its three totals, though added up in doubles, is the exact sum of
    the amounts as long as the absolute values of the amounts add up to less
    than [2^53]. *)
Theorem computeSummary_exact (txns : list Txn) :
  magnitude gross txns < 2 ^ 53 ->
  magnitude deductions txns < 2 ^ 53 ->
  magnitude net txns < 2 ^ 53 ->
  valueIs (Summary.gross (computeSummary txns)) (total gross txns) /\
  valueIs (Summary.deductions (computeSummary txns)) (total deductions txns) /\
  valueIs (Summary.net (computeSummary txns)) (total net txns) /\
  Summary.count (computeSummary txns) = List.length txns.
Proof.
  intros Hg Hd Hn. unfold computeSummary.
  change (S754_zero false) with (JsNumber.ofInteger 0).
  rewrite computeSummary_from by (simpl; lia).
  pose proof (total_bound gross txns). pose proof (total_bound deductions txns).
  pose proof (total_bound net txns).
  cbn [Summary.gross Summary.deductions Summary.net Summary.count].
  repeat split; try (apply ofInteger_value; lia).
Qed.

Lemma computeSummary_exact_witness :
  valueIs (Summary.gross (computeSummary [paid 3000000 (-250000) 2750000;
                                          paid 4503599627370496 0 (-1)]))
    4503599630370496
  /\ Summary.count (computeSummary [paid 3000000 (-250000) 2750000;
                                    paid 4503599627370496 0 (-1)]) = 2%nat.
Proof.
  destruct (computeSummary_exact [paid 3000000 (-250000) 2750000;
                                  paid 4503599627370496 0 (-1)])
    as (G & _ & _ & C); [by vm_compute | by vm_compute | by vm_compute |].
  split; [exact G | exact C].
Defined.

(* ===================================================================== *)
(** * The login *)
(* ===================================================================== *)

Section Login.

Context (env : Env) (params : ScrapeParams) (jobId : jstring).

Lemma submitLogin_unfold (w : World) :
  submitLogin env params jobId w
  = let w0 :=
      (updateJob jobId (statusPatch Pending (u "로그인 페이지에 접속합니다...")) w).2 in
    let w1 := (exchange env getLogin w0).2 in
    match outcome (respond env (requests w)) with
    | Throw msg => (Throws msg, w1)
    | Ok page =>
      match truthy (extractMetaCsrf env (body page)) with
      | None => (Throws noLoginToken, w1)
      | Some csrf =>
        let w2 :=
          (updateJob jobId
             (statusPatch Auth_wait
                (u "로그인 정보를 제출했습니다. 휴대폰에서 승인을 진행해 주세요.")) w1).2 in
        let w3 := (exchange env (postLogin env csrf params) w2).2 in
        match outcome (respond env (S (requests w))) with
        | Throw msg => (Throws msg, w3)
        | Ok answer =>
          if looksLikeLoginFailure (body answer) then (Throws loginFailed, w3)
          else (Returns tt, w3)
        end
      end
    end.
Proof.
  unfold submitLogin. unfold bind at 1. rewrite updateJob_returns.
  destruct (updateJob_frame jobId
              (statusPatch Pending (u "로그인 페이지에 접속합니다...")) w)
    as (_ & R0 & _).
  set (w0 := (updateJob jobId _ w).2) in *. cbv zeta.
  rewrite bind_exchange, R0.
  destruct (outcome (respond env (requests w))) as [page|msg]; [|reflexivity].
  destruct (truthy (extractMetaCsrf env (body page))) as [csrf|]; [|reflexivity].
  unfold bind at 1. rewrite updateJob_returns.
  destruct (updateJob_frame jobId
              (statusPatch Auth_wait
                 (u "로그인 정보를 제출했습니다. 휴대폰에서 승인을 진행해 주세요."))
              (exchange env getLogin w0).2) as (_ & R2 & _).
  unfold postLoginProcess. rewrite bind_exchange, R2, requests_exchange, R0.
  destruct (outcome (respond env (S (requests w)))) as [answer|msg]; [|reflexivity].
  by destruct (looksLikeLoginFailure (body answer)).
Qed.

(** A task whose authentication throws ends with the failed record. *)
Lemma processJob_fails (w w1 : World) (e : jstring) (job : JobState) :
  authenticate env params jobId w = (Throws e, w1) ->
  jobs w1 !! jobId = Some job ->
  processJob env jobId params w = (Returns tt, (updateJob jobId (failedPatch e) w1).2) /\
  requests (updateJob jobId (failedPatch e) w1).2 = requests w1 /\
  jobs (updateJob jobId (failedPatch e) w1).2 !! jobId
  = Some (assignJob job (failedPatch e) (clock w1)) /\
  failed job e (assignJob job (failedPatch e) (clock w1)).
Proof.
  intros Ea L.
  rewrite (processJob_unfold env params jobId _ eq_refl), Ea.
  split; [apply updateJob_returns|].
  destruct (updateJob_frame jobId (failedPatch e) w1) as (_ & R & _).
  split; [exact R|]. split; [|done].
  unfold updateJob. rewrite L. simpl. by rewrite lookup_insert_eq.
Qed.

End Login.

(** X15: when the login comes to nothing (the login page does not
    arrive or carries no token, the submission fails, or its answer reads as
    a refusal), the task ends at once with the failed record: status error,
    the reason as error and in the message, no transactions.  It has made one
    or two exchanges and has not asked for the approval. *)
Theorem login_refused (env : Env) (params : ScrapeParams) (jobId : jstring)
    (w : World) (e : jstring) :
  known jobId w ->
  loginRefused env (requests w) e ->
  exists w' job final,
    processJob env jobId params w = (Returns tt, w') /\
    (requests w < requests w' <= requests w + 2)%nat /\
    jobs w !! jobId = Some job /\
    jobs w' !! jobId = Some final /\
    failed job e final.
Proof.
  intros [job L] Hr.
  pose proof (submitLogin_unfold env params jobId w) as U. cbv zeta in U.
  destruct (updateJob_frame jobId
              (statusPatch Pending (u "로그인 페이지에 접속합니다...")) w)
    as (_ & R0 & _).
  assert (exists job0,
            jobs (updateJob jobId
                    (statusPatch Pending (u "로그인 페이지에 접속합니다...")) w).2
              !! jobId = Some job0 /\
            transactions job0 = transactions job /\ summary job0 = summary job)
    as (job0 & L0 & T0 & S0).
  { unfold updateJob. rewrite L. simpl. rewrite lookup_insert_eq. eauto. }
  set (w0 := (updateJob jobId _ w).2) in *. clearbody w0.
  pose proof (requests_exchange env getLogin w0) as R1.
  pose proof (jobs_exchange env getLogin w0) as J1.
  set (w1 := (exchange env getLogin w0).2) in *. clearbody w1.
  rewrite R0 in R1. rewrite <- J1 in L0.
  assert (forall w2 job2,
            submitLogin env params jobId w = (Throws e, w2) ->
            (requests w < requests w2 <= requests w + 2)%nat ->
            jobs w2 !! jobId = Some job2 ->
            transactions job2 = transactions job -> summary job2 = summary job ->
            exists w' job final,
              processJob env jobId params w = (Returns tt, w') /\
              (requests w < requests w' <= requests w + 2)%nat /\
              jobs w !! jobId = Some job /\
              jobs w' !! jobId = Some final /\
              failed job e final) as Ends.
  { intros w2 job2 Es R2 L2 T2 S2.
    destruct (processJob_fails env params jobId w w2 e job2) as (E & R & Lf & F); [|done|].
    { unfold authenticate, bind. by rewrite Es. }
    eexists _, job, _. split; [exact E|]. rewrite R. split; [done|].
    split; [done|]. split; [exact Lf|].
    destruct F as (F1 & F2 & F3 & F4 & F5). unfold failed. by rewrite F4, F5. }
  destruct Hr as [F | (page & P & [[F ->] | [[csrf F] Hr]])].
  - rewrite F in U. apply (Ends w1 job0 U); (done || lia).
  - rewrite P, F in U. apply (Ends w1 job0 U); (done || lia).
  - rewrite P, F in U.
    assert (exists job2,
              jobs (updateJob jobId
                      (statusPatch Auth_wait
                         (u "로그인 정보를 제출했습니다. 휴대폰에서 승인을 진행해 주세요."))
                      w1).2 !! jobId = Some job2 /\
              transactions job2 = transactions job /\ summary job2 = summary job)
      as (job2 & L2 & T2 & S2).
    { unfold updateJob. rewrite L0. simpl. rewrite lookup_insert_eq. eauto. }
    destruct (updateJob_frame jobId
                (statusPatch Auth_wait
                   (u "로그인 정보를 제출했습니다. 휴대폰에서 승인을 진행해 주세요."))
                w1) as (_ & R2 & _).
    set (w2 := (updateJob jobId _ w1).2) in *. clearbody w2.
    pose proof (requests_exchange env (postLogin env csrf params) w2) as R3.
    pose proof (jobs_exchange env (postLogin env csrf params) w2) as J3.
    set (w3 := (exchange env (postLogin env csrf params) w2).2) in *. clearbody w3.
    rewrite <- J3 in L2.
    destruct Hr as [F' | (answer & P' & F' & ->)].
    + rewrite F' in U. apply (Ends w3 job2 U); (done || lia).
    + rewrite P', F' in U. apply (Ends w3 job2 U); (done || lia).
Qed.

Lemma login_refused_witness :
  exists w' final,
    processJob (scripted [replied "T login"; replied "<p>비밀번호를 다시 확인</p>"])
      (u "a") twoMonths (worldAt 0 twoJobs) = (Returns tt, w') /\
    requests w' = 2%nat /\
    jobs w' !! u "a" = Some final /\
    status final = Error /\ error final = Some loginFailed.
Proof.
  destruct (login_refused
              (scripted [replied "T login"; replied "<p>비밀번호를 다시 확인</p>"])
              twoMonths (u "a") (worldAt 0 twoJobs) loginFailed)
    as (w' & job & final & E & R & _ & L & F1 & _ & F3 & _).
  - by eexists; vm_compute.
  - right. eexists. split; [reflexivity|]. right.
    split; [by eexists; vm_compute|]. right.
    eexists. split; [reflexivity|]. split; [vm_compute; reflexivity | reflexivity].
  - exists w', final. split; [exact E|]. split; [|done].
    assert (processJob
              (scripted [replied "T login"; replied "<p>비밀번호를 다시 확인</p>"])
              (u "a") twoMonths (worldAt 0 twoJobs)
            = (Returns tt,
               (processJob
                  (scripted [replied "T login"; replied "<p>비밀번호를 다시 확인</p>"])
                  (u "a") twoMonths (worldAt 0 twoJobs)).2)) as E'
      by (by rewrite E).
    rewrite E' in E. injection E as <-. vm_compute. reflexivity.
Defined.

(* ===================================================================== *)
(** * A whole task *)
(* ===================================================================== *)

Lemma computeSummary_count (txns : list Txn) :
  Summary.count (computeSummary txns) = List.length txns.
Proof.
  unfold computeSummary.
  assert (forall acc,
            Summary.count
              (fold_left
                 (fun acc txn =>
                    {| Summary.gross :=
                         JsNumber.add (Summary.gross acc) (JsNumber.ofInteger (gross txn));
                       Summary.deductions :=
                         JsNumber.add (Summary.deductions acc)
                           (JsNumber.ofInteger (deductions txn));
                       Summary.net :=
                         JsNumber.add (Summary.net acc) (JsNumber.ofInteger (net txn));
                       Summary.count := Summary.count acc + 1 |})
                 txns acc)
            = (Summary.count acc + List.length txns)%nat) as H.
  { induction txns as [|txn txns IH]; intros acc; simpl; [lia|].
    rewrite IH. simpl. lia. }
  by rewrite H.
Qed.

(** X16: a task that is let in and whose session holds ends with the
    completed record: its transactions are the decoded rows of the answers
    to its requests, one request for each period and in the order of the
    periods; the summary is the summary of these transactions, the processed
    count is the total, and the message tells their number.  A poll then
    receives the transactions. *)
Theorem task_completes (env : Env) (params : ScrapeParams) (jobId : jstring)
    (w w1 w2 : World) (session : jstring * jstring) :
  known jobId w ->
  submitLogin env params jobId w = (Returns tt, w1) ->
  waitForFido env params jobId w1 = (Returns session, w2) ->
  sessionHolds env (requests w2) ->
  exists w' final,
    processJob env jobId params w = (Returns tt, w') /\
    requests w' = (requests w2 + List.length (periodsOf params))%nat /\
    sent w'
    = sent w2 ++
      map (fun ym => postDetails (pernr params) ym.1 ym.2 session.1 session.2)
        (periodsOf params) /\
    jobs w' !! jobId = Some final /\
    status final = Completed /\
    transactions final = harvests env (requests w2) (periodsOf params) /\
    summary final = Some (computeSummary (transactions final)) /\
    processedMonths final = List.length (periodsOf params) /\
    totalMonths final = List.length (periodsOf params) /\
    message final = completedMessage (List.length (transactions final)) /\
    (JobSnapshot.transactions <$> getPayrollJob (jobs w') jobId)
    = Some (Some (transactions final)).
Proof.
  intros K Hl Hf Hs.
  assert (List.length (periodsOf params)
          = (List.length (years params) * List.length (months params))%nat) as HT.
  { unfold periodsOf. induction (years params) as [|y ys IH]; [done|].
    cbn [flat_map List.length]. rewrite length_app, length_map, IH. lia. }
  assert (known jobId w1) as K1.
  { destruct (keeps_submitLogin env params jobId (known jobId) (known_onRegistry jobId)
                (fun patch _ => known_update jobId patch) w K) as [H _].
    by rewrite Hl in H. }
  assert (known jobId w2) as K2.
  { destruct (keeps_waitForFido env params jobId (known jobId) (known_onRegistry jobId)
                (known_update jobId) w1 K1) as [H _].
    by rewrite Hf in H. }
  destruct (collect_fresh_session_steps env params jobId
              (List.length (years params) * List.length (months params))
              session.1 session.2 w2 Hs) as (w3 & Ec & Rc & Sc).
  assert (known jobId w3) as [job L3].
  { destruct (lands_collect env params jobId (known jobId) (known_onRegistry jobId)
                (known_update jobId)
                (List.length (years params) * List.length (months params))
                session.1 session.2 w2 K2) as [H _].
    by rewrite Ec in H. }
  set (all := harvests env (requests w2) (periodsOf params)) in *.
  destruct (updateJob_frame jobId
              (completedPatch all
                 (List.length (years params) * List.length (months params))) w3)
    as (_ & Rf & _ & Sf).
  exists (updateJob jobId
            (completedPatch all
               (List.length (years params) * List.length (months params))) w3).2,
    (assignJob job
       (completedPatch all (List.length (years params) * List.length (months params)))
       (clock w3)).
  split.
  { rewrite (processJob_unfold env params jobId _ eq_refl).
    unfold authenticate, bind. rewrite Hl, Hf, Ec. apply updateJob_returns. }
  rewrite Rf, Sf, Rc, Sc, HT.
  do 2 (split; [done|]).
  assert (jobs (updateJob jobId
                  (completedPatch all
                     (List.length (years params) * List.length (months params))) w3).2
            !! jobId
          = Some (assignJob job
                    (completedPatch all
                       (List.length (years params) * List.length (months params)))
                    (clock w3))) as Lf.
  { unfold updateJob. rewrite L3. simpl. by rewrite lookup_insert_eq. }
  split; [exact Lf|].
  do 5 (split; [done|]).
  split.
  - cbn [message assignJob completedPatch p_message default]. unfold completedMessage.
    by rewrite computeSummary_count.
  - unfold getPayrollJob. by rewrite Lf.
Qed.

Lemma task_completes_witness :
  exists w' final,
    processJob (scripted [replied "T login"; replied "ok"; replied "T approved";
                          replied "{}"; replied "{}"])
      (u "a") twoMonths (worldAt 0 twoJobs) = (Returns tt, w') /\
    jobs w' !! u "a" = Some final /\
    status final = Completed /\
    processedMonths final = 2%nat /\
    message final = completedMessage (List.length (transactions final)).
Proof.
  edestruct (task_completes
               (scripted [replied "T login"; replied "ok"; replied "T approved";
                          replied "{}"; replied "{}"])
               twoMonths (u "a") (worldAt 0 twoJobs))
    as (w' & final & E & _ & _ & L & St & _ & _ & P & _ & M & _).
  - by eexists; vm_compute.
  - vm_compute. reflexivity.
  - vm_compute. reflexivity.
  - intros i resp Hi H. simpl in Hi.
    do 3 (destruct i as [|i]; [lia|]).
    destruct i as [|i]; [injection H as <-; vm_compute; reflexivity|].
    destruct i as [|i]; [injection H as <-; vm_compute; reflexivity|].
    simpl in H. by destruct i.
  - exists w', final. split; [exact E|]. split; [exact L|]. split; [exact St|].
    split; [exact P | exact M].
Defined.

(* ===================================================================== *)
(** * The start of a job *)
(* ===================================================================== *)




(* ===================================================================== *)
(** * More on the field normalizer *)
(* ===================================================================== *)

Section Stability.

Lemma onlyDigits_digits (s : jstring) : forallb isDigit (onlyDigits s) = true.
Proof.
  induction s as [|c s IH]; [done|].
  unfold onlyDigits in *. simpl. destruct (isDigit c) eqn:E; [|done].
  simpl. by rewrite E.
Qed.

Lemma normalizeDate_regrouped (digits : jstring) :
  List.length digits = 8%nat -> forallb isDigit digits = true ->
  normalizeDate (JStr (regroup digits)) = Ok (regroup digits).
Proof.
  intros L D.
  do 8 (destruct digits as [|? digits]; [discriminate L|]).
  destruct digits; [|discriminate L].
  apply (normalizeDate_separated [n; n0; n1; n2] [n3; n4] [n5; n6] 45%N 45%N);
    [|by left | by left].
  by repeat split.
Qed.

End Stability.

(** X18: [normalizeDate] leaves alone what it returns: a date that has
    been normalized once comes out of a second pass as it went in. *)
Theorem normalizeDate_idempotent (val : JVal) (r : jstring) :
  normalizeDate val = Ok r -> normalizeDate (JStr r) = Ok r.
Proof.
  intros H.
  assert (r = [] \/ exists text, normalizeDate (JStr text) = Ok r) as [->|[text E]].
  { destruct val as [| |b|num|s|items|fields].
    - injection H as <-. by left.
    - injection H as <-. by left.
    - right. exists (if b then u "true" else u "false"). exact H.
    - right. exists num. exact H.
    - right. exists s. exact H.
    - unfold normalizeDate in H. destruct (toText (JArr items)) as [text|] eqn:T;
        [|discriminate H].
      right. exists text. exact H.
    - unfold normalizeDate in H. destruct (toText (JObj fields)) as [text|] eqn:T;
        [|discriminate H].
      right. exists text. exact H. }
  { reflexivity. }
  rewrite normalizeDate_text in E. injection E as <-.
  destruct (List.length (onlyDigits (trim text)) =? 8)%nat eqn:L.
  - apply Nat.eqb_eq in L. apply normalizeDate_regrouped; [done|].
    apply onlyDigits_digits.
  - rewrite normalizeDate_text, trim_idem, L. reflexivity.
Qed.

Lemma normalizeDate_idempotent_witness :
  normalizeDate (JStr (u " 2024.03.15 ")) = Ok (u "2024-03-15") /\
  normalizeDate (JStr (u "2024-03-15")) = Ok (u "2024-03-15").
Proof.
  split; [reflexivity|].
  apply (normalizeDate_idempotent (JStr (u " 2024.03.15 "))). reflexivity.
Defined.

Section Conversions.

Lemma sequence_total {A : Type} (rs : list (Result A)) :
  Forall (fun r => exists a, r = Ok a) rs ->
  exists l, sequence rs = Ok l /\ List.length l = List.length rs.
Proof.
  induction 1 as [|r rs [a ->] _ (l & E & L)]; simpl; [by exists []|].
  rewrite E. exists (a :: l). simpl. by rewrite L.
Qed.

(** [String] converts every plain value. *)
Lemma plain_toText : forall val, plain val = true -> exists text, toText val = Ok text.
Proof.
  fix IH 1. intros [| |b|text|s|items|fields] H;
    [by eexists | by eexists | by eexists | by eexists | by eexists | |].
  - change (toText (JArr items))
      with (try! parts <- sequence (map (fun x => match x with
                                                   | JUndefined | JNull => Ok []
                                                   | _ => toText x
                                                   end) items);
            Ok (joinComma parts)).
    assert (Forall (fun r : Result jstring => exists a, r = Ok a)
              (map (fun x => match x with
                             | JUndefined | JNull => Ok []
                             | _ => toText x
                             end) items)) as F.
    { simpl in H. induction items as [|x items IHi]; [constructor|].
      simpl in H. apply andb_true_iff in H as [Hx Hi].
      constructor; [|by apply IHi].
      pose proof (IH x Hx) as Tx. by destruct x; eauto. }
    destruct (sequence_total _ F) as (parts & E & _).
    exists (joinComma parts).
    exact (f_equal (fun r => try! parts <- r; Ok (joinComma parts)) E).
  - simpl in H. cbn [toText].
    destruct (hasOwn (u "toString") fields); [discriminate H | eauto].
Qed.

Lemma plainRow_getProp (row : JVal) (key : jstring) :
  plainRow row = true -> plain (getProp row key) = true.
Proof.
  destruct row as [| | | | |items|fields]; try done; simpl; intros H.
  - destruct (eqb key (u "length")); [done|].
    generalize 0%N. induction items as [|x items IH]; intros i; [done|].
    simpl in H. apply andb_true_iff in H as [Hx Hi]. simpl.
    destruct (eqb key (ofN i)); [done | by apply IH].
  - induction fields as [|[k v] fields IH]; [done|].
    simpl in H. apply andb_true_iff in H as [Hv Hf]. simpl.
    destruct (eqb k key); [done | by apply IH].
Qed.

Lemma plainRow_firstPresent (row : JVal) (keys : list jstring) :
  plainRow row = true -> plain (firstPresent row keys) = true.
Proof.
  intros H. induction keys as [|key keys IH]; [done|].
  simpl. destruct (present (getProp row key)); [by apply plainRow_getProp | done].
Qed.

Lemma plain_normalizeDate (val : JVal) :
  plain val = true -> exists r, normalizeDate val = Ok r.
Proof.
  intros H. destruct (plain_toText val H) as [text T].
  unfold normalizeDate. rewrite T. simpl.
  destruct val; eauto; destruct (eqb (trim text) []); eauto;
    destruct (List.length (onlyDigits (trim text)) =? 8)%nat; eauto.
Qed.

Lemma plain_parseIntMoney (val : JVal) :
  plain val = true -> exists z, parseIntMoney val = Ok z.
Proof.
  intros H. destruct (plain_toText val H) as [text T].
  unfold parseIntMoney. rewrite T. simpl.
  destruct val; eauto; destruct (eqb (trim (stripCommas text)) []); eauto.
Qed.

Lemma plain_textOr (val : JVal) (dflt : jstring) :
  plain val = true -> exists r, textOr val dflt = Ok r.
Proof.
  intros H. unfold textOr.
  destruct (plain_toText (match val with
                          | JUndefined | JNull => JStr dflt
                          | _ => val
                          end)) as [text T]; [by destruct val|].
  rewrite T. simpl. eauto.
Qed.

Lemma plainRow_normalizeRow (year month : Z) (row : JVal) :
  plainRow row = true -> exists txn, normalizeRow year month row = Ok txn.
Proof.
  intros H. unfold normalizeRow.
  destruct (plain_normalizeDate _ (plainRow_firstPresent row dateKeys H)) as [d1 ->].
  destruct (plain_normalizeDate _ (plainRow_firstPresent row dateFallbackKeys H))
    as [d2 E2].
  destruct (plain_textOr _ (u "UNKNOWN") (plainRow_firstPresent row categoryKeys H))
    as [c Ec].
  destruct (plain_textOr _ [] (plainRow_firstPresent row groupKeys H)) as [g Eg].
  destruct (plain_parseIntMoney _ (plainRow_firstPresent row grossKeys H)) as [a1 E3].
  destruct (plain_parseIntMoney _ (plainRow_firstPresent row deductionsKeys H))
    as [a2 E4].
  destruct (plain_parseIntMoney _ (plainRow_firstPresent row netKeys H)) as [a3 E5].
  destruct (plain_textOr _ (u "KRW") (plainRow_firstPresent row currencyKeys H))
    as [cu Ecu].
  destruct (plain_textOr _ [] (plainRow_firstPresent row seqnrKeys H)) as [sq Esq].
  destruct (plain_normalizeDate _ (plainRow_firstPresent row fpbegKeys H)) as [fb Efb].
  destruct (plain_normalizeDate _ (plainRow_firstPresent row fpendKeys H)) as [fe Efe].
  cbn [rbind]. rewrite E2.
  assert (exists date,
            match d1 with
            | [] => try! d2 <- Ok d2; Ok (orElse d2 (firstOfMonth year month))
            | _ :: _ => Ok d1
            end = Ok date) as [date ->] by (destruct d1; simpl; eauto).
  cbn [rbind]. rewrite Ec. cbn [rbind]. rewrite Eg. cbn [rbind]. rewrite E3.
  cbn [rbind]. rewrite E4. cbn [rbind]. rewrite E5. cbn [rbind]. rewrite Ecu.
  cbn [rbind]. rewrite Esq. cbn [rbind]. rewrite Efb. cbn [rbind]. rewrite Efe.
  cbn [rbind]. eauto.
Qed.

End Conversions.

(** X19: [normalizeRows] returns, with one transaction for each row
    that is an object, whenever every property of every row is a value that
    [String] converts: a primitive, or an array or object in which no object
    has a [toString] entry of its own.  A payload of flat rows never makes a
    period fail. *)
Theorem normalizeRows_total (year month : Z) (rows : list JVal) :
  forallb plainRow rows = true ->
  exists txns,
    normalizeRows year month rows = Ok txns /\
    List.length txns = List.length (List.filter isRecord rows).
Proof.
  intros H. unfold normalizeRows.
  destruct (sequence_total (map (normalizeRow year month) (List.filter isRecord rows)))
    as (txns & E & L).
  - apply Forall_map, Forall_forall. intros row Hr.
    apply plainRow_normalizeRow.
    apply list_elem_of_In, filter_In in Hr as [Hr _].
    rewrite forallb_forall in H. by apply H.
  - exists txns. split; [exact E|]. by rewrite L, length_map.
Qed.

Lemma normalizeRows_total_witness :
  exists txns,
    normalizeRows 2024 1
      [JObj [(u "bet01Txt", JStr (u "1,000")); (u "rqdat", JNum (u "20240125"))];
       JNull;
       JObj [(u "payType", JArr [JStr (u "a"); JNull; JObj []])]] = Ok txns /\
    List.length txns = 2%nat.
Proof.
  apply (normalizeRows_total 2024 1
           [JObj [(u "bet01Txt", JStr (u "1,000")); (u "rqdat", JNum (u "20240125"))];
            JNull;
            JObj [(u "payType", JArr [JStr (u "a"); JNull; JObj []])]]).
  reflexivity.
Defined.

(* ===================================================================== *)
(** * The test for HTML *)
(* ===================================================================== *)

Section Markup.

Lemma startsWith_head (c : N) (p s : jstring) :
  startsWith (c :: p) s = true -> In c s.
Proof.
  destruct s as [|b s]; [discriminate|]. simpl. intros H.
  apply andb_true_iff in H as [H _]. apply N.eqb_eq in H as ->. by left.
Qed.

Lemma includes_head (c : N) (p s : jstring) :
  includes (c :: p) s = true -> In c s.
Proof.
  induction s as [|b s IH]; [discriminate|].
  cbn [includes]. intros H. apply orb_true_iff in H as [H|H].
  - by apply startsWith_head in H.
  - right. by apply IH.
Qed.

Lemma lowerUnit_angle (c : N) : lowerUnit c = 60%N -> c = 60%N.
Proof.
  unfold lowerUnit.
  destruct ((65 <=? c) && (c <=? 90))%N eqn:A.
  - apply andb_true_iff in A as [A _]. apply N.leb_le in A. lia.
  - destruct ((192 <=? c) && (c <=? 222) && negb (c =? 215))%N eqn:B; [|done].
    apply andb_true_iff in B as [B _]. apply andb_true_iff in B as [B _].
    apply N.leb_le in B. lia.
Qed.

End Markup.

(** X22: a body is taken for HTML only if a [<] stands among the first
    fifty units of its trimmed text: an answer that opens otherwise, as a
    JSON payload does, is never sent through the recovery of the session. *)
Theorem isHtml_needs_angle (text : jstring) :
  ~ In 60%N (opening text) -> isHtml text = false.
Proof.
  intros H. unfold isHtml. fold (opening text). cbv zeta.
  assert (~ In 60%N (toLowerCase (opening text))) as H'.
  { intros I. apply H. unfold toLowerCase in I.
    apply in_map_iff in I as (c & E & I). by apply lowerUnit_angle in E as ->. }
  change (u "<!doctype html") with (60%N :: u "!doctype html").
  change (u "<html") with (60%N :: u "html").
  destruct (startsWith (60%N :: u "!doctype html") _) eqn:S1;
    [by apply startsWith_head in S1|].
  destruct (startsWith (60%N :: u "html") _) eqn:S2;
    [by apply startsWith_head in S2|].
  destruct (includes (60%N :: u "html") _) eqn:S3;
    [by apply includes_head in S3|].
  reflexivity.
Qed.

Lemma isHtml_needs_angle_witness :
  isHtml (u "  {result: {payDetails: null}}") = false.
Proof. apply isHtml_needs_angle. vm_compute. intuition discriminate. Defined.

(* ===================================================================== *)
(** * The years asked for *)
(* ===================================================================== *)

Section Doubles.

Import JsNumber.







End Doubles.

Section Years.

Import JsNumber.
Import StartRoute.




Lemma plain_trim (s : jstring) : Forall (fun c => isWhite c = false) s -> trim s = s.
Proof.
  intros H. apply trim_fixed. rewrite Forall_forall in H. split.
  - intros c r ->. apply H. by left.
  - intros c r ->. apply H. apply list_elem_of_In, in_or_app. right. by left.
Qed.













End Years.





(* ===================================================================== *)
(** * Amounts given as numbers *)
(* ===================================================================== *)

Section Figures.

Import JsNumber.

Lemma uintUnits_digits (d : Decimal.uint) : forallb isDigit (uintUnits d) = true.
Proof. induction d; simpl; auto. Qed.

Lemma digitsValue_acc (d : Decimal.uint) :
  forall acc : positive,
    fold_left (fun acc c => (10 * acc + digitValue c)%N) (uintUnits d) (Npos acc)
    = Npos (Pos.of_uint_acc d acc).
Proof.
  induction d as [|d IH|d IH|d IH|d IH|d IH|d IH|d IH|d IH|d IH|d IH]; intros acc;
    [reflexivity|..];
    cbn [uintUnits fold_left Pos.of_uint_acc]; rewrite <- IH; f_equal;
    unfold digitValue; lia.
Qed.

(** Reading the decimal text of a number gives the number. *)
Lemma digitsValue_uint (d : Decimal.uint) : digitsValue (uintUnits d) = Pos.of_uint d.
Proof.
  unfold digitsValue.
  induction d as [|d IH|d IH|d IH|d IH|d IH|d IH|d IH|d IH|d IH|d IH];
    [reflexivity | exact IH |..];
    cbn [uintUnits fold_left Pos.of_uint]; rewrite <- digitsValue_acc; f_equal.
Qed.

Lemma digitsValue_ofN (n : N) : digitsValue (ofN n) = n.
Proof. unfold ofN. rewrite digitsValue_uint. apply DecimalN.Unsigned.of_to. Qed.

Lemma ofN_nonempty (n : N) : ofN n <> [].
Proof.
  destruct n as [|p]; [done|]. intros E.
  pose proof (digitsValue_ofN (Npos p)) as V. rewrite E in V. discriminate V.
Qed.

Lemma parseLiteral_negative (ds : jstring) :
  ds <> [] -> forallb isDigit ds = true ->
  parseLiteral (45%N :: ds) = LitDecimal true (digitsValue ds) 0.
Proof.
  intros N D. unfold parseLiteral.
  assert (trim (45%N :: ds) = 45%N :: ds) as ->.
  { apply plain_trim. constructor; [done|]. apply Forall_forall. intros c I.
    apply digit_not_white. rewrite forallb_forall in D. by apply D, list_elem_of_In. }
  cbn [N.eqb Pos.eqb]. change (45 =? 43)%N with false. change (45 =? 45)%N with true.
  cbv iota. unfold parseDecimal.
  destruct (eqb ds (u "Infinity")) eqn:E.
  - apply eqb_eq in E. subst ds. discriminate D.
  - unfold parseUnsignedDecimal. rewrite (spanDigits_all ds D).
    rewrite app_nil_r. destruct ds as [|c r]; [done|]. reflexivity.
Qed.

End Figures.

(** X25: an amount that arrives as a JSON number, whole and at most
    [2^53] in absolute value, is kept as it is, sign included. *)
Theorem parseIntMoney_json_integer (z : Z) :
  Z.abs z <= 2 ^ 53 -> parseIntMoney (JNum (ofZ z)) = Ok z.
Proof.
  intros B.
  pose proof (uintUnits_digits (N.to_uint (Z.abs_N z))) as D. fold (ofN (Z.abs_N z)) in D.
  pose proof (ofN_nonempty (Z.abs_N z)) as Ne.
  pose proof (digitsValue_ofN (Z.abs_N z)) as V.
  assert (stripCommas (ofN (Z.abs_N z)) = ofN (Z.abs_N z)) as S.
  { by apply stripCommas_digits. }
  unfold ofZ. destruct (Z.ltb_spec z 0) as [L|L].
  - unfold parseIntMoney. cbn [toText rbind].
    assert (stripCommas (45%N :: ofN (Z.abs_N z)) = 45%N :: ofN (Z.abs_N z)) as ->
      by (unfold stripCommas in *; cbn [List.filter N.eqb Pos.eqb negb]; by rewrite S).
    assert (trim (45%N :: ofN (Z.abs_N z)) = 45%N :: ofN (Z.abs_N z)) as ->.
    { apply plain_trim. constructor; [done|]. apply Forall_forall. intros c I.
      apply digit_not_white. rewrite forallb_forall in D. by apply D, list_elem_of_In. }
    cbn [eqb]. unfold JsNumber.Number. rewrite parseLiteral_negative by done.
    rewrite V.
    destruct (roundDecimal_whole true (Z.abs_N z)) as [-> ->]; [lia|].
    f_equal. lia.
  - change (parseIntMoney (JNum (ofN (Z.abs_N z))))
      with (parseIntMoney (JStr (ofN (Z.abs_N z)))).
    rewrite (parseIntMoney_digits _ (ofN (Z.abs_N z))) by (done || rewrite V; lia).
    rewrite V. f_equal. lia.
Qed.

Lemma parseIntMoney_json_integer_witness :
  parseIntMoney (JNum (u "-1234567")) = Ok (-1234567).
Proof. apply (parseIntMoney_json_integer (-1234567)). simpl. lia. Defined.
